(** * ZenFolio: content pipeline and page assembly

    A shallow embedding of the parts of the ZenFolio static-site generator
    that load content ([content.py]), look parsers up
    ([parsers/base_parser.py]), process items and assemble pages
    ([zenfolio.py]) and derive meta descriptions ([seo_utils.py]),
    followed by the properties proved about them.

    Python values that can sit in an item dictionary are modelled by
    [pyval]; dictionaries are finite maps from field names to values.
    A Python [str] is a [string]: one character per code point, so the
    development covers text whose code points fit in eight bits. *)

From Stdlib Require Import ZArith Ascii String List Bool Lia DecimalString.
From Stdlib Require Import Sorting.Sorted Sorting.Permutation.
From stdpp Require Import base option list strings gmap fin_maps.

Set Warnings "-register-all".
Local Open Scope Z_scope.

(** * Part I: the program *)

(** ** Python values *)

Module Py.

(** The values found in parsed frontmatter, BibTeX records and typed
    entities.  Lists and dictionaries are carried around by the code
    under study; it looks only at whether they are empty. *)
Inductive pyval : Type :=
| VNone
| VBool (b : bool)
| VInt (z : Z)
| VStr (s : string)
| VList (l : list pyval)
| VDict (d : gmap string pyval).

(** Exceptions, all of them subclasses of [Exception].
    [JSONDecodeError] and [UnicodeDecodeError] are subclasses of
    [ValueError], so a handler for [ValueError] takes them too;
    [OtherError] is any other exception, such as the [OSError] of a
    file that cannot be opened. *)
Inductive exn : Type :=
| FileNotFoundError
| TypeError
| ValueError
| AttributeError
| KeyError
| OtherError
| JSONDecodeError
| UnicodeDecodeError.

(** A computation that returns or raises. *)
Inductive result (A : Type) : Type :=
| Ok (a : A)
| Raise (e : exn).
Global Arguments Ok {A} a.
Global Arguments Raise {A} e.

Definition bind {A B} (m : result A) (k : A -> result B) : result B :=
  match m with
  | Ok a => k a
  | Raise e => Raise e
  end.

(** [try: m  except Exception: h] *)
Definition try_except {A} (m : result A) (h : exn -> result A) : result A :=
  match m with
  | Ok a => Ok a
  | Raise e => h e
  end.

(** [bool(v)] *)
Definition truthy (v : pyval) : bool :=
  match v with
  | VNone => false
  | VBool b => b
  | VInt z => negb (z =? 0)
  | VStr s => negb (String.eqb s "")
  | VList l => match l with [] => false | _ => true end
  | VDict d => negb (bool_decide (d = ∅))
  end.

(** [isinstance(v, str)] *)
Definition is_str (v : pyval) : bool :=
  match v with VStr _ => true | _ => false end.

(** [d.get(k)] is [d !! k] with a missing key read as Python's [None];
    [get_or] is [d.get(k, default)]. *)
Definition get (d : gmap string pyval) (k : string) : pyval :=
  default VNone (d !! k).

Definition get_or (d : gmap string pyval) (k : string) (dflt : pyval) : pyval :=
  default dflt (d !! k).

(** [k in d] *)
Definition has_key (d : gmap string pyval) (k : string) : bool :=
  bool_decide (is_Some (d !! k)).

(** [a or b] *)
Definition or_else (a b : pyval) : pyval :=
  if truthy a then a else b.

(** What [hash] and [==] see of a value: [True == 1] and [False == 0],
    and lists and dictionaries cannot be hashed. *)
Inductive hkey : Type :=
| KNone
| KInt (z : Z)
| KStr (s : string).

Global Instance hkey_eq_dec : EqDecision hkey.
Proof. solve_decision. Defined.

Global Instance hkey_countable : Countable hkey.
Proof.
  refine (inj_countable'
    (fun k => match k with
              | KNone => inl ()
              | KInt z => inr (inl z)
              | KStr s => inr (inr s)
              end)
    (fun x => match x with
              | inl _ => KNone
              | inr (inl z) => KInt z
              | inr (inr s) => KStr s
              end) _).
  intros []; reflexivity.
Defined.

Definition hash_key (v : pyval) : result hkey :=
  match v with
  | VNone => Ok KNone
  | VBool b => Ok (KInt (if b then 1 else 0))
  | VInt z => Ok (KInt z)
  | VStr s => Ok (KStr s)
  | VList _ | VDict _ => Raise TypeError
  end.

(** [hash(v)] succeeds. *)
Definition hashable (v : pyval) : Prop := exists k, hash_key v = Ok k.

(** [keyed field k d]: the dictionary has a value under [field] that
    counts as true, and it hashes and compares as [k]. *)
Definition keyed (field : string) (k : hkey) (d : gmap string pyval) : bool :=
truthy (get d field) &&
match hash_key (get d field) with
| Ok k' => bool_decide (k' = k)
| Raise _ => false
end.

(** *** Strings *)

(** [s.startswith(p)] *)
Definition startswith (s p : string) : bool := String.prefix p s.

(** [s.startswith((p1, ..., pn))] *)
Definition startswith_any (s : string) (ps : list string) : bool :=
  existsb (startswith s) ps.

(** [s.removeprefix(p)] *)
Definition removeprefix (s p : string) : string :=
  if startswith s p
  then String.substring (String.length p) (String.length s - String.length p) s
  else s.

(** [s[:n]] for a natural [n]. *)
Definition str_take (n : nat) (s : string) : string := String.substring 0 n s.

(** [c.lower()] on the code points below 256: A-Z and the Latin-1
    capitals, the multiplication sign excepted. *)
Definition lower_char (c : ascii) : ascii :=
  let n := nat_of_ascii c in
  if (((65 <=? n) && (n <=? 90)) ||
      ((192 <=? n) && (n <=? 222) && negb (n =? 215)))%nat
  then ascii_of_nat (n + 32)
  else c.

Fixpoint lower (s : string) : string :=
  match s with
  | EmptyString => EmptyString
  | String c s' => String (lower_char c) (lower s')
  end.

(** The characters [str.strip] treats as white space. *)
Definition is_space (c : ascii) : bool :=
  let n := nat_of_ascii c in
  (((9 <=? n) && (n <=? 13)) || ((28 <=? n) && (n <=? 32)) ||
   (n =? 133) || (n =? 160))%nat.

Fixpoint lstrip (s : string) : string :=
  match s with
  | EmptyString => EmptyString
  | String c s' => if is_space c then lstrip s' else s
  end.

(** [s.strip()] *)
Definition strip (s : string) : string :=
  String.rev (lstrip (String.rev (lstrip s))).

(** *** [int(s)] for a string: optional white space around an optional
    sign and decimal digits, where single underscores may separate
    digits.

    The white space of [int] is not that of [str.strip]: [int] passes
    over the white space of ASCII (tab to carriage return, and the
    blank) and over the two spaces of Latin-1, which the conversion
    turns into blanks first; the separators 28 to 31 are left where
    they are, and make the text no number. *)
Definition is_int_space (c : ascii) : bool :=
  let n := nat_of_ascii c in
  (((9 <=? n) && (n <=? 13)) || (n =? 32) || (n =? 133) || (n =? 160))%nat.

Fixpoint int_lstrip (s : string) : string :=
  match s with
  | EmptyString => EmptyString
  | String c s' => if is_int_space c then int_lstrip s' else s
  end.

Definition int_strip (s : string) : string :=
  String.rev (int_lstrip (String.rev (int_lstrip s))).

(** [sys.get_int_max_str_digits()], at its default: a text with more
    digits is refused with a [ValueError].  Sign, underscores and
    white space do not count; leading zeros do. *)
Definition max_str_digits : Z := 4300.

Definition digit_val (c : ascii) : option Z :=
  let n := nat_of_ascii c in
  if ((48 <=? n) && (n <=? 57))%nat then Some (Z.of_nat (n - 48)) else None.

Fixpoint int_digits (acc : Z) (after_underscore : bool) (s : string) : option Z :=
  match s with
  | EmptyString => if after_underscore then None else Some acc
  | String c s' =>
      match digit_val c with
      | Some d => int_digits (10 * acc + d) false s'
      | None =>
          if Ascii.eqb c "_" && negb after_underscore
          then int_digits acc true s'
          else None
      end
  end.

Fixpoint count_digits (s : string) : Z :=
  match s with
  | EmptyString => 0
  | String c s' => (match digit_val c with Some _ => 1 | None => 0 end) + count_digits s'
  end.

Definition int_unsigned (s : string) : option Z :=
  match s with
  | String c s' =>
      match digit_val c with
      | Some d =>
          if count_digits s <=? max_str_digits then int_digits d false s' else None
      | None => None
      end
  | EmptyString => None
  end.

Definition int_of_str (s : string) : option Z :=
  match int_strip s with
  | String "-" s' => Z.opp <$> int_unsigned s'
  | String "+" s' => int_unsigned s'
  | s' => int_unsigned s'
  end.

(** [int(v)]: [ValueError] for a string that is not a number and
    [TypeError] for a value that is not a number or a string. *)
Definition py_int (v : pyval) : result Z :=
  match v with
  | VBool b => Ok (if b then 1 else 0)
  | VInt z => Ok z
  | VStr s => match int_of_str s with Some z => Ok z | None => Raise ValueError end
  | VNone | VList _ | VDict _ => Raise TypeError
  end.

(** *** Lists *)

(** [l[:n]] for an integer [n]: a negative bound counts from the end. *)
Definition slice_to {A} (l : list A) (n : Z) : list A :=
  if 0 <=? n then take (Z.to_nat n) l
  else take (Z.to_nat (Z.of_nat (length l) + n)) l.

(** [sorted(l, reverse=True)] under the comparison [leb]: a stable
    sort into descending order, so elements that compare equal keep
    the order they had in [l]. *)
Fixpoint insert_desc {A} (leb : A -> A -> bool) (x : A) (l : list A) : list A :=
  match l with
  | [] => [x]
  | y :: l' => if leb y x then x :: l else y :: insert_desc leb x l'
  end.

Fixpoint sorted_desc {A} (leb : A -> A -> bool) (l : list A) : list A :=
  match l with
  | [] => []
  | x :: l' => insert_desc leb x (sorted_desc leb l')
  end.

(** Run [f] over a list, stopping at the first exception. *)
Fixpoint map_result {A B} (f : A -> result B) (l : list A) : result (list B) :=
  match l with
  | [] => Ok []
  | x :: l' => bind (f x) (fun y => bind (map_result f l') (fun ys => Ok (y :: ys)))
  end.

End Py.

Import Py.

Global Instance result_ret : MRet result := fun _ a => Ok a.
Global Instance result_bind : MBind result := fun _ _ k m => Py.bind m k.
Global Instance result_fmap : FMap result :=
  fun _ _ f m => match m with Ok a => Ok (f a) | Raise e => Raise e end.

(** ** utils.py *)

Module Utils.

Definition is_external_url (path : string) : bool :=
  startswith_any path ["http://"; "https://"; "mailto:"; "tel:"].

End Utils.

(** ** zenfolio.py: path resolution *)

Module Paths.

(** [ZenFolio._resolve_path] *)
Definition _resolve_path (path : string) : string :=
  if Utils.is_external_url path then path
  else removeprefix path "static/".

End Paths.

(** ** parsers/base_parser.py *)

Module Parsers.

(** A [pathlib.Path], as the list of its components. *)
Definition path : Type := list string.

(** [p / child] *)
Definition join (p : path) (child : string) : path := p ++ [child].

(** [p.name] *)
Definition name (p : path) : string := List.last p "".

Fixpoint rfind (c : ascii) (s : string) : option nat :=
  match s with
  | EmptyString => None
  | String a s' =>
      match rfind c s' with
      | Some i => Some (S i)
      | None => if Ascii.eqb a c then Some 0%nat else None
      end
  end.

(** [p.suffix]: the final component from its last dot on, unless that
    dot is its first or its last character. *)
Definition suffix (p : path) : string :=
  let nm := name p in
  match rfind "." nm with
  | Some i =>
      if ((0 <? i) && (i <? String.length nm - 1))%nat
      then String.substring i (String.length nm - i) nm
      else ""
  | None => ""
  end.

(** The [ContentParser] interface.  [pid] is the identity of the
    parser object, which is what [parser in self._parsers] compares.
    [can_parse], [parse_file] and [parse_directory] may read the
    content directory and may raise; a processor takes the content and
    the configured markdown extensions. *)
Record ContentParser : Type := {
  pid : nat;
  supported_extensions : list string;
  content_types : list string;
  can_parse : path -> result bool;
  parse_file : path -> result pyval;
  parse_directory : path -> string -> result (list (gmap string pyval));
  get_content_processor : string -> option (string -> list string -> result string)
}.

(** [parser in l] *)
Definition parser_in (p : ContentParser) (l : list ContentParser) : bool :=
  existsb (fun q => Nat.eqb (pid q) (pid p)) l.

Record ParserRegistry : Type := {
  _parsers : list ContentParser;
  _extension_map : gmap string (list ContentParser)
}.

(** [ParserRegistry.__init__] *)
Definition empty_registry : ParserRegistry :=
  {| _parsers := []; _extension_map := ∅ |}.

(** The loop body of [register]: file the parser under one extension. *)
Definition add_extension (p : ContentParser)
    (m : gmap string (list ContentParser)) (ext : string)
    : gmap string (list ContentParser) :=
  let m1 := if bool_decide (is_Some (m !! ext)) then m else <[ext := []]> m in
  let l := default [] (m1 !! ext) in
  if parser_in p l then m1 else <[ext := l ++ [p]]> m1.

(** [ParserRegistry.register] *)
Definition register (reg : ParserRegistry) (p : ContentParser) : ParserRegistry :=
  if parser_in p (_parsers reg) then reg
  else {| _parsers := _parsers reg ++ [p];
          _extension_map :=
            foldl (add_extension p) (_extension_map reg) (supported_extensions p) |}.

(** The two loops of [get_parser_for_file]: the parsers are asked in
    order, the first that accepts the file is returned, and an
    exception of a [can_parse] that is asked leaves the loop. *)
Fixpoint first_can_parse (file_path : path) (parsers : list ContentParser)
    : result (option ContentParser) :=
  match parsers with
  | [] => Ok None
  | parser :: rest =>
      accepted ← can_parse parser file_path;
      if (accepted : bool) then Ok (Some parser) else first_can_parse file_path rest
  end.

(** [ParserRegistry.get_parser_for_file].  The extension of the file
    is put in lower case; the keys of the extension index are the
    extensions as the parsers declare them. *)
Definition get_parser_for_file (reg : ParserRegistry) (file_path : path)
    : result (option ContentParser) :=
  let extension := lower (suffix file_path) in
  by_extension ←
    match _extension_map reg !! extension with
    | Some candidates => first_can_parse file_path candidates
    | None => Ok None
    end;
  match by_extension with
  | Some p => Ok (Some p)
  | None => first_can_parse file_path (_parsers reg)
  end.

(** [content_type in p.content_types] for a string. *)
Definition produces (content_type : string) (p : ContentParser) : bool :=
  bool_decide (content_type ∈ content_types p).

(** [ParserRegistry.get_parsers_for_content_type].  The membership
    test hashes [content_type], once a parser is there to be asked. *)
Definition get_parsers_for_content_type (reg : ParserRegistry) (content_type : pyval)
    : result (list ContentParser) :=
  match _parsers reg with
  | [] => Ok []
  | _ =>
      k ← hash_key content_type;
      match k with
      | KStr s => Ok (List.filter (produces s) (_parsers reg))
      | _ => Ok []
      end
  end.

(** [ext in parser.supported_extensions] *)
Definition declares (ext : string) (p : ContentParser) : bool :=
  bool_decide (ext ∈ supported_extensions p).

(** [self._extension_map.get(ext, [])] *)
Definition entry (m : gmap string (list ContentParser)) (ext : string)
    : list ContentParser :=
  default [] (m !! ext).

(** The invariant of the registry: the extension index lists, for
    every extension, the registered parsers that declare it, in
    registration order. *)
Definition index_ok (reg : ParserRegistry) : Prop :=
  forall e, entry (_extension_map reg) e = List.filter (declares e) (_parsers reg).

(** The registry after registering [ps] in order. *)
Definition registry_of (ps : list ContentParser) : ParserRegistry :=
  foldl register empty_registry ps.

(** [p.can_parse(file_path)] returns true. *)
Definition accepts (file_path : path) (p : ContentParser) : bool :=
  match can_parse p file_path with
  | Ok accepted => accepted
  | Raise _ => false
  end.

(** The parsers registered first, one for every identity, in the
    order in which they first occur in [ps]. *)
Fixpoint first_registrations (ps : list ContentParser) : list ContentParser :=
  match ps with
  | [] => []
  | p :: rest =>
      p :: List.filter (fun q => negb (Nat.eqb (pid q) (pid p))) (first_registrations rest)
  end.

(** The lookup in the words of the specification: the extension of
    the file is compared with the declared extensions without regard
    to case, the first accepting parser among those that declare it
    is returned, otherwise the first accepting parser of all, and
    otherwise nothing; no error is raised. *)
Definition declares_ignoring_case (ext : string) (p : ContentParser) : bool :=
  bool_decide (lower ext ∈ lower <$> supported_extensions p).

Definition lookup_as_stated (reg : ParserRegistry) (file_path : path)
    : option ContentParser :=
  match List.find (accepts file_path)
          (List.filter (declares_ignoring_case (suffix file_path)) (_parsers reg)) with
  | Some p => Some p
  | None => List.find (accepts file_path) (_parsers reg)
  end.

Definition lookup_agrees (reg : ParserRegistry) (file_path : path) : Prop :=
  get_parser_for_file reg file_path = Ok (lookup_as_stated reg file_path).

(** *** parsers/markdown_parser.py, what the loaders rely on *)

Definition markdown_extensions_supported : list string :=
  [".md"; ".markdown"; ".mdown"; ".mkd"].

Definition markdown_content_types : list string :=
  ["blog_post"; "page"; "bio"].

(** [MarkdownParser.can_parse] *)
Definition markdown_can_parse (file_path : path) : bool :=
  bool_decide (lower (suffix file_path) ∈ markdown_extensions_supported).

(** [MarkdownParser.parse_file], over the state of the file system:
    [exists_] tells whether the file is there and [frontmatter_load]
    is the frontmatter library reading it, which may raise. *)
Definition markdown_parse_file
    (exists_ : path -> bool)
    (frontmatter_load : path -> result (gmap string pyval * string))
    (file_path : path) : result pyval :=
  if negb (exists_ file_path) then Ok (VDict ∅)
  else
    try_except
      (post ← frontmatter_load file_path;
       Ok (VDict {[ "metadata" := VDict post.1; "content" := VStr post.2 ]}))
      (fun _ => Ok (VDict ∅)).

(** [MarkdownParser.get_content_processor]: the same processor for
    every content type. *)
Definition process_markdown
    (dedent : string -> string)
    (markdown : string -> list string -> result string)
    (content : string) (markdown_extensions : list string) : result string :=
  markdown (strip (dedent content)) markdown_extensions.

End Parsers.

(** ** models/site_config.py and models/content_models.py *)

Module Models.

(** The author section of the configuration.  The loaders probe it
    with [hasattr], so every attribute may be missing. *)
Record AuthorConfig : Type := {
  author_name : option string;
  author_title : option string;
  author_affiliation : option string;
  author_interests : option (list string)
}.

Record SiteConfig : Type := {
  description : string;
  markdown_extensions : list string;
  homepage_publications_count : option Z;
  homepage_news_count : option Z
}.

Record Config : Type := {
  author : option AuthorConfig;
  site : SiteConfig
}.

(** [obj.attr]: [AttributeError] when the attribute is missing. *)
Definition getattr {A} (attr : option A) : result A :=
  match attr with
  | Some a => Ok a
  | None => Raise AttributeError
  end.

Definition str_list (l : list string) : pyval := VList (VStr <$> l).

(** [Bio().to_dict()]: the declared defaults of the [Bio] entity. *)
Definition Bio_default : gmap string pyval :=
  {[ "bio" := VStr ""; "tagline" := VStr ""; "interests" := VList [] ]}.

(** The typed entities are ZenCFG classes: [Bio_new kw] stands for
    constructing a [Bio] from the keyword arguments [kw] and calling
    [to_dict] on it, [BlogPost_new kw] for the same with [BlogPost];
    they raise when the library rejects the keywords. *)
Record Entities : Type := {
  Bio_new : gmap string pyval -> result (gmap string pyval);
  BlogPost_new : gmap string pyval -> result (gmap string pyval)
}.

End Models.

(** ** content.py *)

Module Content.
Import Parsers Models.

(** [v.copy()] followed by item assignment: only a dictionary
    supports both. *)
Definition copy_dict (v : pyval) : result (gmap string pyval) :=
  match v with
  | VDict d => Ok d
  | VList _ => Raise TypeError
  | _ => Raise AttributeError
  end.

(** [raw_data.get(...)]: only a dictionary has [get]. *)
Definition as_dict (v : pyval) : result (gmap string pyval) :=
  match v with
  | VDict d => Ok d
  | _ => Raise AttributeError
  end.

(** The dictionary built from the author section when no bio was
    read. *)
Definition bio_from_config (a : AuthorConfig) : gmap string pyval :=
  {[ "bio" := VStr "";
     "interests" := from_option str_list (VList []) (author_interests a);
     "title" := VStr (default "" (author_title a));
     "affiliation" := VStr (default "" (author_affiliation a)) ]}.

(** The body of the [try] in [_safe_parse_bio_data]. *)
Definition parse_bio_data (ent : Entities) (reg : ParserRegistry) (config : Config)
    (content_dir : path) : result (gmap string pyval) :=
  let index_path := join content_dir "index.md" in
  let from_config :=
    match author config with
    | Some a => Ok (bio_from_config a)
    | None => Ok Bio_default
    end in
  parser ← get_parser_for_file reg index_path;
  match parser with
  | Some parser =>
      raw_data ← parse_file parser index_path;
      if truthy raw_data then
        raw ← as_dict raw_data;
        bio_data ← copy_dict (get_or raw "metadata" (VDict ∅));
        let bio_data := <["bio" := get_or raw "content" (VStr "")]> bio_data in
        a ← getattr (author config);
        let bio_data :=
          match author_interests a with
          | Some i => <["interests" := str_list i]> bio_data
          | None =>
              if has_key bio_data "interests" then bio_data
              else <["interests" := VList []]> bio_data
          end in
        Bio_new ent bio_data
      else from_config
  | None => from_config
  end.

(** [Content._safe_parse_bio_data]: both handlers return the empty
    bio. *)
Definition _safe_parse_bio_data (ent : Entities) (reg : ParserRegistry)
    (config : Config) (content_dir : path) : result (gmap string pyval) :=
  try_except (parse_bio_data ent reg config content_dir)
    (fun e =>
       match e with
       | FileNotFoundError => Ok Bio_default
       | _ => Ok Bio_default
       end).

(** The flattening of one raw post in [_safe_parse_blog_posts]. *)
Definition flatten_post (raw_post : gmap string pyval) : result (gmap string pyval) :=
  if has_key raw_post "metadata" then
    flattened_post ← copy_dict (get raw_post "metadata");
    Ok (<["content_type" := get_or raw_post "content_type" (VStr "markdown")]>
          (<["content" := get_or raw_post "content" (VStr "")]> flattened_post))
  else Ok raw_post.

(** The inner loop over one parser's posts.  It runs inside the
    [try], so the posts appended before an exception stay. *)
Fixpoint flatten_posts (raw_posts : list (gmap string pyval))
    : list (gmap string pyval) :=
  match raw_posts with
  | [] => []
  | raw_post :: rest =>
      match flatten_post raw_post with
      | Ok post => post :: flatten_posts rest
      | Raise _ => []
      end
  end.

(** What one parser adds to [all_raw_posts]. *)
Definition posts_of_parser (blog_dir : path) (parser : ContentParser)
    : list (gmap string pyval) :=
  match parse_directory parser blog_dir "blog_post" with
  | Ok raw_posts => flatten_posts raw_posts
  | Raise _ => []
  end.

(** [all_raw_posts], once the loop over the blog parsers is done. *)
Definition all_raw_posts (reg : ParserRegistry) (blog_dir : path)
    : result (list (gmap string pyval)) :=
  blog_parsers ← get_parsers_for_content_type reg (VStr "blog_post");
  Ok (concat (posts_of_parser blog_dir <$> blog_parsers)).

(** The deduplication loop, from the state [seen_slugs]. *)
Fixpoint unique_posts (seen_slugs : gset hkey) (posts : list (gmap string pyval))
    : result (list (gmap string pyval)) :=
  match posts with
  | [] => Ok []
  | post :: rest =>
      let slug := get post "slug" in
      if truthy slug then
        k ← hash_key slug;
        if bool_decide (k ∈ seen_slugs) then unique_posts seen_slugs rest
        else
          kept ← unique_posts ({[k]} ∪ seen_slugs) rest;
          Ok (post :: kept)
      else unique_posts seen_slugs rest
  end.

(** The [BlogPost] built from the keywords of [raw_post] and
    [content_raw]: a keyword given twice is a [TypeError]. *)
Definition validate_post (ent : Entities) (raw_post : gmap string pyval)
    : result (gmap string pyval) :=
  if has_key raw_post "content_raw" then Raise TypeError
  else BlogPost_new ent (<["content_raw" := get_or raw_post "content" (VStr "")]> raw_post).

(** The validation loop: a post that raises is passed over. *)
Fixpoint validated_posts (ent : Entities) (posts : list (gmap string pyval))
    : list (gmap string pyval) :=
  match posts with
  | [] => []
  | raw_post :: rest =>
      match validate_post ent raw_post with
      | Ok blog_post => blog_post :: validated_posts ent rest
      | Raise _ => validated_posts ent rest
      end
  end.

(** [Content._safe_parse_blog_posts]; [blog_dir_exists] is
    [blog_dir.exists()]. *)
Definition _safe_parse_blog_posts (ent : Entities) (reg : ParserRegistry)
    (content_dir : path) (blog_dir_exists : bool) : result (list (gmap string pyval)) :=
  try_except
    (let blog_dir := join content_dir "blog" in
     if negb blog_dir_exists then Ok []
     else
       posts ← all_raw_posts reg blog_dir;
       unique ← unique_posts ∅ posts;
       Ok (validated_posts ent unique))
    (fun _ => Ok []).

(** The posts merged from the blog parsers, in registration order. *)
Definition merged_posts (reg : ParserRegistry) (content_dir : path)
    : list (gmap string pyval) :=
  concat (posts_of_parser (join content_dir "blog") <$>
            List.filter (produces "blog_post") (_parsers reg)).

(** The requirement on deduplication in the words of the
    specification: what the loader returns are the validated forms of
    a list [unique] taken from the merged posts that holds, for every
    slug value, exactly the first merged post with that slug. *)
Definition keeps_first_of_each_slug (ent : Entities) (reg : ParserRegistry)
    (content_dir : path) : Prop :=
  exists unique,
    _safe_parse_blog_posts ent reg content_dir true = Ok (validated_posts ent unique) /\
    sublist unique (merged_posts reg content_dir) /\
    forall k, List.filter (keyed "slug" k) unique =
              take 1 (List.filter (keyed "slug" k) (merged_posts reg content_dir)).

End Content.

(** ** seo_utils.py *)

Module Seo.
Import Models.

(** The pattern [<[^<]+?>] tried at the start of [s]: after [<] comes
    one character other than [<], then as few such characters as
    will do up to a [>].  [tag_close] scans for that [>] and counts
    what it passes; [tag_length] is the length of the match. *)
Fixpoint tag_close (s : string) : option nat :=
  match s with
  | EmptyString => None
  | String c s' =>
      if Ascii.eqb c ">" then Some 1%nat
      else if Ascii.eqb c "<" then None
      else S <$> tag_close s'
  end.

Definition tag_length (s : string) : option nat :=
  match s with
  | String "<" (String c s') =>
      if Ascii.eqb c "<" then None else (fun n => S (S n)) <$> tag_close s'
  | _ => None
  end.

(** [re.sub('<[^<]+?>', '', s)], scanning left to right: [skip] is
    the number of characters of the current match still to drop. *)
Fixpoint sub_tags (skip : nat) (s : string) : string :=
  match s with
  | EmptyString => EmptyString
  | String c s' =>
      match skip with
      | S k => sub_tags k s'
      | O =>
          match tag_length s with
          | Some n => sub_tags (n - 1) s'
          | None => String c (sub_tags 0 s')
          end
      end
  end.

Definition strip_tags (s : string) : string := sub_tags 0 s.

(** A tag of the usual shape: [<], a character other than [<], then characters other
    than [<] and [>], then [>]. *)
Definition tag (c : ascii) (body : string) : string :=
  String "<" (String c (body +:+ ">")).

(** [c in s] *)
Fixpoint has_char (c : ascii) (s : string) : bool :=
match s with
| EmptyString => false
| String a s' => Ascii.eqb a c || has_char c s'
end.

(** [str(v)] as an f-string shows it; [repr_container] stands for
    the built-in rendering of lists and dictionaries. *)
Definition py_str (repr_container : pyval -> string) (v : pyval) : string :=
  match v with
  | VNone => "None"
  | VBool true => "True"
  | VBool false => "False"
  | VInt z => DecimalString.NilZero.string_of_int (Z.to_int z)
  | VStr s => s
  | _ => repr_container v
  end.

(** [', '.join(self.config.author.interests[:3])] *)
Definition top_interests (a : AuthorConfig) : result string :=
  interests ← getattr (author_interests a);
  Ok (String.concat ", " (take 3 interests)).

(** [SEOGenerator.generate_meta_description] *)
Definition generate_meta_description (repr_container : pyval -> string)
    (config : Config) (page_type : string) (item : option (gmap string pyval))
    : result string :=
  let str := py_str repr_container in
  let item_given :=
    match item with
    | Some d => truthy (VDict d)
    | None => false
    end in
  let item_dict := default ∅ item in
  a ← getattr (author config);
  author_name ← getattr (author_name a);
  if String.eqb page_type "homepage" then
    Ok (description (site config))
  else if String.eqb page_type "publications" then
    interests ← top_interests a;
    Ok ("Research publications by " +:+ author_name +:+ ", covering "
          +:+ interests +:+ " and more.")
  else if String.eqb page_type "blog" then
    interests ← top_interests a;
    Ok ("Insights and thoughts on " +:+ interests +:+ " by " +:+ author_name +:+ ".")
  else if String.eqb page_type "blog_post" && item_given then
    if truthy (get item_dict "excerpt") then
      match get item_dict "excerpt" with
      | VStr excerpt =>
          let clean_excerpt := strip_tags excerpt in
          Ok (str_take 155 clean_excerpt +:+
              (if (155 <? String.length clean_excerpt)%nat then "..." else ""))
      | _ => Raise TypeError
      end
    else
      Ok ("A blog post by " +:+ author_name +:+ " about "
            +:+ str (get_or item_dict "title" (VStr "research and development")) +:+ ".")
  else if String.eqb page_type "publication" && item_given then
    Ok ("A " +:+ str (get_or item_dict "year" (VStr "recent"))
          +:+ " publication by " +:+ author_name +:+ " et al. in "
          +:+ str (get_or item_dict "venue" (VStr "a leading journal"))
          +:+ ", titled '" +:+ str (get_or item_dict "title" (VStr "")) +:+ "'.")
  else if String.eqb page_type "projects" then
    interests ← top_interests a;
    Ok ("Research projects and open-source contributions by " +:+ author_name
          +:+ " in " +:+ interests +:+ ".")
  else if String.eqb page_type "talks" then
    interests ← top_interests a;
    Ok ("Conference talks and presentations by " +:+ author_name +:+ " on "
          +:+ interests +:+ ".")
  else if String.eqb page_type "news" then
    Ok ("Latest news and updates from " +:+ author_name
          +:+ "'s research and academic activities.")
  else
    Ok (description (site config)).

End Seo.

(** ** zenfolio.py: the item processor *)

Module ZenFolio.
Import Parsers Models Paths.

(** The libraries the processor calls: [markdown.markdown], which may
    raise, and [textwrap.dedent]. *)
Record Libs : Type := {
  markdown : string -> list string -> result string;
  dedent : string -> string
}.

(** The schema methods of the SEO generator, which end in
    [json.dumps]. *)
Record SEOGenerator : Type := {
  generate_scholarly_article_schema : gmap string pyval -> result string;
  generate_software_application_schema : gmap string pyval -> result string
}.

(** The generator object: its configuration, its registry and its
    theme.  [render] is what the theme's [render_component] does with
    a component name it could look up and an item.  That of
    [BaseTheme] always returns a string: the template's output, or the
    HTML comment that reports a missing or failing template.  That of
    [TailwindTheme] returns the template's output, or the empty
    string for a missing template, and lets the exception of a
    failing template out. *)
Record Generator : Type := {
  config : Config;
  parser_registry : ParserRegistry;
  render : pyval -> gmap string pyval -> option SEOGenerator -> result string
}.

Definition path_fields : list string :=
  ["photo"; "image"; "paper"; "code"; "slides"; "video"; "website"; "demo";
   "release_notes"; "documentation"; "tutorial_page"; "materials";
   "project_page"; "github"; "cv"].

(** [ZenFolio._resolve_item_paths], as the new state of [item_dict].
    [_resolve_path] cannot raise on a string, so the handler that
    sets the field to [None] is never entered. *)
Definition _resolve_item_paths (item_dict : gmap string pyval) : gmap string pyval :=
  map_imap
    (fun key value =>
       Some (if bool_decide (key ∈ path_fields) && truthy value
             then match value with
                  | VStr s => VStr (_resolve_path s)
                  | _ => value
                  end
             else value))
    item_dict.

(** The loop over the suitable parsers in [_process_content_field]:
    the first processor that returns wins, one that raises is passed
    over. *)
Fixpoint first_processor (suitable_parsers : list ContentParser)
    (content_type : string) (content : string) (extensions : list string)
    : option string :=
  match suitable_parsers with
  | [] => None
  | parser :: rest =>
      match get_content_processor parser content_type with
      | Some processor =>
          match processor content extensions with
          | Ok html => Some html
          | Raise _ => first_processor rest content_type content extensions
          end
      | None => first_processor rest content_type content extensions
      end
  end.

(** [ZenFolio._process_content_field]; the field name only appears in
    the warnings. *)
Definition _process_content_field (lib : Libs) (self : Generator)
    (content : string) (content_type : pyval) : result string :=
  let extensions := markdown_extensions (site (config self)) in
  suitable_parsers ← get_parsers_for_content_type (parser_registry self) content_type;
  let processed :=
    match content_type with
    | VStr ct => first_processor suitable_parsers ct content extensions
    | _ => None
    end in
  match processed with
  | Some html => Ok html
  | None =>
      try_except
        (markdown lib (strip (dedent lib content)) extensions)
        (fun _ => Ok content)
  end.

(** [v == s] for a string [s]. *)
Definition eq_str (v : pyval) (s : string) : bool :=
  match v with
  | VStr s' => String.eqb s' s
  | _ => false
  end.

Definition markdown_keys : list string := ["content"; "description"; "excerpt"].

(** One turn of the loop over [markdown_keys]. *)
Definition process_markdown_key (lib : Libs) (self : Generator) (item_type : string)
    (content_type : pyval) (skip_content_processing : bool)
    (item_dict : gmap string pyval) (key : string) : result (gmap string pyval) :=
  match get item_dict key with
  | VStr value =>
      if negb (String.eqb value "") then
        if skip_content_processing && String.eqb key "content" then Ok item_dict
        else if String.eqb item_type "service_item" && String.eqb key "description"
        then Ok item_dict
        else
          processed_content ← _process_content_field lib self value content_type;
          Ok (<[key := VStr processed_content]> item_dict)
      else Ok item_dict
  | _ => Ok item_dict
  end.

Fixpoint process_markdown_keys (lib : Libs) (self : Generator) (item_type : string)
    (content_type : pyval) (skip_content_processing : bool)
    (keys : list string) (item_dict : gmap string pyval)
    : result (gmap string pyval) :=
  match keys with
  | [] => Ok item_dict
  | key :: rest =>
      item_dict ← process_markdown_key lib self item_type content_type
                    skip_content_processing item_dict key;
      process_markdown_keys lib self item_type content_type
        skip_content_processing rest item_dict
  end.

(** [self.theme.render_component(name, item=..., seo_generator=...)]:
    the name is looked up in the template table, so it has to be
    hashable; the theme does the rest. *)
Definition render_component (self : Generator) (component_name : pyval)
    (item : gmap string pyval) (seo_generator : option SEOGenerator) : result string :=
  _ ← hash_key component_name;
  render self component_name item seo_generator.

(** The schema step at the end of the loop body. *)
Definition attach_schema (item_type : string) (seo_generator : option SEOGenerator)
    (item_dict : gmap string pyval) : result (gmap string pyval) :=
  let item_dict := <["rendered_schema" := VStr ""]> item_dict in
  match seo_generator with
  | Some seo =>
      if String.eqb item_type "publication_item" then
        schema ← generate_scholarly_article_schema seo item_dict;
        Ok (<["rendered_schema" := VStr schema]> item_dict)
      else if String.eqb item_type "project_item" then
        schema ← generate_software_application_schema seo item_dict;
        Ok (<["rendered_schema" := VStr schema]> item_dict)
      else Ok item_dict
  | None => Ok item_dict
  end.

(** The body of the loop in [_process_items], as the new state of
    the dictionary [item_dict]. *)
Definition process_item (lib : Libs) (self : Generator) (item_type : string)
    (seo_generator : option SEOGenerator) (item_dict : gmap string pyval)
    : result (gmap string pyval) :=
  let item_dict :=
    if has_key item_dict "content" && negb (has_key item_dict "content_raw")
    then <["content_raw" := get item_dict "content"]> item_dict
    else item_dict in
  let item_dict := _resolve_item_paths item_dict in
  let content_type := get_or item_dict "content_type" (VStr item_type) in
  let skip_content_processing :=
    String.eqb item_type "blog_post_item" || eq_str content_type "blog_post_item" in
  item_dict ← process_markdown_keys lib self item_type content_type
                skip_content_processing markdown_keys item_dict;
  let template_type := or_else (get item_dict "template_name") (VStr item_type) in
  let item_dict := <["template_type" := template_type]> item_dict in
  item_dict ←
    (if truthy template_type then
       rendered_html ← render_component self template_type item_dict seo_generator;
       Ok (<["rendered_html" := VStr rendered_html]> item_dict)
     else Ok item_dict);
  attach_schema item_type seo_generator item_dict.

(** Dictionaries are objects: the heap maps each to its current
    state.  An item of the input list is a dictionary (a reference),
    an object with [to_dict] (given by the fields [to_dict] returns),
    or something [dict] converts (given by its pairs). *)
Definition loc : Type := nat.

Inductive item : Type :=
| IDict (l : loc)
| IObj (fields : gmap string pyval)
| IPairs (kvs : list (string * pyval)).

Definition alloc (h : gmap loc (gmap string pyval)) (d : gmap string pyval)
    : gmap loc (gmap string pyval) * loc :=
  let l := fresh (dom h) in (<[l := d]> h, l).

(** The dictionary the loop body works on: the item itself when it
    is a dictionary, a new one otherwise. *)
Definition item_dict_of (h : gmap loc (gmap string pyval)) (it : item)
    : gmap loc (gmap string pyval) * loc :=
  match it with
  | IDict l => (h, l)
  | IObj fields => alloc h fields
  | IPairs kvs => alloc h (list_to_map (reverse kvs))
  end.

(** [ZenFolio._process_items]: the dictionaries are updated in place
    and returned in the order of the items. *)
Fixpoint _process_items (lib : Libs) (self : Generator)
    (h : gmap loc (gmap string pyval)) (items : list item) (item_type : string)
    (seo_generator : option SEOGenerator)
    : result (gmap loc (gmap string pyval) * list loc) :=
  match items with
  | [] => Ok (h, [])
  | it :: rest =>
      let '(h, l) := item_dict_of h it in
      item_dict ← process_item lib self item_type seo_generator (h !!! l);
      r ← _process_items lib self (<[l := item_dict]> h) rest item_type seo_generator;
      Ok (r.1, l :: r.2)
  end.

(** The vocabulary of the statements about the processor.  The keys
    the loop body may write: *)
Definition written_keys : list string :=
path_fields ++ markdown_keys ++
["content_raw"; "template_type"; "rendered_html"; "rendered_schema"].

(** The two fields that select a processor and a template can be
    hashed, as strings can (a missing field reads as [None]). *)
Definition fields_hashable (item_dict : gmap string pyval) : Prop :=
hashable (get item_dict "content_type") /\ hashable (get item_dict "template_name").

(** The theme renders every item, as that of [BaseTheme] does. *)
Definition theme_total (self : Generator) (seo_generator : option SEOGenerator) : Prop :=
forall name d, exists html, render self name d seo_generator = Ok html.

(** The schema methods return on every dictionary. *)
Definition schema_total (seo_generator : option SEOGenerator) : Prop :=
forall seo, seo_generator = Some seo ->
  (forall d, exists schema, generate_scholarly_article_schema seo d = Ok schema) /\
  (forall d, exists schema, generate_software_application_schema seo d = Ok schema).

(** The dictionary an item stands for before it is processed. *)
Definition dict_of (h : gmap loc (gmap string pyval)) (it : item) : gmap string pyval :=
match it with
| IDict l => h !!! l
| IObj fields => fields
| IPairs kvs => list_to_map (reverse kvs)
end.

(** The dictionary after the first two steps of the loop body: the
  raw content stored, the paths resolved. *)
Definition prepared (d : gmap string pyval) : gmap string pyval :=
_resolve_item_paths
  (if has_key d "content" && negb (has_key d "content_raw")
   then <["content_raw" := get d "content"]> d
   else d).

(** The content type and the deferral flag the loop body computes. *)
Definition content_type_of (item_type : string) (d : gmap string pyval) : pyval :=
get_or (prepared d) "content_type" (VStr item_type).

Definition skips_content (item_type : string) (d : gmap string pyval) : bool :=
String.eqb item_type "blog_post_item" ||
eq_str (content_type_of item_type d) "blog_post_item".

(** The loop over the markdown keys hands the field [key] to the
    content processor: it is not a deferred blog post body and not the
    description of a service item. *)
Definition renders (item_type : string) (skip_content_processing : bool)
  (key : string) : bool :=
negb (skip_content_processing && String.eqb key "content") &&
negb (String.eqb item_type "service_item" && String.eqb key "description").

(** A processed item: it carries [template_type], which is its
    [template_name] when that counts as true and the item type
    otherwise, and [rendered_schema], a string that is empty unless a
    generator was supplied and the items are publications or
    projects. *)
Definition processed_shape (item_type : string) (seo_generator : option SEOGenerator)
  (d : gmap string pyval) : Prop :=
d !! "template_type" = Some (or_else (get d "template_name") (VStr item_type)) /\
exists schema,
  d !! "rendered_schema" = Some (VStr schema) /\
  (schema <> "" ->
     exists seo, seo_generator = Some seo /\
       (item_type = "publication_item" \/ item_type = "project_item")).

(** The dictionaries of the list exist. *)
Definition items_exist (h : gmap loc (gmap string pyval)) (items : list item) : Prop :=
forall l, In (IDict l) items -> l ∈ dom h.

(** No dictionary is listed twice. *)
Definition dict_locs (items : list item) : list loc :=
omap (fun it => match it with IDict l => Some l | _ => None end) items.

Definition distinct_records (items : list item) : Prop := NoDup (dict_locs items).

(** The loop body returns on the record, taken alone. *)
Definition processable (lib : Libs) (self : Generator) (item_type : string)
  (seo_generator : option SEOGenerator) (d : gmap string pyval) : Prop :=
exists d', process_item lib self item_type seo_generator d = Ok d'.

(** The shape invariant in the words of the specification: the call
    returns a list of the same length whose entries are the items in
    order, each one of the processed shape. *)
Definition shape_invariant (lib : Libs) (self : Generator) (item_type : string)
  (seo_generator : option SEOGenerator) (h : gmap loc (gmap string pyval))
  (items : list item) : Prop :=
exists h' out,
  _process_items lib self h items item_type seo_generator = Ok (h', out) /\
  length out = length items /\
  (forall i l0 l, items !! i = Some (IDict l0) -> out !! i = Some l -> l = l0) /\
  (forall i l, out !! i = Some l -> processed_shape item_type seo_generator (h' !!! l)).


End ZenFolio.

(** ** zenfolio.py: page assembly *)

Module Pages.
Import Models.

(** [pub.get('highlight', False)], as a condition. *)
Definition is_highlighted (pub : gmap string pyval) : bool :=
  truthy (get_or pub "highlight" (VBool false)).

(** The publications of the homepage, from [_build_home_page]. *)
Definition homepage_pubs (publications : list (gmap string pyval))
    (pub_count : option Z) : list (gmap string pyval) :=
  let highlighted_pubs := List.filter is_highlighted publications in
  let recent_pubs := List.filter (fun pub => negb (is_highlighted pub)) publications in
  match pub_count with
  | None => highlighted_pubs
  | Some pub_count =>
      let homepage_pubs := slice_to highlighted_pubs pub_count in
      if Z.of_nat (length homepage_pubs) <? pub_count
      then homepage_pubs ++
           slice_to recent_pubs (pub_count - Z.of_nat (length homepage_pubs))
      else homepage_pubs
  end.

(** The selection in the words of the specification: the highlighted
    publications cut to the count, then filled up to the count with
    the others; with an unbounded count nothing is cut. *)
Definition selection_as_stated (publications : list (gmap string pyval))
    (pub_count : option Z) : list (gmap string pyval) :=
  let highlighted := List.filter is_highlighted publications in
  let others := List.filter (fun pub => negb (is_highlighted pub)) publications in
  match pub_count with
  | None => highlighted ++ others
  | Some n =>
      take (Z.to_nat n) highlighted ++
      take (Z.to_nat n - length (take (Z.to_nat n) highlighted)) others
  end.

(** The title of the publication section. *)
Definition pub_section_title (publications : list (gmap string pyval)) : string :=
  match List.filter is_highlighted publications with
  | [] => "Recent Publications"
  | _ => "Selected Publications"
  end.

(** The grouping loop of [_build_list_page].  [grouped_items] is a
    dictionary: its keys are compared the way [hash_key] shows them,
    and they stay in the order in which they were first added. *)
Fixpoint add_to_group (k : hkey) (key : pyval) (it : gmap string pyval)
    (grouped_items : list (hkey * (pyval * list (gmap string pyval))))
    : list (hkey * (pyval * list (gmap string pyval))) :=
  match grouped_items with
  | [] => [(k, (key, [it]))]
  | (k', (key', its)) :: rest =>
      if decide (k' = k) then (k', (key', its ++ [it])) :: rest
      else (k', (key', its)) :: add_to_group k key it rest
  end.

Fixpoint group_items (group_by : string) (processed_items : list (gmap string pyval))
    (grouped_items : list (hkey * (pyval * list (gmap string pyval))))
    : result (list (hkey * (pyval * list (gmap string pyval)))) :=
  match processed_items with
  | [] => Ok grouped_items
  | it :: rest =>
      let key := get it group_by in
      if truthy key then
        k ← hash_key key;
        group_items group_by rest (add_to_group k key it grouped_items)
      else group_items group_by rest grouped_items
  end.

(** [a < b] between two keys: numbers with numbers and strings with
    strings. *)
Definition as_strings (keys : list pyval) : option (list string) :=
  mapM (fun v => match v with VStr s => Some s | _ => None end) keys.

Definition as_numbers (keys : list pyval) : option (list Z) :=
  mapM (fun v => match v with
                 | VInt z => Some z
                 | VBool b => Some (if b then 1 else 0)
                 | _ => None
                 end) keys.

(** [sorted(keys, reverse=True)]: a list that mixes strings and
    numbers cannot be ordered. *)
Definition sorted_plain (keys : list pyval) : result (list pyval) :=
  match as_strings keys with
  | Some ss => Ok (VStr <$> sorted_desc String.leb ss)
  | None =>
      match as_numbers keys with
      | Some zs =>
          Ok (snd <$> sorted_desc (fun a b => a.1 <=? b.1) (zip zs keys))
      | None => Raise TypeError
      end
  end.

(** [sorted(keys, key=int, reverse=True)]: [int] is applied to every
    key before anything is compared. *)
Definition sorted_by_int (keys : list pyval) : result (list pyval) :=
  ints ← map_result py_int keys;
  Ok (snd <$> sorted_desc (fun a b => a.1 <=? b.1) (zip ints keys)).

(** The [try] around the numeric sort and its handler. *)
Definition sorted_keys (keys : list pyval) : result (list pyval) :=
  try_except (sorted_by_int keys)
    (fun e =>
       match e with
       | ValueError | TypeError | JSONDecodeError | UnicodeDecodeError =>
           sorted_plain keys
       | _ => Raise e
       end).

(** [page_data['grouped_items']] for a non-empty [group_by]: the
    group names in their final order, each with its items. *)
Definition grouped_page (group_by : string)
    (processed_items : list (gmap string pyval))
    : result (list (pyval * list (gmap string pyval))) :=
  grouped_items ← group_items group_by processed_items [];
  keys ← sorted_keys ((fun g => g.2.1) <$> grouped_items);
  map_result
    (fun key =>
       k ← hash_key key;
       match List.find (fun g => bool_decide (g.1 = k)) grouped_items with
       | Some g => Ok (key, g.2.2)
       | None => Raise KeyError
       end)
    keys.

(** The vocabulary of the statements about groups: the number a key
    stands for under [int], the text of a string key, and the test
    that an item falls into the group named [key]. *)
Definition int_value (key : pyval) : Z :=
match py_int key with
| Ok z => z
| Raise _ => 0
end.

Definition numeric (key : pyval) : Prop := exists z, py_int key = Ok z.

Definition str_value (key : pyval) : string :=
match key with
| VStr s => s
| _ => ""
end.

Definition in_group (group_by : string) (key : pyval) (it : gmap string pyval) : bool :=
match hash_key key with
| Ok k => keyed group_by k it
| Raise _ => false
end.

(** [grouped_items.get(k, [])] *)
Definition group_of (grouped_items : list (hkey * (pyval * list (gmap string pyval))))
  (k : hkey) : list (gmap string pyval) :=
match List.find (fun g => bool_decide (g.1 = k)) grouped_items with
| Some g => g.2.2
| None => []
end.

(** The values under [group_by] that open or join a group. *)
Definition group_keys (group_by : string) (items : list (gmap string pyval))
  : list pyval :=
List.filter truthy ((fun it => get it group_by) <$> items).

(** What the loop maintains after the items [pre]: every group holds
    the items of [pre] with its key, in order; group names are key
    values found in [pre]; no key has two groups. *)
Definition groups_of (group_by : string)
  (acc : list (hkey * (pyval * list (gmap string pyval))))
  (pre : list (gmap string pyval)) : Prop :=
  (forall k, group_of acc k = List.filter (keyed group_by k) pre) /\
  Forall (fun g => hash_key g.2.1 = Ok g.1 /\ In g.2.1 (group_keys group_by pre)) acc /\
  NoDup acc.*1.

End Pages.

(** ** More of Python's string methods *)

Module Strings.

(** [sub in s] *)
Fixpoint contains (sub s : string) : bool :=
  String.prefix sub s ||
  match s with
  | EmptyString => false
  | String _ s' => contains sub s'
  end.

(** [s.replace(old, new)], scanning left to right: [skip] is the
    number of characters of the current occurrence still to drop.
    With an empty [old], [new] goes before every character and at
    the end. *)
Fixpoint replace_from (skip : nat) (old new s : string) : string :=
  match s with
  | EmptyString => EmptyString
  | String c s' =>
      match skip with
      | S k => replace_from k old new s'
      | O =>
          if String.prefix old s
          then new +:+ replace_from (String.length old - 1) old new s'
          else String c (replace_from 0 old new s')
      end
  end.

Fixpoint follow_each (new s : string) : string :=
  match s with
  | EmptyString => EmptyString
  | String c s' => String c (new +:+ follow_each new s')
  end.

Definition replace (old new s : string) : string :=
  if String.eqb old "" then new +:+ follow_each new s
  else replace_from 0 old new s.

(** [s.split(sep)] for a non-empty [sep]: [piece] is the text read
    since the last separator. *)
Fixpoint split_from (skip : nat) (sep piece s : string) : list string :=
  match s with
  | EmptyString => [piece]
  | String c s' =>
      match skip with
      | S k => split_from k sep piece s'
      | O =>
          if String.prefix sep s
          then piece :: split_from (String.length sep - 1) sep "" s'
          else split_from 0 sep (piece +:+ String c "") s'
      end
  end.

Definition split (sep s : string) : list string := split_from 0 sep "" s.

(** [s.split(c, 1)] for a character [c] that occurs in [s]: the text
    before its first occurrence and the text after it. *)
Fixpoint split_first (c : ascii) (s : string) : option (string * string) :=
  match s with
  | EmptyString => None
  | String a s' =>
      if Ascii.eqb a c then Some ("", s')
      else (fun p : string * string => (String a p.1, p.2)) <$> split_first c s'
  end.

(** [s.lstrip(c)] and [s.rstrip(c)] for one character. *)
Fixpoint lstrip_char (c : ascii) (s : string) : string :=
  match s with
  | EmptyString => EmptyString
  | String a s' => if Ascii.eqb a c then lstrip_char c s' else s
  end.

Definition rstrip_char (c : ascii) (s : string) : string :=
  String.rev (lstrip_char c (String.rev s)).

(** The double quote. *)
Definition dq : string := String (ascii_of_nat 34) "".

End Strings.

(** ** parsers/bibtex_parser.py *)

Module Bibtex.
Import Strings Parsers Models.

(** An entry as the BibTeX library hands it over: field names to
    texts, the kind of entry under [ENTRYTYPE]. *)
Definition entry : Type := gmap string string.

(** What [splitname] returns. *)
Record NameParts : Type := {
  first : list string;
  von : list string;
  last : list string;
  jr : list string
}.

(** The calls into the BibTeX library: [splitname] with
    [strict_mode=False], which may raise, and [dumps] on a database
    of one entry. *)
Record BibLib : Type := {
  splitname : string -> result NameParts;
  dumps : entry -> string
}.

(** [BibtexParser.__init__]: the terms to highlight, from nothing, a
    name or a list of names. *)
Definition all_highlight_terms (highlight_author : option (string + list string))
    : list string :=
  match highlight_author with
  | None => []
  | Some (inl term) => if String.eqb term "" then [] else [term]
  | Some (inr terms) => List.filter (fun term => negb (String.eqb term "")) terms
  end.

(** [BibtexParser._format_author_name] *)
Definition _format_author_name (lib : BibLib) (author : string) : string :=
  let author := strip author in
  match splitname lib author with
  | Ok name_parts =>
      match (first name_parts ++ von name_parts ++ last name_parts ++ jr name_parts)%list with
      | [] => author
      | parts => String.concat " " parts
      end
  | Raise _ =>
      match split_first "," author with
      | Some (last_name, first_name) => strip first_name +:+ " " +:+ strip last_name
      | None => author
      end
  end.

(** [BibtexParser._parse_authors] *)
Definition _parse_authors (lib : BibLib) (author_str : string) : list string :=
  if String.eqb author_str "" then []
  else _format_author_name lib <$> split " and " author_str.

(** [BibtexParser._highlight_authors] *)
Definition should_highlight (terms : list string) (author : string) : bool :=
  existsb (fun term => negb (String.eqb term "") && contains (lower term) (lower author))
    terms.

Definition _highlight_authors (terms : list string) (authors : list string) : string :=
  String.concat ", "
    ((fun author =>
        if should_highlight terms author
        then "<span class=" +:+ dq +:+ "highlight" +:+ dq +:+ ">" +:+ author +:+ "</span>"
        else author) <$> authors).

(** [BibtexParser._get_venue] *)
Definition _get_venue (e : entry) : string :=
  let entry_type := lower (default "" (e !! "ENTRYTYPE")) in
  if String.eqb entry_type "article" then default "Journal" (e !! "journal")
  else if bool_decide (entry_type ∈ ["inproceedings"; "conference"]) then
    strip (replace "Proceedings of" "" (default "Conference" (e !! "booktitle")))
  else default "Publication" (e !! "howpublished").

(** One optional link. *)
Definition link (label : string) (url : option string) : list (string * string) :=
  match url with
  | Some u => [(label, u)]
  | None => []
  end.

(** [BibtexParser._extract_links], as pairs of label and URL. *)
Definition _extract_links (e : entry) : list (string * string) :=
  (match e !! "doi" with
  | Some doi => [("Paper", "https://doi.org/" +:+ doi)]
  | None => link "Paper" (e !! "url")
  end ++
  link "PDF" (e !! "pdf") ++
  link "arXiv"
    ((fun arxiv_id =>
        if startswith arxiv_id "http" then arxiv_id
        else "https://arxiv.org/abs/" +:+ arxiv_id) <$> e !! "arxiv") ++
  match e !! "code" with
  | Some code => [("Code", code)]
  | None => link "Code" (e !! "github")
  end ++
  link "Website" (e !! "website") ++
  link "Video" (e !! "video") ++
  link "Slides" (e !! "slides") ++
  link "Poster" (e !! "poster") ++
  link "Demo" (e !! "demo") ++
  match e !! "supplement" with
  | Some supp_url => [("Supplement", supp_url)]
  | None => link "Supplement" (e !! "supplementary")
  end)%list.

Definition link_dict (l : string * string) : pyval :=
  VDict {[ "label" := VStr l.1; "url" := VStr l.2 ]}.

(** [BibtexParser._get_raw_bibtex] *)
Definition website_fields : list string :=
  ["pdf"; "code"; "website"; "video"; "slides"; "poster"; "demo";
   "supplement"; "supplementary"; "image"; "file"; "mendeley-tags";
   "abstract"; "highlight"].

Definition clean_entry (e : gmap string string) : gmap string string :=
  filter (fun kv : string * string => kv.1 ∉ website_fields) e.

Definition _get_raw_bibtex (lib : BibLib) (e : entry) : string :=
  strip (dumps lib (clean_entry e)).

(** [BibtexParser._format_entry]: [None] for an entry without title
    or year; [int] may reject the year. *)
Definition _format_entry (lib : BibLib) (terms : list string) (e : entry)
    : result (option (gmap string pyval)) :=
  match e !! "title", e !! "year" with
  | Some title, Some year_text =>
      let authors := _parse_authors lib (default "" (e !! "author")) in
      let highlighted_authors := _highlight_authors terms authors in
      year ← py_int (VStr year_text);
      Ok (Some
            {[ "title" := VStr (replace "}" "" (replace "{" "" title));
               "year" := VInt year;
               "venue" := VStr (_get_venue e);
               "authors" := str_list authors;
               "highlighted_authors" := VStr highlighted_authors;
               "links" := VList (link_dict <$> _extract_links e);
               "bibtex" := VStr (_get_raw_bibtex lib e);
               "highlight" :=
                 VBool (bool_decide (lower (default "" (e !! "highlight"))
                                       ∈ ["true"; "yes"; "1"])) ]})
  | _, _ => Ok None
  end.

(** The loop of [parse_file] over the entries. *)
Fixpoint format_entries (lib : BibLib) (terms : list string) (entries : list entry)
    : result (list (gmap string pyval)) :=
  match entries with
  | [] => Ok []
  | e :: rest =>
      pub ← _format_entry lib terms e;
      publications ← format_entries lib terms rest;
      Ok (match pub with
          | Some p => p :: publications
          | None => publications
          end)
  end.

(** [x['year']], the sort key: an integer in every formatted
    entry. *)
Definition year_key (pub : gmap string pyval) : Z :=
  match pub !! "year" with
  | Some (VInt year) => year
  | _ => 0
  end.

(** The order of the sort: by year. *)
Definition by_year (a b : gmap string pyval) : bool := year_key a <=? year_key b.

(** [BibtexParser.parse_file]: [exists_] is [file_path.exists()] and
    [load] stands for opening the file and reading its entries. *)
Definition parse_file (lib : BibLib) (terms : list string)
    (exists_ : path -> bool) (load : path -> result (list entry))
    (file_path : path) : result (list (gmap string pyval)) :=
  if negb (exists_ file_path) then Ok []
  else
    entries ← load file_path;
    publications ← format_entries lib terms entries;
    Ok (sorted_desc by_year publications).

End Bibtex.

(** ** content.py: the publications *)

Module Publications.
Import Parsers Models.

(** [Content._safe_parse_publications]: [bib_path] and
    [highlight_author] are the two settings of the publication
    section, which may be missing. *)
Definition _safe_parse_publications (lib : Bibtex.BibLib)
    (exists_ : path -> bool) (load : path -> result (list Bibtex.entry))
    (content_dir : path) (bib_path : option string)
    (highlight_author : option (option (string + list string)))
    : result (list (gmap string pyval)) :=
  try_except
    (bib_path ← getattr bib_path;
     let bibtex_file_path :=
       if startswith bib_path "/" then [bib_path] else join content_dir bib_path in
     if negb (exists_ bibtex_file_path) then Ok []
     else
       highlight_author ← getattr highlight_author;
       Bibtex.parse_file lib (Bibtex.all_highlight_terms highlight_author)
         exists_ load bibtex_file_path)
    (fun _ => Ok []).

End Publications.

(** ** parsers/: the rest of the registry and the default parsers *)

Module DefaultParsers.
Import Parsers.

(** [ParserRegistry.get_supported_extensions] *)
Definition get_supported_extensions (reg : ParserRegistry) : gset string :=
  dom (_extension_map reg).

(** [JupyterParser.get_content_processor]: notebook content is HTML
    already. *)
Definition jupyter_processor (content_type : string)
    : option (string -> list string -> result string) :=
  if String.eqb content_type "notebook" then Some (fun content _ => Ok content)
  else None.

(** What [json.load] returns, as far as [can_parse] looks at it: a
    JSON object with its keys, or another JSON value. *)
Inductive json_value : Type :=
| JObject (keys : list string)
| JOther.

(** [JupyterParser.can_parse]: a file whose extension is not
    [.ipynb] is refused without being opened.  Otherwise
    [notebook_json] stands for opening the file and reading it as
    JSON; a text that is no JSON or no UTF-8 makes the parser refuse
    the file, and every other exception leaves the method: the
    [OSError] of a file that is missing or cannot be opened is not
    handled. *)
Definition jupyter_can_parse (notebook_json : path -> result json_value)
    (file_path : path) : result bool :=
  if negb (String.eqb (lower (suffix file_path)) ".ipynb") then Ok false
  else
    try_except
      (data ← notebook_json file_path;
       Ok (match data with
           | JObject keys => bool_decide ("cells" ∈ keys)
           | JOther => false
           end))
      (fun e =>
         match e with
         | JSONDecodeError | UnicodeDecodeError | KeyError => Ok false
         | _ => Raise e
         end).

Definition bibtex_extensions : list string := [".bib"; ".bibtex"].

(** [BibtexParser.can_parse] *)
Definition bibtex_can_parse (file_path : path) : bool :=
  bool_decide (lower (suffix file_path) ∈ bibtex_extensions).

(** What the three parsers do with files, which is the business of
    the libraries they wrap. *)
Record Files : Type := {
  markdown_file : path -> result pyval;
  markdown_directory : path -> string -> result (list (gmap string pyval));
  notebook_json : path -> result json_value;
  notebook_file : path -> result pyval;
  notebook_directory : path -> string -> result (list (gmap string pyval));
  bibtex_file : path -> result pyval;
  bibtex_directory : path -> string -> result (list (gmap string pyval))
}.

Definition MarkdownParser (dedent : string -> string)
    (markdown : string -> list string -> result string) (fs : Files) : ContentParser :=
  {| pid := 0;
     supported_extensions := markdown_extensions_supported;
     content_types := markdown_content_types;
     can_parse := fun file_path => Ok (markdown_can_parse file_path);
     parse_file := markdown_file fs;
     parse_directory := markdown_directory fs;
     get_content_processor := fun _ => Some (process_markdown dedent markdown) |}.

Definition JupyterParser (fs : Files) : ContentParser :=
  {| pid := 1;
     supported_extensions := [".ipynb"];
     content_types := ["blog_post"; "page"; "notebook"];
     can_parse := jupyter_can_parse (notebook_json fs);
     parse_file := notebook_file fs;
     parse_directory := notebook_directory fs;
     get_content_processor := jupyter_processor |}.

Definition BibtexParser (fs : Files) : ContentParser :=
  {| pid := 2;
     supported_extensions := bibtex_extensions;
     content_types := ["publication"];
     can_parse := fun file_path => Ok (bibtex_can_parse file_path);
     parse_file := bibtex_file fs;
     parse_directory := bibtex_directory fs;
     get_content_processor := fun _ => None |}.

(** parsers/__init__.py: the global registry with the default
    parsers registered. *)
Definition parser_registry (dedent : string -> string)
    (markdown : string -> list string -> result string) (fs : Files) : ParserRegistry :=
  register
    (register
       (register empty_registry (MarkdownParser dedent markdown fs))
       (JupyterParser fs))
    (BibtexParser fs).

End DefaultParsers.

(** ** zenfolio.py: the pages tracked for the sitemap *)

Module Sitemap.

(** The entry [_render_and_write_page] makes for a page; [today] is
    the date of the build. *)
Definition sitemap_entry (filename today : string) : gmap string string :=
  {[ "path" := filename;
     "priority" :=
       (if String.eqb filename "index.html" then "1.0"
        else if bool_decide (filename ∈ ["publications.html"; "projects.html"]) then "0.8"
        else "0.6");
     "changefreq" := (if String.eqb filename "index.html" then "weekly" else "monthly");
     "lastmod" := today ]}.

(** [any(page['path'] == filename for page in self.seo_pages)] *)
Fixpoint any_path (filename : string) (seo_pages : list (gmap string string))
    : result bool :=
  match seo_pages with
  | [] => Ok false
  | page :: rest =>
      match page !! "path" with
      | Some p => if String.eqb p filename then Ok true else any_path filename rest
      | None => Raise KeyError
      end
  end.

(** What a call of [_render_and_write_page] with an SEO generator
    does to [self.seo_pages]. *)
Definition track_page (seo_pages : list (gmap string string)) (filename today : string)
    : result (list (gmap string string)) :=
  known ← any_path filename seo_pages;
  Ok (if (known : bool) then seo_pages else (seo_pages ++ [sitemap_entry filename today])%list).

(** [self.seo_pages] after the pages [calls] have been written, each
    given with the date at the time. *)
Fixpoint track_pages (seo_pages : list (gmap string string))
    (calls : list (string * string)) : result (list (gmap string string)) :=
  match calls with
  | [] => Ok seo_pages
  | (filename, today) :: rest =>
      seo_pages ← track_page seo_pages filename today;
      track_pages seo_pages rest
  end.

(** The path of an entry, and the first date given for a file. *)
Definition path_of (page : gmap string string) : string := default "" (page !! "path").

Definition first_date (calls : list (string * string)) (filename : string) : string :=
  default "" (snd <$> List.find (fun call => String.eqb call.1 filename) calls).

End Sitemap.

(** ** zenfolio.py: academic service *)

Module Service.
Import ZenFolio.

(** [item.category]: an attribute of the typed entities; a
    dictionary or a list of pairs has no such attribute. *)
Definition category_of (it : item) : result pyval :=
  match it with
  | IObj fields =>
      match fields !! "category" with
      | Some category => Ok category
      | None => Raise AttributeError
      end
  | IDict _ | IPairs _ => Raise AttributeError
  end.

(** [[item for item in items if keep(item.category)]] *)
Fixpoint select (keep : pyval -> bool) (items : list item) : result (list item) :=
  match items with
  | [] => Ok []
  | it :: rest =>
      category ← category_of it;
      kept ← select keep rest;
      Ok (if keep category then it :: kept else kept)
  end.

Definition is_leadership (category : pyval) : bool := eq_str category "leadership".

(** The title of the group of a review item; [title_case] is the
    built-in [str.title], which only a string has. *)
Definition category_title (title_case : string -> string) (item_dict : gmap string pyval)
    : result string :=
  match get_or item_dict "category" (VStr "Reviewer") with
  | VStr category =>
      Ok (if String.eqb category "conference" then "Conference" else title_case category)
  | _ => Raise AttributeError
  end.

(** [review_groups] is a dictionary from titles to lists, kept in
    the order in which the titles came up. *)
Fixpoint add_review (title : string) (l : loc) (review_groups : list (string * list loc))
    : list (string * list loc) :=
  match review_groups with
  | [] => [(title, [l])]
  | (t, ls) :: rest =>
      if String.eqb t title then (t, (ls ++ [l])%list) :: rest
      else (t, ls) :: add_review title l rest
  end.

Fixpoint group_reviews (title_case : string -> string)
    (h : gmap loc (gmap string pyval)) (review_items : list loc)
    (review_groups : list (string * list loc)) : result (list (string * list loc)) :=
  match review_items with
  | [] => Ok review_groups
  | l :: rest =>
      title ← category_title title_case (h !!! l);
      group_reviews title_case h rest (add_review title l review_groups)
  end.

(** [ZenFolio._process_service_items]: the heap after the call, the
    leadership items and the review groups. *)
Definition _process_service_items (title_case : string -> string) (lib : Libs)
    (self : Generator) (h : gmap loc (gmap string pyval)) (items : list item)
    (seo_generator : option SEOGenerator)
    : result (gmap loc (gmap string pyval) * (list loc * list (string * list loc))) :=
  leadership ← select is_leadership items;
  r1 ← _process_items lib self h leadership "service_item" seo_generator;
  others ← select (fun category => negb (is_leadership category)) items;
  r2 ← _process_items lib self r1.1 others "service_item" seo_generator;
  review_groups ← group_reviews title_case r2.1 r2.2 [];
  Ok (r2.1, (r1.2, review_groups)).

(** The vocabulary of the statements about service items: the
    items a comprehension keeps, and what the grouping loop
    maintains, that the groups have distinct titles, hold the items
    seen so far, and each only items of its title. *)
Definition selected (keep : pyval -> bool) (it : item) : bool :=
match category_of it with
| Ok category => keep category
| Raise _ => false
end.

Definition review_groups_ok (title_case : string -> string)
  (h : gmap loc (gmap string pyval))
  (groups : list (string * list loc)) (done : list loc) : Prop :=
NoDup groups.*1 /\
Permutation (concat groups.*2) done /\
Forall (fun g => g.2 <> [] /\
          Forall (fun l => category_title title_case (h !!! l) = Ok g.1) g.2) groups.

End Service.

(** ** utils.py and themes/base_theme.py: URLs *)

Module Urls.
Import Strings.

(** The library calls of [build_url] and [_build_relative_url]:
    [urllib.parse.urljoin], and [str(Path(a) / b)]. *)
Record UrlLib : Type := {
  urljoin : string -> string -> string;
  path_join : string -> string -> string
}.

Definition backslash : string := String (ascii_of_nat 92) "".

(** [utils.build_url] *)
Definition build_url (lib : UrlLib) (base_url path : string) : string :=
  let clean_path := lstrip_char "/" path in
  if startswith_any base_url ["http://"; "https://"] then
    urljoin lib (rstrip_char "/" base_url +:+ "/") clean_path
  else if String.eqb base_url "" || bool_decide (base_url ∈ [""; "./"]) then
    clean_path
  else
    replace backslash "/" (path_join lib base_url clean_path).

(** ['../' * depth] *)
Fixpoint repeat_up (depth : nat) : string :=
  match depth with
  | O => ""
  | S d => "../" +:+ repeat_up d
  end.

(** [BaseTheme._build_relative_url] *)
Definition _build_relative_url (lib : UrlLib) (base_url : string) (depth : nat) : string :=
  if startswith_any base_url ["http://"; "https://"] then base_url
  else if String.eqb base_url "" || bool_decide (base_url ∈ [""; "./"]) then
    repeat_up depth
  else
    replace backslash "/" (path_join lib (repeat_up depth) base_url).

End Urls.

(** ** zenfolio.py: static placeholders and the blog post pages *)

Module BlogPages.
Import Strings Urls ZenFolio.

(** The characters up to the next double quote, and what follows
    them. *)
Fixpoint until_quote (s : string) : string * string :=
  match s with
  | EmptyString => (EmptyString, EmptyString)
  | String c s' =>
      if Ascii.eqb c (ascii_of_nat 34) then (EmptyString, s)
      else let r := until_quote s' in (String c r.1, r.2)
  end.

(** The pattern of the image sources tried at the start of [s]:
    [src=], a double quote, one or more characters other than a
    double quote, and a double quote.  The result is the group
    between the quotes, when the pattern matches. *)
Definition src_match (s : string) : option string :=
  let opening := "src=" +:+ dq in
  if String.prefix opening s then
    let r := until_quote (String.substring (String.length opening)
                            (String.length s - String.length opening) s) in
    match r.1, r.2 with
    | String _ _, String _ _ => Some r.1
    | _, _ => None
    end
  else None.

(** [re.sub(pattern, f, s)] for that pattern, scanning left to
    right: [skip] is the number of characters of the current match
    still to pass over. *)
Fixpoint sub_src (f : string -> string) (skip : nat) (s : string) : string :=
  match s with
  | EmptyString => EmptyString
  | String c s' =>
      match skip with
      | S k => sub_src f k s'
      | O =>
          match src_match s with
          | Some current_src =>
              f current_src +:+ sub_src f (String.length current_src + 5) s'
          | None => String c (sub_src f 0 s')
          end
      end
  end.

(** [replace_relative_images], from the group to the replacement. *)
Definition replace_relative_images (lib : UrlLib) (base_url current_src : string)
    : string :=
  if negb (startswith_any current_src
             ["http://"; "https://"; "//"; "../"; "data:"; "static/"])
     && startswith current_src "images/"
  then "src=" +:+ dq +:+ build_url lib base_url ("static/" +:+ current_src) +:+ dq
  else "src=" +:+ dq +:+ current_src +:+ dq.

(** [ZenFolio._process_static_placeholders] *)
Definition _process_static_placeholders (lib : UrlLib) (content base_url : string)
    : string :=
  let content :=
    if contains "{static}" content
    then replace "{static}" (build_url lib base_url "static") content
    else content in
  sub_src (replace_relative_images lib base_url) 0 content.

(** [post['content']] after the two assignments in the loop of
    [_build_blog_post_pages].  The processors and the placeholder
    pass work on text: a [content_raw] that is no text ends in a
    [TypeError]. *)
Definition blog_post_content (lib : Libs) (urls : UrlLib) (self : Generator)
    (base_url : string) (post : gmap string pyval) : result string :=
  let content_type := get_or post "content_type" (VStr "blog_post") in
  match post !! "content_raw" with
  | Some (VStr content_raw) =>
      content ← _process_content_field lib self content_raw content_type;
      let nested_base_url := _build_relative_url urls base_url 1 in
      Ok (_process_static_placeholders urls content nested_base_url)
  | Some _ => Raise TypeError
  | None => Raise KeyError
  end.

End BlogPages.

(** ** Sample data *)

Module Samples.
Import Parsers Models.

Definition pub (title : string) (year : Z) (highlight : bool) : gmap string pyval :=
  {[ "title" := VStr title; "year" := VInt year; "highlight" := VBool highlight ]}.

(** Five publications, newest first, the second and the fourth
    highlighted. *)
Definition five_pubs : list (gmap string pyval) :=
  [ pub "Tensor methods" 2024 false;
    pub "Factorized networks" 2023 true;
    pub "Robust regression" 2022 false;
    pub "Facial affect" 2021 true;
    pub "Deep priors" 2020 false ].

(** Three publications whose years are strings, and three projects
    grouped by a category. *)
Definition dated (title year : string) : gmap string pyval :=
{[ "title" := VStr title; "year" := VStr year ]}.

Definition year_items : list (gmap string pyval) :=
[ dated "Robust regression" "2019";
  dated "Tensor methods" "2023";
  dated "Facial affect" "2021";
  dated "Factorized networks" "2023" ].

Definition tagged (title category : string) : gmap string pyval :=
{[ "title" := VStr title; "category" := VStr category ]}.

Definition category_items : list (gmap string pyval) :=
[ tagged "TensorLy" "library"; tagged "ZenCFG" "tooling"; tagged "Notes" "library" ].

(** A configuration and a blog post. *)
Definition sample_author : AuthorConfig :=
{| author_name := Some "Ada Lovelace";
   author_title := Some "Research Scientist";
   author_affiliation := Some "Analytical Engines";
   author_interests := Some ["Tensor methods"; "Deep learning"; "Computer vision"; "Robotics"] |}.

Definition sample_config : Config :=
{| author := Some sample_author;
   site := {| description := "Personal website of Ada Lovelace";
              markdown_extensions := ["fenced_code"; "tables"];
              homepage_publications_count := Some 3;
              homepage_news_count := Some 3 |} |}.

Definition sample_post : gmap string pyval :=
{[ "title" := VStr "Tensor methods";
   "slug" := VStr "tensor-methods";
   "excerpt" := VStr "<p>Tensor <b>methods</b> for deep learning.</p>";
   "content" := VStr "# Tensor methods";
   "content_raw" := VStr "# Tensor methods";
   "content_type" := VStr "markdown";
   "tags" := VList [VStr "tensors"];
   "template_name" := VStr "blog_post_item" ]}.

(** Two parsers: the markdown parser over a content directory that
    holds no [index.md] and no posts, and a parser that declares
    [.ipynb] but accepts by looking at the file, here every file called
    [notebook.txt]. *)
Definition md_parser : ContentParser :=
{| pid := 0;
   supported_extensions := markdown_extensions_supported;
   content_types := markdown_content_types;
   can_parse := fun p => Ok (markdown_can_parse p);
   parse_file := markdown_parse_file (fun _ => false) (fun _ => Raise OtherError);
   parse_directory := fun _ _ => Ok [];
   get_content_processor :=
     fun _ => Some (process_markdown (fun s => s) (fun s _ => Ok ("<p>" +:+ s +:+ "</p>"))) |}.

Definition sniffing_parser : ContentParser :=
{| pid := 1;
   supported_extensions := [".ipynb"];
   content_types := ["blog_post"; "page"; "notebook"];
   can_parse := fun p => Ok (String.eqb (name p) "notebook.txt");
   parse_file := fun _ => Ok (VDict ∅);
   parse_directory := fun _ _ => Ok [];
   get_content_processor := fun _ => None |}.

Definition sample_registry : ParserRegistry :=
registry_of [md_parser; sniffing_parser; md_parser].

(** Entities that accept every keyword. *)
Definition lenient : Entities :=
{| Bio_new := fun kw => Ok kw; BlogPost_new := fun kw => Ok kw |}.

(** Two blog sources that both produce a post with the slug [a]; the
    first also produces a post whose title is a number, the second a
    post without a slug. *)
Definition raw (metadata : gmap string pyval) (content : string) : gmap string pyval :=
{[ "metadata" := VDict metadata; "content" := VStr content ]}.

Definition markdown_posts : list (gmap string pyval) :=
[ raw {[ "slug" := VStr "a"; "title" := VStr "From markdown" ]} "Hello";
  raw {[ "slug" := VStr "b"; "title" := VInt 5 ]} "Numbers" ].

Definition notebook_posts : list (gmap string pyval) :=
[ raw {[ "slug" := VStr "a"; "title" := VStr "From the notebook" ]} "<div>Hello</div>";
  raw {[ "title" := VStr "No slug" ]} "Lost";
  raw {[ "slug" := VStr "c"; "title" := VStr "Third" ]} "More" ].

Definition blog_source (id : nat) (posts : list (gmap string pyval)) : ContentParser :=
{| pid := id;
   supported_extensions := [];
   content_types := ["blog_post"];
   can_parse := fun _ => Ok false;
   parse_file := fun _ => Ok (VDict ∅);
   parse_directory := fun _ _ => Ok posts;
   get_content_processor := fun _ => None |}.

Definition blog_registry : ParserRegistry :=
registry_of [blog_source 2 markdown_posts; blog_source 3 notebook_posts].

(** Entities that insist on a title that is a string. *)
Definition strict : Entities :=
{| Bio_new := fun kw => Ok kw;
   BlogPost_new := fun kw =>
     match kw !! "title" with
     | Some (VStr _) | None => Ok kw
     | Some _ => Raise ValueError
     end |}.

(** A generator: a theme that shows the title and the image of an
    item, a stand-in for the markdown library that wraps its input in
    a paragraph, and schema methods that return a fixed text. *)
Definition sample_libs : ZenFolio.Libs :=
{| ZenFolio.markdown := fun s _ => Ok ("<p>" +:+ s +:+ "</p>");
   ZenFolio.dedent := fun s => s |}.

Definition sample_seo : ZenFolio.SEOGenerator :=
{| ZenFolio.generate_scholarly_article_schema := fun _ => Ok "{'@type': 'ScholarlyArticle'}";
   ZenFolio.generate_software_application_schema :=
     fun _ => Ok "{'@type': 'SoftwareApplication'}" |}.

Definition sample_site : ZenFolio.Generator :=
{| ZenFolio.config := sample_config;
   ZenFolio.parser_registry := sample_registry;
   ZenFolio.render := fun _ it _ =>
     Ok ("<article><h3>" +:+ Pages.str_value (get it "title") +:+ "</h3><img src='"
           +:+ Pages.str_value (get it "image") +:+ "'></article>") |}.

(** A project kept in a folder called [static] inside the static
    directory, as a dictionary on the heap, and a news entry as a
    typed entity. *)
Definition sample_project : gmap string pyval :=
{[ "title" := VStr "TensorLy";
   "image" := VStr "static/static/logo.png";
   "github" := VStr "https://github.com/tensorly/tensorly" ]}.

Definition sample_heap : gmap ZenFolio.loc (gmap string pyval) :=
{[ 0%nat := sample_project ]}.

Definition sample_news : gmap string pyval :=
{[ "date" := VStr "2024-05-01";
   "content" := VStr "New release";
   "highlight" := VBool false;
   "template_name" := VStr "news_item" ]}.

(** A service entry, as the dictionary of its fields. *)
Definition sample_service : gmap string pyval :=
{[ "description" := VStr "Area chair, **NeurIPS**";
   "date" := VStr "2024";
   "category" := VStr "leadership" ]}.

(** A blog source whose directory scan raises, and one that lists a
    post with a list as its slug. *)
Definition failing_source (id : nat) : ContentParser :=
{| pid := id;
   supported_extensions := [];
   content_types := ["blog_post"];
   can_parse := fun _ => Ok false;
   parse_file := fun _ => Ok (VDict ∅);
   parse_directory := fun _ _ => Raise OtherError;
   get_content_processor := fun _ => None |}.

Definition list_slug_posts : list (gmap string pyval) :=
[ raw {[ "slug" := VStr "a"; "title" := VStr "First" ]} "Hello";
  raw {[ "slug" := VList [VStr "b"]; "title" := VStr "Second" ]} "World" ].

(** A notebook as the notebook parser lists it: the content type is
    in the metadata. *)
Definition notebook_post : gmap string pyval :=
raw {[ "slug" := VStr "demo"; "title" := VStr "Demo"; "content_type" := VStr "notebook" ]}
    "<div>cells</div>".

(** A markdown parser over a content directory whose [index.md] has
    frontmatter with a tagline and interests of its own. *)
Definition index_parser : ContentParser :=
{| pid := 4;
   supported_extensions := markdown_extensions_supported;
   content_types := markdown_content_types;
   can_parse := fun p => Ok (markdown_can_parse p);
   parse_file :=
     markdown_parse_file (fun _ => true)
       (fun _ => Ok ({[ "tagline" := VStr "Tensors everywhere";
                        "interests" := VList [VStr "Gardening"] ]},
                     "I study tensor methods."));
   parse_directory := fun _ _ => Ok [];
   get_content_processor := fun _ => None |}.

(** A BibTeX file of five entries, read by a library whose
    [splitname] fails on every name, so that names are taken apart
    at the comma. *)
Definition sample_bib : Bibtex.BibLib :=
{| Bibtex.splitname := fun _ => Raise OtherError;
   Bibtex.dumps := fun e => "@article{" +:+ default "" (e !! "ID") +:+ "}" |}.

Definition bib_entry (id title year : string) : Bibtex.entry :=
{[ "ENTRYTYPE" := "article"; "ID" := id; "title" := title; "year" := year;
   "author" := "Lovelace, Ada and Babbage, Charles" ]}.

Definition sample_entries : list Bibtex.entry :=
[ bib_entry "regression" "Robust regression" "2019";
  <["highlight" := "Yes"]> (bib_entry "tensors" "{T}ensor methods" "2023");
  bib_entry "affect" "Facial affect" "2021";
  <["pdf" := "papers/networks.pdf"]> (bib_entry "networks" "Factorized networks" "2023");
  bib_entry "notes" "Undated notes" "0" ].

Definition sample_bib_file (file_path : path) : result (list Bibtex.entry) :=
Ok sample_entries.

(** The generator with the default parsers. *)
Definition sample_files : DefaultParsers.Files :=
{| DefaultParsers.markdown_file := fun _ => Ok (VDict ∅);
   DefaultParsers.markdown_directory := fun _ _ => Ok [];
   DefaultParsers.notebook_json :=
     fun _ => Ok (DefaultParsers.JObject ["cells"; "metadata"; "nbformat"]);
   DefaultParsers.notebook_file := fun _ => Ok (VDict ∅);
   DefaultParsers.notebook_directory := fun _ _ => Ok [];
   DefaultParsers.bibtex_file := fun _ => Ok (VList []);
   DefaultParsers.bibtex_directory := fun _ _ => Ok [] |}.

Definition default_site : ZenFolio.Generator :=
{| ZenFolio.config := sample_config;
   ZenFolio.parser_registry :=
     DefaultParsers.parser_registry (ZenFolio.dedent sample_libs)
       (ZenFolio.markdown sample_libs) sample_files;
   ZenFolio.render := fun _ _ _ => Ok "" |}.

(** Three service entries, and a stand-in for [str.title] that puts
    the first letter of a lower-case word in upper case. *)
Definition service_entry (description category : string) : ZenFolio.item :=
ZenFolio.IObj {[ "description" := VStr description; "date" := VStr "2024";
                 "category" := VStr category ]}.

Definition sample_services : list ZenFolio.item :=
[ service_entry "Area chair, NeurIPS" "leadership";
  service_entry "Reviewer, ICML" "conference";
  service_entry "Reviewer, JMLR" "journal" ].

Definition capitalize (s : string) : string :=
match s with
| EmptyString => EmptyString
| String c rest =>
    let n := nat_of_ascii c in
    String (if ((97 <=? n) && (n <=? 122))%nat then ascii_of_nat (n - 32) else c) rest
end.

(** Two publications, neither highlighted. *)
Definition two_plain : list (gmap string pyval) :=
[ pub "Tensor methods" 2024 false; pub "Robust regression" 2022 false ].

(** A parser that declares no extension and accepts every file, and
    one that declares [.MD] in capitals and accepts every file. *)
Definition greedy_parser : ContentParser :=
{| pid := 7;
   supported_extensions := [];
   content_types := ["page"];
   can_parse := fun _ => Ok true;
   parse_file := fun _ => Ok (VDict ∅);
   parse_directory := fun _ _ => Ok [];
   get_content_processor := fun _ => None |}.

Definition capitals_parser : ContentParser :=
{| pid := 8;
   supported_extensions := [".MD"];
   content_types := ["page"];
   can_parse := fun _ => Ok true;
   parse_file := fun _ => Ok (VDict ∅);
   parse_directory := fun _ _ => Ok [];
   get_content_processor := fun _ => None |}.

(** A content directory without notebooks: opening one fails. *)
Definition no_notebooks : DefaultParsers.Files :=
{| DefaultParsers.markdown_file := fun _ => Ok (VDict ∅);
   DefaultParsers.markdown_directory := fun _ _ => Ok [];
   DefaultParsers.notebook_json := fun _ => Raise FileNotFoundError;
   DefaultParsers.notebook_file := fun _ => Ok (VDict ∅);
   DefaultParsers.notebook_directory := fun _ _ => Ok [];
   DefaultParsers.bibtex_file := fun _ => Ok (VList []);
   DefaultParsers.bibtex_directory := fun _ _ => Ok [] |}.

Definition capitals_registry : ParserRegistry :=
registry_of [greedy_parser; capitals_parser].

Definition no_notebooks_registry : ParserRegistry :=
DefaultParsers.parser_registry (fun s => s) (fun s _ => Ok s) no_notebooks.

(** A blog source that lists a post with a list as its slug. *)
Definition list_slug_registry : ParserRegistry :=
registry_of [blog_source 5 list_slug_posts].

(** An item whose frontmatter gives a list as [template_name]. *)
Definition list_template : gmap string pyval :=
{[ "title" := VStr "Workshop"; "template_name" := VList [VStr "card"] ]}.

(** A stand-in for the URL libraries that joins by writing one text
    after the other. *)
Definition sample_urls : Urls.UrlLib :=
{| Urls.urljoin := fun base url => base +:+ url;
   Urls.path_join := fun base child => base +:+ child |}.
End Samples.

(** * Part II: properties *)

Import Parsers Models.

(** ** Strings *)

Section StringFacts.

Lemma append_cons (a : ascii) (s t : string) :
  String a s +:+ t = String a (s +:+ t).
Proof. reflexivity. Qed.

Lemma append_nil_l (t : string) : "" +:+ t = t.
Proof. reflexivity. Qed.

Lemma length_append (s t : string) :
  String.length (s +:+ t) = (String.length s + String.length t)%nat.
Proof.
  induction s as [|a s IH]; [reflexivity|].
  rewrite append_cons. simpl. now rewrite IH.
Qed.

Lemma startswith_append (p r : string) : startswith (p +:+ r) p = true.
Proof.
  unfold startswith. induction p as [|a p IH]; simpl.
  - now destruct r.
  - destruct (ascii_dec a a); [exact IH | congruence].
Qed.

Lemma startswith_inv (s p : string) :
  startswith s p = true -> exists r, s = p +:+ r.
Proof.
  unfold startswith. revert s. induction p as [|a p IH]; intros s H.
  - now exists s.
  - destruct s as [|b s]; simpl in H; [discriminate|].
    destruct (ascii_dec a b) as [->|]; [|discriminate].
    destruct (IH _ H) as [r ->]. now exists r.
Qed.

Lemma substring_all (s : string) : String.substring 0 (String.length s) s = s.
Proof. induction s as [|a s IH]; simpl; [reflexivity | now rewrite IH]. Qed.

Lemma substring_skip (p r : string) :
  String.substring (String.length p) (String.length r) (p +:+ r) = r.
Proof.
  induction p as [|a p IH]; simpl.
  - apply substring_all.
  - exact IH.
Qed.

Lemma removeprefix_append (p r : string) : removeprefix (p +:+ r) p = r.
Proof.
  unfold removeprefix. rewrite startswith_append, length_append.
  replace (String.length p + String.length r - String.length p)%nat
    with (String.length r) by lia.
  apply substring_skip.
Qed.

Lemma removeprefix_other (s p : string) :
  startswith s p = false -> removeprefix s p = s.
Proof. unfold removeprefix. now intros ->. Qed.

End StringFacts.

(** ** Path resolution *)

Section PathResolution.
Import Paths.

Lemma is_external_url_iff (path : string) :
  Utils.is_external_url path = true <->
  exists scheme rest,
    In scheme ["http://"; "https://"; "mailto:"; "tel:"] /\ path = scheme +:+ rest.
Proof.
  unfold Utils.is_external_url, startswith_any. rewrite existsb_exists. split.
  - intros (p & Hin & Hp). apply startswith_inv in Hp as [r ->]. eauto.
  - intros (p & r & Hin & ->). exists p. split; [exact Hin | apply startswith_append].
Qed.

(** C7. [_resolve_path] returns an external URL (one that starts
    with [http://], [https://], [mailto:] or [tel:]) unchanged; from a
    local path it removes a leading [static/] and returns what
    follows; a local path without that prefix is returned unchanged.
    So [static/img.png] and [img.png] both give [img.png], and
    [https://x.com/y] is kept. *)
Theorem resolve_path_spec (path : string) :
  (Utils.is_external_url path = true -> _resolve_path path = path) /\
  (Utils.is_external_url path = false ->
     forall rest, path = "static/" +:+ rest -> _resolve_path path = rest) /\
  (Utils.is_external_url path = false -> startswith path "static/" = false ->
     _resolve_path path = path) /\
  _resolve_path "https://x.com/y" = "https://x.com/y" /\
  _resolve_path "static/img.png" = "img.png" /\
  _resolve_path "img.png" = "img.png".
Proof.
  unfold _resolve_path. repeat split.
  - now intros ->.
  - intros -> rest ->. apply removeprefix_append.
  - intros -> H. now apply removeprefix_other.
Qed.

Lemma resolve_path_spec_witness :
  Utils.is_external_url "mailto:a@b.org" = true /\
  _resolve_path "mailto:a@b.org" = "mailto:a@b.org" /\
  Utils.is_external_url "static/cv.pdf" = false /\
  _resolve_path "static/cv.pdf" = "cv.pdf" /\
  startswith "papers/p.pdf" "static/" = false /\
  _resolve_path "papers/p.pdf" = "papers/p.pdf".
Proof.
  destruct (resolve_path_spec "mailto:a@b.org") as (H1 & _).
  destruct (resolve_path_spec "static/cv.pdf") as (_ & H2 & _).
  destruct (resolve_path_spec "papers/p.pdf") as (_ & _ & H3 & _).
  split; [reflexivity|]. split; [apply H1; reflexivity|].
  split; [reflexivity|]. split; [apply H2; reflexivity|].
  split; [reflexivity|]. apply H3; reflexivity.
Defined.

End PathResolution.

(** ** Homepage publications *)

Section HomepageSelection.
Import Pages.

Lemma slice_to_nonneg {A} (l : list A) (n : Z) :
  0 <= n -> slice_to l n = take (Z.to_nat n) l.
Proof. intros Hn. unfold slice_to. destruct (Z.leb_spec 0 n); [reflexivity | lia]. Qed.

Lemma slice_to_negative {A} (l : list A) (n : Z) :
  n < 0 -> slice_to l n = take (length l - Z.to_nat (- n)) l.
Proof.
  intros Hn. unfold slice_to. destruct (Z.leb_spec 0 n); [lia|]. f_equal. lia.
Qed.

(** C1, as the code has it.  For a count [n] that is not negative
    the homepage shows the highlighted publications, in order, cut to
    [n], followed by as many of the other publications, in order, as
    are needed to reach [n]: the first [n] of the highlighted ones
    followed by the others.  A negative count cuts the last [-n]
    highlighted publications off, as a slice does, and adds none of
    the others.  With the count set to [None] the homepage shows every
    highlighted publication, uncut, and none of the others: [None] is
    not an unbounded count, under which the others would follow, and
    the two agree only when every publication is highlighted. *)
Theorem homepage_pubs_spec (publications : list (gmap string pyval)) :
  let highlighted := List.filter is_highlighted publications in
  let others := List.filter (fun pub => negb (is_highlighted pub)) publications in
  (forall n, 0 <= n ->
     homepage_pubs publications (Some n) = selection_as_stated publications (Some n) /\
     homepage_pubs publications (Some n) = take (Z.to_nat n) (highlighted ++ others) /\
     Z.of_nat (length (homepage_pubs publications (Some n))) <= n) /\
  (forall n, n < 0 ->
     homepage_pubs publications (Some n) =
       take (length highlighted - Z.to_nat (- n)) highlighted) /\
  homepage_pubs publications None = highlighted /\
  (homepage_pubs publications None = selection_as_stated publications None <->
   others = []).
Proof.
  intros highlighted others.
  split; [|split; [|split; [reflexivity|]]].
  - intros n Hn.
    assert (E : homepage_pubs publications (Some n) =
                take (Z.to_nat n) highlighted ++
                take (Z.to_nat n - length (take (Z.to_nat n) highlighted)) others).
    { unfold homepage_pubs. fold highlighted. fold others.
      rewrite (slice_to_nonneg highlighted n Hn).
      destruct (Z.ltb_spec (Z.of_nat (length (take (Z.to_nat n) highlighted))) n)
        as [Hlt|Hge].
      - rewrite slice_to_nonneg by lia. do 2 f_equal. lia.
      - replace (Z.to_nat n - length (take (Z.to_nat n) highlighted))%nat
          with 0%nat by lia.
        now rewrite take_0, app_nil_r. }
    split; [exact E|]. split.
    + rewrite E, take_app. do 2 f_equal. rewrite length_take. lia.
    + rewrite E, length_app, !length_take. lia.
  - intros n Hn. unfold homepage_pubs. fold highlighted.
    rewrite (slice_to_negative highlighted n Hn).
    destruct (Z.ltb_spec (Z.of_nat (length (take (length highlighted - Z.to_nat (- n))
                                               highlighted))) n) as [Hlt|_];
      [lia | reflexivity].
  - unfold homepage_pubs, selection_as_stated. fold highlighted. fold others. split.
    + intros E. apply (f_equal length) in E. rewrite length_app in E.
      destruct others; [reflexivity | cbn in E; lia].
    + intros ->. now rewrite app_nil_r.
Qed.

Lemma homepage_pubs_spec_witness :
  homepage_pubs Samples.five_pubs (Some 3) =
    [ Samples.pub "Factorized networks" 2023 true;
      Samples.pub "Facial affect" 2021 true;
      Samples.pub "Tensor methods" 2024 false ] /\
  homepage_pubs Samples.five_pubs None =
    [ Samples.pub "Factorized networks" 2023 true;
      Samples.pub "Facial affect" 2021 true ].
Proof.
  destruct (homepage_pubs_spec Samples.five_pubs) as (Hcount & _ & Hnone & _).
  destruct (Hcount 3 ltac:(lia)) as (_ & -> & _). rewrite Hnone.
  split; vm_compute; reflexivity.
Defined.

(** C1, as it is stated: with an unbounded count the selection would
    be the highlighted publications followed by all the others.  Of
    two publications that are not highlighted the homepage shows
    none when the count is [None]. *)
Lemma homepage_pubs_not_unbounded :
  homepage_pubs Samples.two_plain None = [] /\
  selection_as_stated Samples.two_plain None = Samples.two_plain /\
  homepage_pubs Samples.two_plain None <> selection_as_stated Samples.two_plain None.
Proof.
  split; [vm_compute; reflexivity|]. split; [vm_compute; reflexivity|].
  vm_compute. discriminate.
Qed.

End HomepageSelection.

(** ** The parser registry *)

Section Registry.

Lemma parser_in_app (p : ContentParser) (l k : list ContentParser) :
  parser_in p (l ++ k) = parser_in p l || parser_in p k.
Proof. apply existsb_app. Qed.

Lemma parser_in_self (p : ContentParser) (l : list ContentParser) :
  parser_in p (l ++ [p]) = true.
Proof.
  rewrite parser_in_app. unfold parser_in at 2. simpl.
  rewrite Nat.eqb_refl. now rewrite orb_true_r.
Qed.

Lemma parser_in_filter (p : ContentParser) (f : ContentParser -> bool)
    (l : list ContentParser) :
  parser_in p l = false -> parser_in p (List.filter f l) = false.
Proof.
  unfold parser_in. induction l as [|q l IH]; simpl; [reflexivity|].
  intros [Hq Hl]%orb_false_elim. destruct (f q); simpl; [rewrite Hq|]; auto.
Qed.

Lemma add_extension_entry (p : ContentParser) (m : gmap string (list ContentParser))
    (ext e : string) :
  entry (add_extension p m ext) e =
    if decide (e = ext)
    then (if parser_in p (entry m ext) then entry m ext else entry m ext ++ [p])
    else entry m e.
Proof.
  unfold add_extension, entry.
  set (m1 := if bool_decide (is_Some (m !! ext)) then m else <[ext:=[]]> m).
  assert (H1 : forall x, default [] (m1 !! x) = default [] (m !! x)).
  { intros x. subst m1. case_bool_decide as Hs; [reflexivity|].
    destruct (decide (x = ext)) as [->|Hne].
    - rewrite lookup_insert_eq. destruct (m !! ext) eqn:E; [|reflexivity].
      exfalso. apply Hs. eauto.
    - now rewrite lookup_insert_ne. }
  rewrite (H1 ext).
  destruct (parser_in p (default [] (m !! ext))) eqn:Hin.
  - rewrite H1. destruct (decide (e = ext)) as [->|]; reflexivity.
  - destruct (decide (e = ext)) as [->|Hne].
    + now rewrite lookup_insert_eq.
    + rewrite lookup_insert_ne by congruence. apply H1.
Qed.

Lemma fold_add_extension_present (p : ContentParser) (exts : list string)
    (m : gmap string (list ContentParser)) (e : string) :
  parser_in p (entry m e) = true ->
  entry (foldl (add_extension p) m exts) e = entry m e.
Proof.
  revert m. induction exts as [|x exts IH]; intros m Hin; simpl; [reflexivity|].
  assert (E : entry (add_extension p m x) e = entry m e).
  { rewrite add_extension_entry. destruct (decide (e = x)) as [->|]; [|reflexivity].
    now rewrite Hin. }
  rewrite IH; rewrite E; auto.
Qed.

Lemma fold_add_extension_absent (p : ContentParser) (exts : list string)
    (m : gmap string (list ContentParser)) (e : string) :
  parser_in p (entry m e) = false ->
  entry (foldl (add_extension p) m exts) e =
    entry m e ++ (if bool_decide (e ∈ exts) then [p] else []).
Proof.
  revert m. induction exts as [|x exts IH]; intros m Hin; cbn [foldl].
  - rewrite bool_decide_eq_false_2 by apply not_elem_of_nil. now rewrite app_nil_r.
  - destruct (decide (e = x)) as [->|Hne].
    + rewrite fold_add_extension_present;
        rewrite add_extension_entry, decide_True, Hin by reflexivity.
      * rewrite bool_decide_eq_true_2 by (apply elem_of_cons; now left). reflexivity.
      * apply parser_in_self.
    + assert (E : entry (add_extension p m x) e = entry m e).
      { rewrite add_extension_entry. now rewrite decide_False. }
      rewrite IH by now rewrite E. rewrite E. f_equal.
      rewrite (bool_decide_ext (e ∈ x :: exts) (e ∈ exts)); [reflexivity|].
      rewrite elem_of_cons. tauto.
Qed.

Lemma index_ok_empty : index_ok empty_registry.
Proof. intros e. unfold entry. simpl. now rewrite lookup_empty. Qed.

Lemma index_ok_register (reg : ParserRegistry) (p : ContentParser) :
  index_ok reg -> index_ok (register reg p).
Proof.
  intros Hreg e. unfold register.
  destruct (parser_in p (_parsers reg)) eqn:Hin; [apply Hreg|]. simpl.
  rewrite fold_add_extension_absent.
  - now rewrite Hreg, List.filter_app.
  - rewrite Hreg. now apply parser_in_filter.
Qed.

Lemma index_ok_registry_of (ps : list ContentParser) : index_ok (registry_of ps).
Proof.
  unfold registry_of. generalize index_ok_empty. generalize empty_registry.
  induction ps as [|p ps IH]; intros reg Hreg; simpl; [exact Hreg|].
  apply IH. now apply index_ok_register.
Qed.

Lemma find_none_iff {A} (f : A -> bool) (l : list A) :
  List.find f l = None <-> forall x, In x l -> f x = false.
Proof.
  split; [apply find_none|].
  induction l as [|x l IH]; intros H; simpl; [reflexivity|].
  rewrite (H x) by now left. apply IH. intros y Hy. apply H. now right.
Qed.

Lemma first_can_parse_total (accepted : ContentParser -> bool) (file_path : path)
    (parsers : list ContentParser) :
  (forall p, In p parsers -> can_parse p file_path = Ok (accepted p)) ->
  first_can_parse file_path parsers = Ok (List.find accepted parsers).
Proof.
  induction parsers as [|q parsers IH]; intros H; cbn [first_can_parse List.find];
    [reflexivity|].
  rewrite (H q) by now left. cbn. destruct (accepted q); [reflexivity|].
  apply IH. intros p Hp. apply H. now right.
Qed.

Lemma first_can_parse_some (file_path : path) (parsers : list ContentParser)
    (p : ContentParser) :
  first_can_parse file_path parsers = Ok (Some p) ->
  In p parsers /\ can_parse p file_path = Ok true.
Proof.
  induction parsers as [|q parsers IH]; cbn [first_can_parse]; [discriminate|].
  destruct (can_parse q file_path) as [[|]|e] eqn:E; cbn.
  - intros [= <-]. split; [now left | exact E].
  - intros H. destruct (IH H) as [Hin Hcan]. split; [now right | exact Hcan].
  - discriminate.
Qed.

Lemma first_can_parse_none (file_path : path) (parsers : list ContentParser) :
  first_can_parse file_path parsers = Ok None ->
  forall p, In p parsers -> can_parse p file_path = Ok false.
Proof.
  induction parsers as [|q parsers IH]; cbn [first_can_parse]; [intros _ p []|].
  destruct (can_parse q file_path) as [[|]|e] eqn:E; cbn; try discriminate.
  intros H p [<-|Hp]; [exact E | now apply IH].
Qed.

Lemma first_can_parse_raise (file_path : path) (parsers : list ContentParser) (e : exn) :
  first_can_parse file_path parsers = Raise e ->
  exists p, In p parsers /\ can_parse p file_path = Raise e.
Proof.
  induction parsers as [|q parsers IH]; cbn [first_can_parse]; [discriminate|].
  destruct (can_parse q file_path) as [[|]|e'] eqn:E; cbn.
  - discriminate.
  - intros H. destruct (IH H) as (p & Hin & Hcan). exists p. split; [now right | exact Hcan].
  - intros [= <-]. exists q. split; [now left | exact E].
Qed.

(** The lookup over the list of parsers, without the index. *)
Lemma get_parser_for_file_index (reg : ParserRegistry) (file_path : path) :
  index_ok reg ->
  get_parser_for_file reg file_path =
    (by_extension ←
       first_can_parse file_path
         (List.filter (declares (lower (suffix file_path))) (_parsers reg));
     match by_extension with
     | Some p => Ok (Some p)
     | None => first_can_parse file_path (_parsers reg)
     end).
Proof.
  intros Hidx. unfold get_parser_for_file.
  specialize (Hidx (lower (suffix file_path))). unfold entry in Hidx.
  destruct (_extension_map reg !! lower (suffix file_path)) as [candidates|];
    simpl in Hidx; now rewrite <- Hidx.
Qed.

Lemma declares_lower_case (ext : string) (p : ContentParser) :
  (forall e, e ∈ supported_extensions p -> lower e = e) ->
  declares_ignoring_case ext p = declares (lower ext) p.
Proof.
  intros Hlow. unfold declares_ignoring_case, declares.
  replace (lower <$> supported_extensions p) with (supported_extensions p); [reflexivity|].
  induction (supported_extensions p) as [|e l IH]; [reflexivity|]. cbn.
  rewrite (Hlow e) by (apply elem_of_cons; now left).
  rewrite <- IH; [reflexivity|]. intros e' He'. apply Hlow, elem_of_cons. now right.
Qed.

(** C5, as the code has it.  For the registry obtained by
    registering any parsers in order, [get_parser_for_file] takes the
    file's extension in lower case and asks, in registration order,
    the parsers that declare exactly this text as an extension; the
    first whose [can_parse] returns true is returned; when none does,
    every registered parser is asked, in order.  An exception of a
    [can_parse] that is asked is not handled: the lookup raises it.
    When every [can_parse] returns, the lookup returns the first
    accepting parser among those declaring the extension, otherwise
    the first accepting parser of all, and [None] exactly when no
    registered parser accepts the file; when, besides, the parsers
    declare their extensions in lower case, this is the lookup the
    specification describes. *)
Theorem get_parser_for_file_spec (ps : list ContentParser) (file_path : path) :
  let reg := registry_of ps in
  let extension := lower (suffix file_path) in
  let declaring := List.filter (declares extension) (_parsers reg) in
  get_parser_for_file reg file_path =
    (by_extension ← first_can_parse file_path declaring;
     match by_extension with
     | Some p => Ok (Some p)
     | None => first_can_parse file_path (_parsers reg)
     end) /\
  (forall accepted : ContentParser -> bool,
     (forall p, In p (_parsers reg) -> can_parse p file_path = Ok (accepted p)) ->
     get_parser_for_file reg file_path =
       Ok (match List.find accepted declaring with
           | Some p => Some p
           | None => List.find accepted (_parsers reg)
           end) /\
     (get_parser_for_file reg file_path = Ok None <->
        forall p, In p (_parsers reg) -> accepted p = false)) /\
  (forall p, get_parser_for_file reg file_path = Ok (Some p) ->
     In p (_parsers reg) /\ can_parse p file_path = Ok true) /\
  (get_parser_for_file reg file_path = Ok None ->
     forall p, In p (_parsers reg) -> can_parse p file_path = Ok false) /\
  (forall e, get_parser_for_file reg file_path = Raise e ->
     exists p, In p (_parsers reg) /\ can_parse p file_path = Raise e) /\
  ((forall p, In p (_parsers reg) -> exists accepted, can_parse p file_path = Ok accepted) ->
   (forall p e, In p (_parsers reg) -> e ∈ supported_extensions p -> lower e = e) ->
   lookup_agrees reg file_path).
Proof.
  intros reg extension declaring.
  pose proof (get_parser_for_file_index reg file_path (index_ok_registry_of ps)) as E.
  fold extension in E. fold declaring in E.
  assert (Htotal : forall accepted : ContentParser -> bool,
            (forall p, In p (_parsers reg) -> can_parse p file_path = Ok (accepted p)) ->
            get_parser_for_file reg file_path =
              Ok (match List.find accepted declaring with
                  | Some p => Some p
                  | None => List.find accepted (_parsers reg)
                  end)).
  { intros accepted Hacc. rewrite E.
    rewrite (first_can_parse_total accepted file_path declaring).
    - cbn. destruct (List.find accepted declaring); [reflexivity|].
      now apply first_can_parse_total.
    - intros p Hp. apply Hacc. now apply filter_In in Hp as [Hp _]. }
  split; [exact E|]. split; [|split; [|split; [|split]]].
  - intros accepted Hacc. split; [now apply Htotal|].
    rewrite (Htotal accepted Hacc). split.
    + destruct (List.find accepted declaring); [discriminate|].
      intros [= Hnone]. now apply find_none_iff.
    + intros Hnone. apply find_none_iff in Hnone as Hall. rewrite Hall.
      destruct (List.find accepted declaring) as [q|] eqn:Hq; [|reflexivity].
      apply find_some in Hq as [Hin Hcan]. apply filter_In in Hin as [Hin _].
      rewrite (Hnone q Hin) in Hcan. discriminate.
  - intros p. rewrite E.
    destruct (first_can_parse file_path declaring) as [[q|]|e] eqn:Hq; cbn.
    + intros [= ->]. apply first_can_parse_some in Hq as [Hin Hcan].
      apply filter_In in Hin as [Hin _]. auto.
    + apply first_can_parse_some.
    + discriminate.
  - rewrite E.
    destruct (first_can_parse file_path declaring) as [[q|]|e] eqn:Hq; cbn;
      [discriminate | apply first_can_parse_none | discriminate].
  - intros e. rewrite E.
    destruct (first_can_parse file_path declaring) as [[q|]|e'] eqn:Hq; cbn.
    + discriminate.
    + apply first_can_parse_raise.
    + intros [= <-]. apply first_can_parse_raise in Hq as (p & Hin & Hcan).
      apply filter_In in Hin as [Hin _]. eauto.
  - intros Hreturn Hlow. unfold lookup_agrees, lookup_as_stated. fold reg.
    rewrite (Htotal (accepts file_path)).
    + assert (Hsame : List.filter (declares_ignoring_case (suffix file_path))
                        (_parsers reg) = declaring).
      { subst declaring. apply List.filter_ext_in. intros p Hp.
        apply declares_lower_case. intros e. now apply Hlow. }
      now rewrite Hsame.
    + intros p Hp. destruct (Hreturn p Hp) as [accepted Hacc].
      unfold accepts. now rewrite Hacc.
Qed.

Lemma get_parser_for_file_spec_witness :
  (forall p, In p (_parsers Samples.sample_registry) ->
     exists accepted, can_parse p ["content"; "INDEX.MD"] = Ok accepted) /\
  (from_option pid 99%nat <$>
     get_parser_for_file Samples.sample_registry ["content"; "INDEX.MD"]) = Ok 0%nat /\
  (from_option pid 99%nat <$>
     get_parser_for_file Samples.sample_registry ["content"; "notebook.txt"]) = Ok 1%nat /\
  (from_option pid 99%nat <$>
     get_parser_for_file Samples.sample_registry ["content"; "photo.png"]) = Ok 99%nat /\
  lookup_agrees Samples.sample_registry ["content"; "INDEX.MD"].
Proof.
  assert (Hreturn : forall file_path p, In p (_parsers Samples.sample_registry) ->
            exists accepted, can_parse p file_path = Ok accepted).
  { intros file_path p [<-|[<-|[]]]; eexists; reflexivity. }
  destruct (get_parser_for_file_spec
              [Samples.md_parser; Samples.sniffing_parser; Samples.md_parser]
              ["content"; "INDEX.MD"]) as (E1 & _ & _ & _ & _ & Hclaim).
  destruct (get_parser_for_file_spec
              [Samples.md_parser; Samples.sniffing_parser; Samples.md_parser]
              ["content"; "notebook.txt"]) as (E2 & _).
  destruct (get_parser_for_file_spec
              [Samples.md_parser; Samples.sniffing_parser; Samples.md_parser]
              ["content"; "photo.png"]) as (E3 & _).
  split; [apply Hreturn|]. unfold Samples.sample_registry.
  split; [rewrite E1; vm_compute; reflexivity|].
  split; [rewrite E2; vm_compute; reflexivity|].
  split; [rewrite E3; vm_compute; reflexivity|].
  apply Hclaim; [apply Hreturn|].
  intros p e [<-|[<-|[]]] He; cbn in He;
    repeat (apply elem_of_cons in He as [->|He]; [reflexivity|]);
    now apply elem_of_nil in He.
Defined.

(** C5, as it is stated, fails in two ways.  A parser that declares
    [.MD] in capitals is not among the parsers asked first for
    [notes.md], so a parser registered before it that accepts the
    file wins.  And with the default parsers the lookup of a notebook
    that cannot be opened raises [FileNotFoundError]. *)
Lemma lookup_not_as_stated :
  (from_option pid 99%nat <$>
     get_parser_for_file Samples.capitals_registry ["content"; "notes.md"]) = Ok 7%nat /\
  pid <$> lookup_as_stated Samples.capitals_registry ["content"; "notes.md"]
    = Some 8%nat /\
  ~ lookup_agrees Samples.capitals_registry ["content"; "notes.md"] /\
  get_parser_for_file Samples.no_notebooks_registry ["content"; "blog"; "draft.ipynb"]
    = Raise FileNotFoundError /\
  ~ lookup_agrees Samples.no_notebooks_registry ["content"; "blog"; "draft.ipynb"].
Proof.
  set (reg := Samples.capitals_registry).
  set (default_reg := Samples.no_notebooks_registry).
  assert (E1 : (from_option pid 99%nat <$> get_parser_for_file reg ["content"; "notes.md"])
               = Ok 7%nat) by (vm_compute; reflexivity).
  assert (E2 : pid <$> lookup_as_stated reg ["content"; "notes.md"] = Some 8%nat)
    by (vm_compute; reflexivity).
  assert (E3 : get_parser_for_file default_reg ["content"; "blog"; "draft.ipynb"]
               = Raise FileNotFoundError) by (vm_compute; reflexivity).
  split; [exact E1|]. split; [exact E2|]. split; [|split; [exact E3|]].
  - unfold lookup_agrees. intros H. rewrite H in E1.
    destruct (lookup_as_stated reg ["content"; "notes.md"]) as [p|]; cbn in E1, E2;
      [|discriminate].
    injection E1 as E1. injection E2 as E2. congruence.
  - unfold lookup_agrees. rewrite E3. discriminate.
Qed.

End Registry.

(** ** Sorting *)

Section Sorting.
Context {A : Type} (leb : A -> A -> bool).

Lemma insert_desc_perm (x : A) (l : list A) :
  Permutation (insert_desc leb x l) (x :: l).
Proof.
  induction l as [|y l IH]; simpl; [reflexivity|].
  destruct (leb y x); [reflexivity|].
  rewrite IH. apply perm_swap.
Qed.

Lemma sorted_desc_perm (l : list A) : Permutation (sorted_desc leb l) l.
Proof.
  induction l as [|x l IH]; simpl; [reflexivity|].
  rewrite insert_desc_perm. now apply perm_skip.
Qed.

Hypothesis leb_total : forall a b, leb a b = true \/ leb b a = true.

Lemma insert_desc_hdrel (a x : A) (l : list A) :
  leb x a = true -> HdRel (fun u v => leb v u = true) a l ->
  HdRel (fun u v => leb v u = true) a (insert_desc leb x l).
Proof.
  intros Hxa Hl. destruct l as [|y l]; simpl; [now constructor|].
  destruct (leb y x); constructor; [exact Hxa|].
  now inversion Hl.
Qed.

Lemma insert_desc_sorted (x : A) (l : list A) :
  Sorted (fun u v => leb v u = true) l ->
  Sorted (fun u v => leb v u = true) (insert_desc leb x l).
Proof.
  induction 1 as [|y l Hs IH Hhd]; simpl; [repeat constructor|].
  destruct (leb y x) eqn:Hyx.
  - constructor; [now constructor | now constructor].
  - constructor; [exact IH|].
    apply insert_desc_hdrel; [|exact Hhd].
    destruct (leb_total x y) as [H|H]; [exact H | congruence].
Qed.

Lemma sorted_desc_sorted (l : list A) :
  Sorted (fun u v => leb v u = true) (sorted_desc leb l).
Proof.
  induction l as [|x l IH]; simpl; [constructor|].
  now apply insert_desc_sorted.
Qed.

End Sorting.

Lemma Sorted_fmap {A B} (R : A -> A -> Prop) (R' : B -> B -> Prop) (P : A -> Prop)
    (f : A -> B) (l : list A) :
  (forall a b, P a -> P b -> R a b -> R' (f a) (f b)) ->
  Forall P l -> Sorted R l -> Sorted R' (f <$> l).
Proof.
  intros HR HP Hs. induction Hs as [|a l Hs IH Hhd]; simpl; [constructor|].
  inversion HP as [|? ? Pa Pl]; subst. constructor; [now apply IH|].
  destruct Hhd as [|b l Hab]; simpl; constructor.
  inversion Pl; subst. now apply HR.
Qed.

(** ** Ordering the group keys *)

Section GroupKeys.
Import Pages.

Lemma map_result_py_int_ok (keys : list pyval) :
  Forall numeric keys ->
  exists ints, map_result py_int keys = Ok ints /\
    length ints = length keys /\
    Forall (fun p => py_int p.2 = Ok p.1) (zip ints keys).
Proof.
  induction 1 as [|key keys [z Hz] _ (ints & E & Hlen & Hall)]; simpl.
  - exists []. repeat split. constructor.
  - exists (z :: ints). rewrite Hz, E. simpl. repeat split.
    + now rewrite Hlen.
    + constructor; [exact Hz | exact Hall].
Qed.

Lemma map_result_py_int_raise (keys : list pyval) :
  Exists (fun key => ~ numeric key) keys ->
  exists e, map_result py_int keys = Raise e /\ (e = ValueError \/ e = TypeError).
Proof.
  induction 1 as [key keys Hk | key keys _ (e & E & He)]; simpl.
  - destruct (py_int key) as [z|e] eqn:Hz; [exfalso; apply Hk; now exists z|].
    exists e. split; [reflexivity|].
    destruct key as [| | |s| |]; simpl in Hz; try discriminate; try (injection Hz as <-; auto).
    destruct (int_of_str s); [discriminate | injection Hz as <-; auto].
  - destruct (py_int key) as [z|e'] eqn:Hz; simpl.
    + exists e. rewrite E. auto.
    + exists e'. split; [reflexivity|].
      destruct key as [| | |s| |]; simpl in Hz; try discriminate; try (injection Hz as <-; auto).
      destruct (int_of_str s); [discriminate | injection Hz as <-; auto].
Qed.

Lemma snd_zip_eq {X Y} (xs : list X) (ys : list Y) :
  length xs = length ys -> (zip xs ys).*2 = ys.
Proof. intros H. apply snd_zip. lia. Qed.

Lemma zleb_total (a b : Z * pyval) :
  (a.1 <=? b.1) = true \/ (b.1 <=? a.1) = true.
Proof. destruct (Z.leb_spec a.1 b.1); [now left | right; apply Z.leb_le; lia]. Qed.

(** Keys that all convert under [int] come out in descending numeric
    order. *)
Lemma sorted_keys_numeric (keys : list pyval) :
  Forall numeric keys ->
  exists out, sorted_keys keys = Ok out /\ Permutation out keys /\
    Sorted (fun a b => int_value b <= int_value a) out.
Proof.
  intros Hnum. destruct (map_result_py_int_ok keys Hnum) as (ints & E & Hlen & Hall).
  unfold sorted_keys, sorted_by_int.
  change (map_result py_int keys ≫= _) with
    (Py.bind (map_result py_int keys)
       (fun ints => Ok ((sorted_desc (fun a b : Z * pyval => a.1 <=? b.1) (zip ints keys)).*2))).
  rewrite E. simpl.
  set (srt := sorted_desc _ _).
  assert (Hperm : Permutation srt (zip ints keys)) by apply sorted_desc_perm.
  exists (srt.*2). split; [reflexivity|]. split.
  - transitivity ((zip ints keys).*2); [now apply Permutation_map|].
    now rewrite (snd_zip_eq ints keys Hlen).
  - apply (Sorted_fmap (fun u v : Z * pyval => (v.1 <=? u.1) = true) _
             (fun p => py_int p.2 = Ok p.1)).
    + intros a b Ha Hb Hab. unfold int_value. rewrite Ha, Hb. now apply Z.leb_le.
    + rewrite Forall_forall in Hall |- *. intros x Hx. apply Hall.
      now rewrite <- Hperm.
    + apply sorted_desc_sorted. apply zleb_total.
Qed.

Lemma as_strings_fmap (keys : list pyval) :
  Forall (fun key => is_str key = true) keys ->
  exists ss, as_strings keys = Some ss /\ keys = VStr <$> ss.
Proof.
  induction 1 as [|key keys Hk _ (ss & E & ->)].
  - now exists [].
  - destruct key as [| | |s| |]; try discriminate.
    exists (s :: ss). split; [|reflexivity].
    unfold as_strings in *. cbn. now rewrite E.
Qed.

(** String keys of which one is not a number come out in descending
    lexicographic order. *)
Lemma sorted_keys_text (keys : list pyval) :
  Forall (fun key => is_str key = true) keys ->
  Exists (fun key => ~ numeric key) keys ->
  exists out, sorted_keys keys = Ok out /\ Permutation out keys /\
    Sorted (fun a b => String.leb (str_value b) (str_value a) = true) out.
Proof.
  intros Hstr Hnon.
  destruct (map_result_py_int_raise keys Hnon) as (e & E & He).
  destruct (as_strings_fmap keys Hstr) as (ss & Ess & ->).
  unfold sorted_keys, sorted_by_int.
  change (map_result py_int (VStr <$> ss) ≫= _) with
    (Py.bind (map_result py_int (VStr <$> ss))
       (fun ints => Ok ((sorted_desc (fun a b : Z * pyval => a.1 <=? b.1)
                           (zip ints (VStr <$> ss))).*2))).
  rewrite E. simpl.
  assert (Eplain : sorted_plain (VStr <$> ss) = Ok (VStr <$> sorted_desc String.leb ss)).
  { unfold sorted_plain. now rewrite Ess. }
  exists (VStr <$> sorted_desc String.leb ss). split; [|split].
  - destruct He as [-> | ->]; exact Eplain.
  - apply Permutation_map, sorted_desc_perm.
  - apply (Sorted_fmap (fun u v => String.leb v u = true) _ (fun _ => True)).
    + intros a b _ _ H. exact H.
    + apply Forall_forall. auto.
    + apply sorted_desc_sorted. apply String.leb_total.
Qed.

End GroupKeys.

(** ** Grouping *)

Section Grouping.
Import Pages.
Implicit Types (acc : list (hkey * (pyval * list (gmap string pyval)))).
Implicit Types (items pre : list (gmap string pyval)).

Lemma add_to_group_fst k key it acc :
  (add_to_group k key it acc).*1 =
    if bool_decide (k ∈ acc.*1) then acc.*1 else acc.*1 ++ [k].
Proof.
  induction acc as [|[k' [key' its]] acc IH]; [reflexivity|].
  cbn [add_to_group]. rewrite !fmap_cons. cbn [fst].
  - destruct (decide (k' = k)) as [->|Hne]; rewrite ?fmap_cons; cbn [fst].
    + rewrite bool_decide_eq_true_2 by (apply elem_of_cons; now left). reflexivity.
    + rewrite IH.
      rewrite (bool_decide_ext (k ∈ k' :: acc.*1) (k ∈ acc.*1)).
      * now destruct (bool_decide (k ∈ acc.*1)).
      * rewrite elem_of_cons. split; [intros [->|]; [congruence | assumption] | auto].
Qed.

Lemma group_of_add k key it acc k' :
  group_of (add_to_group k key it acc) k' =
    if decide (k' = k) then group_of acc k ++ [it] else group_of acc k'.
Proof.
  unfold group_of. induction acc as [|[k0 [key0 its]] acc IH]; simpl.
  - destruct (decide (k' = k)) as [->|Hne].
    + now rewrite bool_decide_eq_true_2.
    + rewrite bool_decide_eq_false_2 by congruence. reflexivity.
  - destruct (decide (k0 = k)) as [->|Hne]; simpl.
    + destruct (decide (k' = k)) as [->|Hne'].
      * now rewrite bool_decide_eq_true_2.
      * rewrite bool_decide_eq_false_2 by congruence. reflexivity.
    + destruct (decide (k' = k)) as [->|Hne'].
      * rewrite bool_decide_eq_false_2 by congruence. exact IH.
      * case_bool_decide; [reflexivity|]. exact IH.
Qed.

Lemma group_keys_app group_by pre items :
  group_keys group_by (pre ++ items) =
    group_keys group_by pre ++ group_keys group_by items.
Proof. unfold group_keys. now rewrite fmap_app, List.filter_app. Qed.

Lemma keyed_false group_by k it :
  truthy (get it group_by) = false -> keyed group_by k it = false.
Proof. unfold keyed. now intros ->. Qed.

Lemma groups_of_add group_by acc pre it k :
  truthy (get it group_by) = true ->
  hash_key (get it group_by) = Ok k ->
  groups_of group_by acc pre ->
  groups_of group_by (add_to_group k (get it group_by) it acc) (pre ++ [it]).
Proof.
  intros Ht Hk (Hgrp & Hall & Hnd). split; [|split].
  - intros k'. rewrite group_of_add, List.filter_app. cbn [List.filter].
    assert (E : keyed group_by k' it = bool_decide (k = k')).
    { unfold keyed. now rewrite Ht, Hk. }
    rewrite E. destruct (decide (k' = k)) as [->|Hne].
    + rewrite bool_decide_eq_true_2 by reflexivity. now rewrite Hgrp.
    + rewrite bool_decide_eq_false_2 by congruence. now rewrite Hgrp, app_nil_r.
  - assert (Hmono : Forall (fun g => hash_key g.2.1 = Ok g.1 /\
                      In g.2.1 (group_keys group_by (pre ++ [it]))) acc).
    { eapply Forall_impl; [exact Hall|]. intros g [H1 H2]. split; [exact H1|].
      rewrite group_keys_app. apply in_or_app. now left. }
    clear Hall Hgrp Hnd. induction acc as [|[k0 [key0 its]] acc IH]; simpl.
    + constructor; [|constructor]. simpl. split; [exact Hk|].
      rewrite group_keys_app. apply in_or_app. right.
      unfold group_keys. simpl. rewrite Ht. now left.
    + inversion Hmono as [|? ? Hg Hrest]; subst.
      destruct (decide (k0 = k)); constructor; auto.
  - rewrite add_to_group_fst. case_bool_decide as Hin; [exact Hnd|].
    apply NoDup_app. split; [exact Hnd|]. split.
    + intros x Hx ->%list_elem_of_singleton. contradiction.
    + apply NoDup_singleton.
Qed.

Lemma groups_of_skip group_by acc pre it :
  truthy (get it group_by) = false ->
  groups_of group_by acc pre -> groups_of group_by acc (pre ++ [it]).
Proof.
  intros Ht (Hgrp & Hall & Hnd). split; [|split; [|exact Hnd]].
  - intros k. rewrite List.filter_app. cbn [List.filter].
    rewrite keyed_false by exact Ht. now rewrite app_nil_r.
  - eapply Forall_impl; [exact Hall|]. intros g [H1 H2]. split; [exact H1|].
    rewrite group_keys_app. apply in_or_app. now left.
Qed.

Lemma group_items_ok group_by items : forall acc pre,
  Forall hashable (group_keys group_by items) ->
  groups_of group_by acc pre ->
  exists acc', group_items group_by items acc = Ok acc' /\
    groups_of group_by acc' (pre ++ items).
Proof.
  induction items as [|it items IH]; intros acc pre Hhash Hinv; simpl.
  - exists acc. now rewrite app_nil_r.
  - unfold group_keys in Hhash. simpl in Hhash.
    destruct (truthy (get it group_by)) eqn:Ht.
    + inversion Hhash as [|? ? [k Hk] Hrest]; subst. rewrite Hk. simpl.
      destruct (IH (add_to_group k (get it group_by) it acc) (pre ++ [it]) Hrest)
        as (acc' & E & Hinv').
      { now apply groups_of_add. }
      exists acc'. split; [exact E|]. now rewrite <- app_assoc in Hinv'.
    + destruct (IH acc (pre ++ [it]) Hhash) as (acc' & E & Hinv').
      { now apply groups_of_skip. }
      exists acc'. split; [exact E|]. now rewrite <- app_assoc in Hinv'.
Qed.

Lemma bind_ok {X Y} (m : result X) (x : X) (k : X -> result Y) :
  m = Ok x -> (m ≫= k) = k x.
Proof. now intros ->. Qed.

Lemma bind_raise {X Y} (m : result X) (e : exn) (k : X -> result Y) :
  m = Raise e -> (m ≫= k) = Raise e.
Proof. now intros ->. Qed.

Lemma map_result_fmap {X Y} (f : X -> result Y) (g : X -> Y) (l : list X) :
  (forall x, In x l -> f x = Ok (g x)) -> map_result f l = Ok (g <$> l).
Proof.
  induction l as [|x l IH]; intros H; simpl; [reflexivity|].
  rewrite (H x) by now left. simpl. rewrite IH; [reflexivity|].
  intros y Hy. apply H. now right.
Qed.

Lemma in_group_keyed group_by key k :
  hash_key key = Ok k -> in_group group_by key = keyed group_by k.
Proof. intros H. unfold in_group. now rewrite H. Qed.

Lemma group_of_find acc k :
  group_of acc k <> [] ->
  exists g, List.find (fun g => bool_decide (g.1 = k)) acc = Some g /\
    In g acc /\ g.1 = k.
Proof.
  unfold group_of. destruct (List.find _ acc) as [g|] eqn:E; [|congruence].
  intros _. exists g. apply find_some in E as [Hin Hk].
  apply bool_decide_eq_true in Hk. auto.
Qed.

Lemma group_keys_inv group_by items v :
  In v (group_keys group_by items) ->
  exists it, In it items /\ get it group_by = v /\ truthy v = true.
Proof.
  unfold group_keys. intros [Hv Ht]%filter_In.
  apply list_elem_of_In, list_elem_of_fmap in Hv as (it & -> & Hit).
  exists it. apply list_elem_of_In in Hit. auto.
Qed.

Lemma group_keys_intro group_by items it :
  In it items -> truthy (get it group_by) = true ->
  In (get it group_by) (group_keys group_by items).
Proof.
  intros Hit Ht. unfold group_keys. apply filter_In. split; [|exact Ht].
  apply list_elem_of_In, list_elem_of_fmap. exists it. split; [reflexivity|].
  now apply list_elem_of_In.
Qed.

(** The page of groups, whatever the order [sorted_keys] gives: the
    group names are the key values of the items, one name per key, and
    each group holds the items with its key, in order. *)
Lemma grouped_page_general group_by items (Q : list pyval -> Prop) :
  Forall hashable (group_keys group_by items) ->
  (forall keys,
     (forall v, In v keys -> In v (group_keys group_by items)) ->
     (forall v, In v (group_keys group_by items) ->
        exists v', In v' keys /\ hash_key v' = hash_key v) ->
     exists out, sorted_keys keys = Ok out /\ Permutation out keys /\ Q out) ->
  exists names,
    grouped_page group_by items =
      Ok ((fun key => (key, List.filter (in_group group_by key) items)) <$> names) /\
    Q names /\
    (forall v, In v names -> In v (group_keys group_by items)) /\
    (forall it, In it items -> truthy (get it group_by) = true ->
       exists v, In v names /\ in_group group_by v it = true) /\
    NoDup (hash_key <$> names).
Proof.
  intros Hhash Hsort.
  destruct (group_items_ok group_by items [] [] Hhash) as (acc & E & Hgrp & Hall & Hnd).
  { split; [|split]; [reflexivity | constructor | constructor]. }
  simpl in Hgrp, Hall. rewrite Forall_forall in Hall.
  set (keys := (fun g : hkey * (pyval * list (gmap string pyval)) => g.2.1) <$> acc).
  assert (Hkeys : forall v, In v keys ->
            exists g, In g acc /\ g.2.1 = v /\ hash_key v = Ok g.1 /\
                      In v (group_keys group_by items)).
  { intros v Hv. apply list_elem_of_In, list_elem_of_fmap in Hv as (g & -> & Hg).
    destruct (Hall g Hg) as [H1 H2].
    exists g. apply list_elem_of_In in Hg. auto. }
  assert (Hcov : forall it, In it items -> truthy (get it group_by) = true ->
            exists g, In g acc /\ hash_key (get it group_by) = Ok g.1 /\
                      keyed group_by g.1 it = true).
  { intros it Hit Ht.
    assert (Hh : hashable (get it group_by)).
    { rewrite Forall_forall in Hhash. apply Hhash, list_elem_of_In.
      now apply group_keys_intro. }
    destruct Hh as [k Hk].
    assert (Hkeyed : keyed group_by k it = true).
    { unfold keyed. rewrite Ht, Hk. now rewrite bool_decide_eq_true_2. }
    destruct (group_of_find acc k) as (g & _ & Hg & Hgk).
    { rewrite Hgrp. intros Hnil.
      assert (In it (List.filter (keyed group_by k) items)) as Hc
        by (apply filter_In; auto).
      rewrite Hnil in Hc. destruct Hc. }
    exists g. subst k. auto. }
  assert (Hin_keys : forall g, In g acc -> In g.2.1 keys).
  { intros g Hg. apply list_elem_of_In, list_elem_of_fmap. exists g.
    split; [reflexivity|]. now apply list_elem_of_In. }
  destruct (Hsort keys) as (out & Eout & Hperm & HQ).
  { intros v Hv. now destruct (Hkeys v Hv) as (g & _ & _ & _ & H). }
  { intros v Hv. destruct (group_keys_inv _ _ _ Hv) as (it & Hit & <- & Ht).
    destruct (Hcov it Hit Ht) as (g & Hg & Hk & _).
    exists g.2.1. split; [now apply Hin_keys|].
    rewrite Hk. now apply Hall, list_elem_of_In. }
  exists out. split; [|split; [exact HQ|split; [|split]]].
  - unfold grouped_page.
    rewrite (bind_ok _ _ _ E). fold keys. rewrite (bind_ok _ _ _ Eout).
    apply map_result_fmap. intros key Hkey.
    assert (Hin : In key keys) by now apply (Permutation_in _ Hperm).
    destruct (Hkeys key Hin) as (g & Hg & <- & Hk & _).
    rewrite (bind_ok _ _ _ Hk).
    destruct (List.find _ acc) as [g'|] eqn:Ef.
    + assert (group_of acc g.1 = g'.2.2) as Hg' by (unfold group_of; now rewrite Ef).
      rewrite <- Hg', Hgrp. now rewrite (in_group_keyed _ _ _ Hk).
    + exfalso. apply (find_none _ _ Ef) in Hg. simpl in Hg.
      now rewrite bool_decide_eq_true_2 in Hg.
  - intros v Hv. apply (Permutation_in _ Hperm) in Hv.
    now destruct (Hkeys v Hv) as (g & _ & _ & _ & H).
  - intros it Hit Ht. destruct (Hcov it Hit Ht) as (g & Hg & Hk & Hkeyed).
    exists g.2.1. split.
    + apply (Permutation_in _ (Permutation_sym Hperm)). now apply Hin_keys.
    + apply list_elem_of_In in Hg. destruct (Hall g Hg) as [Hgh _].
      now rewrite (in_group_keyed _ _ _ Hgh).
  - rewrite Hperm.
    assert (Ek : hash_key <$> keys = Ok <$> acc.*1).
    { subst keys. rewrite <- !list_fmap_compose. apply list_fmap_ext.
      intros i g Hg. simpl.
      apply list_elem_of_lookup_2 in Hg. now destruct (Hall g Hg). }
    rewrite Ek. apply NoDup_fmap_2; [|exact Hnd]. now intros ? ? [= ->].
Qed.

End Grouping.

(** ** Group order on list pages *)

Section GroupOrder.
Import Pages.

Lemma numeric_hashable (key : pyval) : numeric key -> hashable key.
Proof. intros [z Hz]. destruct key; try discriminate; eexists; reflexivity. Qed.

Lemma str_hashable (key : pyval) : is_str key = true -> hashable key.
Proof. destruct key; try discriminate. intros _. eexists; reflexivity. Qed.

(** C6. On a grouped list page the group names are the values the
    items have under the grouping key, one group per value, each group
    holding its items in order.  When every such value converts under
    [int] (numeric strings, or integers) the groups come in descending
    numeric order; when the values are strings and one of them is not
    numeric they come in descending lexicographic order.  The years
    "2019", "2023", "2021" give the order "2023", "2021", "2019". *)
Theorem grouped_page_order (group_by : string) (items : list (gmap string pyval)) :
  (Forall numeric (group_keys group_by items) ->
   exists names,
     grouped_page group_by items =
       Ok ((fun key => (key, List.filter (in_group group_by key) items)) <$> names) /\
     Sorted (fun a b => int_value b <= int_value a) names /\
     (forall v, In v names -> In v (group_keys group_by items)) /\
     (forall it, In it items -> truthy (get it group_by) = true ->
        exists v, In v names /\ in_group group_by v it = true) /\
     NoDup (hash_key <$> names)) /\
  (Forall (fun key => is_str key = true) (group_keys group_by items) ->
   Exists (fun key => ~ numeric key) (group_keys group_by items) ->
   exists names,
     grouped_page group_by items =
       Ok ((fun key => (key, List.filter (in_group group_by key) items)) <$> names) /\
     Sorted (fun a b => String.leb (str_value b) (str_value a) = true) names /\
     (forall v, In v names -> In v (group_keys group_by items)) /\
     (forall it, In it items -> truthy (get it group_by) = true ->
        exists v, In v names /\ in_group group_by v it = true) /\
     NoDup (hash_key <$> names)) /\
  sorted_keys [VStr "2019"; VStr "2023"; VStr "2021"] =
    Ok [VStr "2023"; VStr "2021"; VStr "2019"].
Proof.
  split; [|split; [|reflexivity]].
  - intros Hnum. apply grouped_page_general.
    + eapply Forall_impl; [exact Hnum | apply numeric_hashable].
    + intros keys Hsub _. apply sorted_keys_numeric.
      rewrite Forall_forall in Hnum |- *. intros v Hv.
      apply Hnum, list_elem_of_In, Hsub. now apply list_elem_of_In.
  - intros Hstr Hnon. apply grouped_page_general.
    + eapply Forall_impl; [exact Hstr | apply str_hashable].
    + intros keys Hsub Hcov. apply sorted_keys_text.
      * rewrite Forall_forall in Hstr |- *. intros v Hv.
        apply Hstr, list_elem_of_In, Hsub. now apply list_elem_of_In.
      * apply Exists_exists in Hnon as (v & Hv & Hn).
        apply list_elem_of_In in Hv.
        destruct (Hcov v Hv) as (v' & Hv' & Hh).
        apply Exists_exists. exists v'. split; [now apply list_elem_of_In|].
        rewrite Forall_forall in Hstr.
        assert (is_str v = true) as Hs by now apply Hstr, list_elem_of_In.
        assert (is_str v' = true) as Hs'
          by now apply Hstr, list_elem_of_In, Hsub.
        destruct v; try discriminate. destruct v'; try discriminate.
        simpl in Hh. now injection Hh as ->.
Qed.

Lemma all_numeric_true (keys : list pyval) :
  forallb (fun key => match py_int key with Ok _ => true | Raise _ => false end) keys
    = true ->
  Forall numeric keys.
Proof.
  induction keys as [|key keys IH]; simpl; [constructor|].
  intros [Hk Hr]%andb_prop. constructor; [|now apply IH].
  destruct (py_int key) as [z|] eqn:E; [now exists z | discriminate].
Qed.

Lemma forallb_Forall {X} (f : X -> bool) (l : list X) :
  forallb f l = true -> Forall (fun x => f x = true) l.
Proof.
  induction l as [|x l IH]; simpl; [constructor|].
  intros [Hx Hl]%andb_prop. constructor; auto.
Qed.

Lemma some_text_true (keys : list pyval) :
  existsb (fun key => match py_int key with Ok _ => false | Raise _ => true end) keys
    = true ->
  Exists (fun key => ~ numeric key) keys.
Proof.
  induction keys as [|key keys IH]; simpl; [discriminate|].
  intros [Hk|Hr]%orb_prop; [|apply Exists_cons_tl; now apply IH].
  apply Exists_cons_hd. intros [z Hz]. now rewrite Hz in Hk.
Qed.

Lemma grouped_page_order_witness :
  Forall numeric (group_keys "year" Samples.year_items) /\
  (exists names,
     grouped_page "year" Samples.year_items =
       Ok ((fun key => (key, List.filter (in_group "year" key) Samples.year_items))
             <$> names) /\
     Sorted (fun a b => int_value b <= int_value a) names) /\
  Forall (fun key => is_str key = true) (group_keys "category" Samples.category_items) /\
  Exists (fun key => ~ numeric key) (group_keys "category" Samples.category_items) /\
  (exists names,
     grouped_page "category" Samples.category_items =
       Ok ((fun key => (key, List.filter (in_group "category" key) Samples.category_items))
             <$> names) /\
     Sorted (fun a b => String.leb (str_value b) (str_value a) = true) names).
Proof.
  assert (H1 : Forall numeric (group_keys "year" Samples.year_items)).
  { apply all_numeric_true. vm_compute. reflexivity. }
  assert (H2 : Forall (fun key => is_str key = true)
                 (group_keys "category" Samples.category_items)).
  { apply forallb_Forall. vm_compute. reflexivity. }
  assert (H3 : Exists (fun key => ~ numeric key)
                 (group_keys "category" Samples.category_items)).
  { apply some_text_true. vm_compute. reflexivity. }
  destruct (grouped_page_order "year" Samples.year_items) as (Hn & _ & _).
  destruct (grouped_page_order "category" Samples.category_items) as (_ & Ht & _).
  split; [exact H1|]. split.
  { destruct (Hn H1) as (names & E & Hs & _). exists names. auto. }
  split; [exact H2|]. split; [exact H3|].
  destruct (Ht H2 H3) as (names & E & Hs & _). exists names. auto.
Defined.

Example grouped_page_years :
  match grouped_page "year" Samples.year_items with
  | Ok page => (fun g => (g.1, length g.2)) <$> page
  | Raise _ => []
  end = [(VStr "2023", 2%nat); (VStr "2021", 1%nat); (VStr "2019", 1%nat)].
Proof. vm_compute. reflexivity. Qed.

End GroupOrder.

(** ** Meta descriptions *)

Section MetaDescription.
Import Seo.

Lemma sub_tags_plain (s : string) :
  has_char "<" s = false -> sub_tags 0 s = s.
Proof.
  induction s as [|a s IH]; [reflexivity|].
  cbn [has_char]. intros [Ha Hs]%orb_false_elim.
  cbn [sub_tags]. unfold tag_length.
  destruct a as [[] [] [] [] [] [] [] []]; try discriminate;
    cbn; now rewrite IH.
Qed.

Lemma sub_tags_plain_app (pre rest : string) :
  has_char "<" pre = false -> sub_tags 0 (pre +:+ rest) = pre +:+ sub_tags 0 rest.
Proof.
  induction pre as [|a pre IH]; [reflexivity|].
  cbn [has_char]. intros [Ha Hs]%orb_false_elim.
  rewrite !append_cons. cbn [sub_tags]. unfold tag_length.
  destruct a as [[] [] [] [] [] [] [] []]; try discriminate;
    cbn; now rewrite IH.
Qed.

Lemma sub_tags_skip (x rest : string) :
  sub_tags (String.length x) (x +:+ rest) = sub_tags 0 rest.
Proof. induction x as [|a x IH]; [reflexivity|]. simpl. exact IH. Qed.

Lemma tag_close_body (body rest : string) :
  has_char "<" body = false -> has_char ">" body = false ->
  tag_close (body +:+ String ">" rest) = Some (S (String.length body)).
Proof.
  induction body as [|a body IH]; [reflexivity|].
  cbn [has_char]. intros [Ha Hb]%orb_false_elim [Ha' Hb']%orb_false_elim.
  rewrite append_cons. cbn [tag_close String.length].
  rewrite Ha', Ha. now rewrite IH.
Qed.

Lemma sub_tags_tag (c : ascii) (body rest : string) :
  Ascii.eqb c "<" = false ->
  has_char "<" body = false -> has_char ">" body = false ->
  sub_tags 0 (tag c body +:+ rest) = sub_tags 0 rest.
Proof.
  intros Hc Hb Hb'. unfold tag.
  assert (E : tag_length (String "<" (String c (body +:+ ">")) +:+ rest)
              = Some (S (S (S (String.length body))))).
  { rewrite !append_cons. cbn [tag_length]. rewrite Hc.
    replace ((body +:+ ">") +:+ rest) with (body +:+ String ">" rest).
    - now rewrite tag_close_body.
    - clear. induction body as [|a body IH]; [reflexivity|].
      rewrite !append_cons. now rewrite IH. }
  rewrite append_cons. cbn [sub_tags]. rewrite <- append_cons, E.
  replace (S (S (S (String.length body))) - 1)%nat
    with (String.length (String c (body +:+ ">"))).
  - apply sub_tags_skip.
  - cbn [String.length]. rewrite length_append. simpl. lia.
Qed.

Lemma length_str_take (n : nat) (s : string) :
  String.length (str_take n s) = Nat.min n (String.length s).
Proof.
  unfold str_take. revert n. induction s as [|a s IH]; intros [|n]; simpl; auto.
Qed.

Lemma str_take_all (n : nat) (s : string) :
  (String.length s <= n)%nat -> str_take n s = s.
Proof.
  unfold str_take. revert n. induction s as [|a s IH]; intros [|n] H; simpl in *;
    try reflexivity; try lia.
  rewrite IH; [reflexivity | lia].
Qed.

Lemma append_empty_r (s : string) : s +:+ "" = s.
Proof. induction s as [|a s IH]; [reflexivity|]. now rewrite append_cons, IH. Qed.

(** C8. With an author name configured, the meta description of a
    blog post whose excerpt is a non-empty string is the excerpt with
    the tags matched by the pattern removed, cut to 155 characters,
    with three dots added when more than 155 characters were there;
    the one of the homepage is the site description.  A tag of the
    usual shape is removed whole, text without [<] is kept. *)
Theorem generate_meta_description_spec (repr_container : pyval -> string)
    (config : Config) (a : AuthorConfig) (name : string)
    (Hauthor : author config = Some a) (Hname : author_name a = Some name) :
  (forall item excerpt,
     item !! "excerpt" = Some (VStr excerpt) -> excerpt <> "" ->
     let clean := strip_tags excerpt in
     let meta := str_take 155 clean +:+
                 (if (155 <? String.length clean)%nat then "..." else "") in
     generate_meta_description repr_container config "blog_post" (Some item) = Ok meta /\
     (String.length meta <= 158)%nat /\
     ((String.length clean <= 155)%nat -> meta = clean)) /\
  (forall item,
     generate_meta_description repr_container config "homepage" item
       = Ok (description (site config))) /\
  (forall pre c body post,
     has_char "<" pre = false -> Ascii.eqb c "<" = false ->
     has_char "<" body = false -> has_char ">" body = false ->
     strip_tags (pre +:+ tag c body +:+ post) = pre +:+ strip_tags post) /\
  (forall text, has_char "<" text = false -> strip_tags text = text).
Proof.
  split; [|split; [|split]].
  - intros item excerpt Hex Hne clean meta.
    split; [|split].
    + unfold generate_meta_description. rewrite Hauthor. cbn. rewrite Hname. cbn.
      assert (Hitem : bool_decide (item = ∅) = false).
      { apply bool_decide_eq_false. intros ->. now rewrite lookup_empty in Hex. }
      rewrite Hitem. cbn. unfold get. rewrite Hex. cbn.
      destruct (String.eqb_spec excerpt "") as [|_]; [contradiction|]. reflexivity.
    + subst meta. rewrite length_append, length_str_take.
      pose proof (Nat.le_min_l 155 (String.length clean)) as Hmin.
      generalize dependent (Nat.min 155 (String.length clean)). intros m Hm.
      destruct (155 <? String.length clean)%nat; cbn [String.length]; lia.
    + intros Hlen. subst meta.
      destruct (Nat.ltb_spec 155 (String.length clean)); [lia|].
      now rewrite str_take_all, append_empty_r.
  - intros item. unfold generate_meta_description. rewrite Hauthor. cbn.
    now rewrite Hname.
  - intros pre c body post Hpre Hc Hb Hb'. unfold strip_tags.
    rewrite sub_tags_plain_app by exact Hpre. now rewrite sub_tags_tag.
  - intros text. apply sub_tags_plain.
Qed.

Lemma generate_meta_description_spec_witness :
  author Samples.sample_config = Some Samples.sample_author /\
  author_name Samples.sample_author = Some "Ada Lovelace" /\
  Samples.sample_post !! "excerpt"
    = Some (VStr "<p>Tensor <b>methods</b> for deep learning.</p>") /\
  "<p>Tensor <b>methods</b> for deep learning.</p>" <> "" /\
  generate_meta_description (fun _ => "") Samples.sample_config "blog_post"
    (Some Samples.sample_post) = Ok "Tensor methods for deep learning." /\
  generate_meta_description (fun _ => "") Samples.sample_config "homepage" None
    = Ok "Personal website of Ada Lovelace".
Proof.
  destruct (generate_meta_description_spec (fun _ => "") Samples.sample_config
              Samples.sample_author "Ada Lovelace" eq_refl eq_refl)
    as (Hpost & Hhome & _).
  split; [reflexivity|]. split; [reflexivity|]. split; [reflexivity|].
  split; [discriminate|]. split.
  - destruct (Hpost Samples.sample_post
                "<p>Tensor <b>methods</b> for deep learning.</p>" eq_refl)
      as (E & _); [discriminate|].
    rewrite E. vm_compute. reflexivity.
  - rewrite Hhome. reflexivity.
Defined.

End MetaDescription.

(** ** Loading the bio *)

Section BioLoading.
Import Content.




End BioLoading.

(** ** Loading the blog posts *)

Section BlogLoading.
Import Content.
Implicit Types (posts unique : list (gmap string pyval)) (seen : gset hkey).

Lemma keyed_slugless k (post : gmap string pyval) :
  truthy (get post "slug") = false -> keyed "slug" k post = false.
Proof. unfold keyed. now intros ->. Qed.

Lemma keyed_slug k k' (post : gmap string pyval) :
  truthy (get post "slug") = true -> hash_key (get post "slug") = Ok k' ->
  keyed "slug" k post = bool_decide (k' = k).
Proof. unfold keyed. now intros -> ->. Qed.

(** The deduplication loop, when every slug can be hashed: it keeps,
    in order, the first post of every slug not seen before. *)
Lemma unique_posts_ok posts : forall seen,
  Forall (fun post => truthy (get post "slug") = true -> hashable (get post "slug")) posts ->
  exists unique,
    unique_posts seen posts = Ok unique /\
    sublist unique posts /\
    (forall k, List.filter (keyed "slug" k) unique =
               if bool_decide (k ∈ seen) then []
               else take 1 (List.filter (keyed "slug" k) posts)) /\
    Forall (fun post => truthy (get post "slug") = true) unique.
Proof.
  induction posts as [|post posts IH]; intros seen Hhash.
  - exists []. repeat split; [constructor| |constructor].
    intros k. simpl. now destruct (bool_decide (k ∈ seen)).
  - inversion Hhash as [|? ? Hpost Hrest]; subst. cbn [unique_posts].
    destruct (truthy (get post "slug")) eqn:Ht.
    + destruct (Hpost eq_refl) as [k0 Hk0]. rewrite (bind_ok _ _ _ Hk0).
      case_bool_decide as Hseen.
      * destruct (IH seen Hrest) as (unique & E & Hsub & Hfirst & Hall).
        exists unique. split; [exact E|]. split; [now constructor|]. split; [|exact Hall].
        intros k. rewrite Hfirst. cbn [List.filter].
        rewrite (keyed_slug k k0 post Ht Hk0).
        case_bool_decide as Hk; [reflexivity|].
        rewrite bool_decide_eq_false_2; [reflexivity|]. intros ->. contradiction.
      * destruct (IH ({[k0]} ∪ seen) Hrest) as (unique & E & Hsub & Hfirst & Hall).
        exists (post :: unique). rewrite (bind_ok _ _ _ E).
        split; [reflexivity|]. split; [now constructor|]. split; [|now constructor].
        intros k. cbn [List.filter]. rewrite (keyed_slug k k0 post Ht Hk0), Hfirst.
        destruct (decide (k0 = k)) as [->|Hne].
        -- rewrite bool_decide_eq_true_2 by reflexivity.
           rewrite (bool_decide_eq_true_2 (k ∈ {[k]} ∪ seen)) by set_solver.
           now rewrite (bool_decide_eq_false_2 (k ∈ seen)).
        -- rewrite (bool_decide_eq_false_2 (k0 = k)) by exact Hne.
           rewrite (bool_decide_ext (k ∈ {[k0]} ∪ seen) (k ∈ seen)); [reflexivity|].
           rewrite elem_of_union, elem_of_singleton.
           split; [intros [Heq|Hin]; [now destruct Hne|exact Hin] | now right].
    + destruct (IH seen Hrest) as (unique & E & Hsub & Hfirst & Hall).
      exists unique. split; [exact E|]. split; [now constructor|]. split; [|exact Hall].
      intros k. rewrite Hfirst. cbn [List.filter].
      now rewrite (keyed_slugless k post Ht).
Qed.

(** Whatever the slugs are, a post that the loop keeps was in the
    list and has a slug. *)
Lemma unique_posts_inv posts : forall seen unique,
  unique_posts seen posts = Ok unique ->
  Forall (fun post => In post posts /\ truthy (get post "slug") = true) unique.
Proof.
  induction posts as [|post posts IH]; intros seen unique; cbn [unique_posts].
  - intros [= <-]. constructor.
  - assert (Hweak : forall u,
              Forall (fun p => In p posts /\ truthy (get p "slug") = true) u ->
              Forall (fun p => In p (post :: posts) /\ truthy (get p "slug") = true) u).
    { intros u Hu. eapply Forall_impl; [exact Hu|].
      intros p [H1 H2]. split; [now right | exact H2]. }
    destruct (truthy (get post "slug")) eqn:Ht; [|intros Hu; now apply Hweak, (IH seen)].
    destruct (hash_key (get post "slug")) as [k0|e]; [|discriminate]. cbn.
    case_bool_decide; [intros Hu; now apply Hweak, (IH seen)|].
    destruct (unique_posts ({[k0]} ∪ seen) posts) as [kept|e] eqn:E; [|discriminate].
    cbn. intros [= <-]. constructor; [split; [now left | exact Ht]|].
    now apply Hweak, (IH ({[k0]} ∪ seen)).
Qed.

Lemma unique_posts_slugless seen (l1 l2 : list (gmap string pyval)) post :
  truthy (get post "slug") = false ->
  unique_posts seen (l1 ++ post :: l2) = unique_posts seen (l1 ++ l2).
Proof.
  intros Ht. revert seen. induction l1 as [|p l1 IH]; intros seen; cbn [app unique_posts].
  - now rewrite Ht.
  - destruct (truthy (get p "slug")); [|apply IH].
    destruct (hash_key (get p "slug")) as [k|e]; [|reflexivity]. cbn.
    case_bool_decide; [apply IH|]. now rewrite IH.
Qed.

Lemma validated_posts_app ent (l1 l2 : list (gmap string pyval)) :
  validated_posts ent (l1 ++ l2) = validated_posts ent l1 ++ validated_posts ent l2.
Proof.
  induction l1 as [|p l1 IH]; [reflexivity|]. cbn [app validated_posts].
  destruct (validate_post ent p); [|exact IH]. now rewrite IH.
Qed.

Lemma validated_posts_inv ent unique d :
  In d (validated_posts ent unique) ->
  exists post, In post unique /\ validate_post ent post = Ok d.
Proof.
  induction unique as [|p unique IH]; cbn [validated_posts]; [intros []|].
  destruct (validate_post ent p) as [d'|e] eqn:E.
  - intros [<-|H]; [exists p; split; [now left | exact E]|].
    destruct (IH H) as (post & Hin & Hv). exists post. split; [now right | exact Hv].
  - intros H. destruct (IH H) as (post & Hin & Hv). exists post. split; [now right | exact Hv].
Qed.

(** The posts of all blog parsers, in registration order. *)
Lemma all_raw_posts_eq reg blog_dir :
  all_raw_posts reg blog_dir =
    Ok (concat (posts_of_parser blog_dir <$>
                  List.filter (produces "blog_post") (_parsers reg))).
Proof.
  unfold all_raw_posts, get_parsers_for_content_type.
  destruct (_parsers reg); reflexivity.
Qed.

Lemma flatten_posts_all (raw_posts : list (gmap string pyval)) :
  Forall (fun raw_post => exists post, flatten_post raw_post = Ok post) raw_posts ->
  Forall2 (fun raw_post post => flatten_post raw_post = Ok post)
    raw_posts (flatten_posts raw_posts).
Proof.
  induction 1 as [|raw_post rest [post E] _ IH]; cbn [flatten_posts]; [constructor|].
  rewrite E. now constructor.
Qed.

Lemma validated_posts_length ent unique :
  Forall (fun post => exists entry, validate_post ent post = Ok entry) unique ->
  length (validated_posts ent unique) = length unique.
Proof.
  induction 1 as [|post rest [entry E] _ IH]; cbn [validated_posts]; [reflexivity|].
  rewrite E. cbn. now rewrite IH.
Qed.

(** C2, as the code has it.  The merged posts are the flattened posts
    of the blog parsers, parser by parser in registration order.
    When every slug among them can be hashed (slugs are strings or
    numbers), the loader returns the validated entities of a list
    [unique] which is a sublist of the merged posts, holds only posts
    with a slug, and for every slug holds exactly the first merged
    post with that slug.  A post of [unique] whose validation raises
    contributes nothing, and the posts before and after it are
    validated as they would be without it. *)
Theorem safe_parse_blog_posts_dedup (ent : Entities) (reg : ParserRegistry)
    (content_dir : path)
    (Hhash : Forall (fun post => truthy (get post "slug") = true ->
                                 hashable (get post "slug"))
               (merged_posts reg content_dir)) :
  keeps_first_of_each_slug ent reg content_dir /\
  (exists unique,
     _safe_parse_blog_posts ent reg content_dir true = Ok (validated_posts ent unique) /\
     sublist unique (merged_posts reg content_dir) /\
     Forall (fun post => truthy (get post "slug") = true) unique /\
     (forall k, List.filter (keyed "slug" k) unique =
                take 1 (List.filter (keyed "slug" k) (merged_posts reg content_dir))) /\
     (forall before post after, unique = before ++ post :: after ->
        validated_posts ent unique =
          validated_posts ent before ++
          match validate_post ent post with
          | Ok blog_post => [blog_post]
          | Raise _ => []
          end ++ validated_posts ent after)) /\
  (forall raws,
     Forall2 (fun parser raw_posts =>
                parse_directory parser (join content_dir "blog") "blog_post"
                  = Ok raw_posts /\
                Forall (fun raw_post => exists post, flatten_post raw_post = Ok post)
                  raw_posts)
       (List.filter (produces "blog_post") (_parsers reg)) raws ->
     Forall2 (fun raw_post post => flatten_post raw_post = Ok post)
       (concat raws) (merged_posts reg content_dir)).
Proof.
  destruct (unique_posts_ok (merged_posts reg content_dir) ∅ Hhash)
    as (unique & E & Hsub & Hfirst & Hall).
  assert (Hloader : _safe_parse_blog_posts ent reg content_dir true
                    = Ok (validated_posts ent unique)).
  { unfold _safe_parse_blog_posts. cbn [negb].
    rewrite all_raw_posts_eq. fold (merged_posts reg content_dir). cbn. now rewrite E. }
  assert (Hfirst' : forall k, List.filter (keyed "slug" k) unique =
                      take 1 (List.filter (keyed "slug" k) (merged_posts reg content_dir))).
  { intros k. rewrite Hfirst. now rewrite bool_decide_eq_false_2 by set_solver. }
  split; [exists unique; auto|]. split.
  - exists unique. split; [exact Hloader|]. split; [exact Hsub|]. split; [exact Hall|].
    split; [exact Hfirst'|].
    intros before post after ->. rewrite validated_posts_app. cbn [validated_posts].
    now destruct (validate_post ent post).
  - unfold merged_posts. generalize (List.filter (produces "blog_post") (_parsers reg)).
    intros parsers raws H.
    induction H as [|parser raw_posts parsers raws [Hdir Hflat] _ IH]; [constructor|].
    cbn [fmap list_fmap concat]. apply Forall2_app; [|exact IH].
    unfold posts_of_parser. rewrite Hdir. now apply flatten_posts_all.
Qed.

Lemma slugs_hashable_true (posts : list (gmap string pyval)) :
  forallb (fun post => match hash_key (get post "slug") with
                       | Ok _ => true
                       | Raise _ => false
                       end) posts = true ->
  Forall (fun post => truthy (get post "slug") = true -> hashable (get post "slug")) posts.
Proof.
  induction posts as [|post posts IH]; simpl; [constructor|].
  intros [Hp Hr]%andb_prop. constructor; [|now apply IH].
  intros _. destruct (hash_key (get post "slug")) as [k|] eqn:E; [|discriminate].
  now exists k.
Qed.

Lemma safe_parse_blog_posts_dedup_witness :
  Forall (fun post => truthy (get post "slug") = true -> hashable (get post "slug"))
    (merged_posts Samples.blog_registry ["content"]) /\
  keeps_first_of_each_slug Samples.strict Samples.blog_registry ["content"] /\
  (fun post => (get post "slug", get post "title", get post "content",
                get post "content_type")) <$> merged_posts Samples.blog_registry ["content"]
  = [ (VStr "a", VStr "From markdown", VStr "Hello", VStr "markdown");
      (VStr "b", VInt 5, VStr "Numbers", VStr "markdown");
      (VStr "a", VStr "From the notebook", VStr "<div>Hello</div>", VStr "markdown");
      (VNone, VStr "No slug", VStr "Lost", VStr "markdown");
      (VStr "c", VStr "Third", VStr "More", VStr "markdown") ] /\
  (fun entry => (get entry "slug", get entry "title", get entry "content_raw")) <$>
    match _safe_parse_blog_posts Samples.strict Samples.blog_registry ["content"] true with
    | Ok blog_posts => blog_posts
    | Raise _ => []
    end
  = [ (VStr "a", VStr "From markdown", VStr "Hello"); (VStr "c", VStr "Third", VStr "More") ].
Proof.
  assert (H : Forall (fun post => truthy (get post "slug") = true ->
                                  hashable (get post "slug"))
                (merged_posts Samples.blog_registry ["content"])).
  { apply slugs_hashable_true. vm_compute. reflexivity. }
  split; [exact H|]. split.
  - now destruct (safe_parse_blog_posts_dedup Samples.strict Samples.blog_registry
                    ["content"] H) as (Hclaim & _).
  - split; vm_compute; reflexivity.
Defined.

(** C2, as it is stated, for every sequence of merged posts: when one
    post has a list as its slug, the deduplication raises, the loader
    returns no post at all, and the first post with the slug [a] is
    not kept. *)
Lemma dedup_fails_on_unhashable_slug :
  (fun post => get post "slug") <$> merged_posts Samples.list_slug_registry ["content"]
    = [VStr "a"; VList [VStr "b"]] /\
  _safe_parse_blog_posts Samples.lenient Samples.list_slug_registry ["content"] true
    = Ok [] /\
  ~ keeps_first_of_each_slug Samples.lenient Samples.list_slug_registry ["content"].
Proof.
  set (reg := Samples.list_slug_registry).
  assert (E : _safe_parse_blog_posts Samples.lenient reg ["content"] true = Ok [])
    by (vm_compute; reflexivity).
  split; [vm_compute; reflexivity|]. split; [exact E|].
  intros (unique & Hloader & Hsub & Hfirst).
  rewrite E in Hloader. injection Hloader as Hnone.
  assert (Hvalid : Forall (fun post => exists entry,
                             validate_post Samples.lenient post = Ok entry)
                     (merged_posts reg ["content"])).
  { assert (Hb : forallb (fun post => match validate_post Samples.lenient post with
                                      | Ok _ => true
                                      | Raise _ => false
                                      end) (merged_posts reg ["content"]) = true)
      by (vm_compute; reflexivity).
    rewrite forallb_forall in Hb. apply Forall_forall. intros post Hpost.
    specialize (Hb post (proj1 (list_elem_of_In _ _) Hpost)).
    destruct (validate_post Samples.lenient post) as [entry|]; [eauto | discriminate]. }
  assert (Hunique : Forall (fun post => exists entry,
                              validate_post Samples.lenient post = Ok entry) unique).
  { rewrite Forall_forall in Hvalid |- *. intros post Hpost.
    apply Hvalid. now apply (elem_of_sublist unique). }
  apply validated_posts_length in Hunique. rewrite <- Hnone in Hunique.
  destruct unique as [|post rest]; [|discriminate].
  specialize (Hfirst (KStr "a")). apply (f_equal length) in Hfirst.
  assert (Hone : length (take 1 (List.filter (keyed "slug" (KStr "a"))
                                   (merged_posts reg ["content"]))) = 1%nat)
    by (vm_compute; reflexivity).
  rewrite Hone in Hfirst. discriminate.
Qed.

(** The two sources of the sample registry: one entry for the slug
    [a], the first parser's; the post with the numeric title is
    rejected and the post without a slug is dropped. *)
Example safe_parse_blog_posts_sample :
  (fun entry => (get entry "slug", get entry "title")) <$>
    match _safe_parse_blog_posts Samples.strict Samples.blog_registry ["content"] true with
    | Ok blog_posts => blog_posts
    | Raise _ => []
    end
  = [(VStr "a", VStr "From markdown"); (VStr "c", VStr "Third")].
Proof. vm_compute. reflexivity. Qed.

(** C9. Every entry of the loaded blog posts is the validated form of
    a flattened post that has a slug counting as true (present, not
    [None], not empty); leaving such a slug out of a post removes the
    post from what the deduplication keeps, and changes nothing
    else. *)
Theorem safe_parse_blog_posts_slugs (ent : Entities) (reg : ParserRegistry)
    (content_dir : path) (blog_dir_exists : bool) :
  let posts :=
    concat (posts_of_parser (join content_dir "blog") <$>
              List.filter (produces "blog_post") (_parsers reg)) in
  (exists blog_posts,
     _safe_parse_blog_posts ent reg content_dir blog_dir_exists = Ok blog_posts /\
     forall entry, In entry blog_posts ->
       exists post, In post posts /\ truthy (get post "slug") = true /\
                    validate_post ent post = Ok entry) /\
  (forall seen before post after,
     truthy (get post "slug") = false ->
     unique_posts seen (before ++ post :: after) = unique_posts seen (before ++ after)).
Proof.
  intros posts. split; [|intros; now apply unique_posts_slugless].
  unfold _safe_parse_blog_posts. destruct blog_dir_exists; cbn [negb].
  - rewrite all_raw_posts_eq. fold posts. cbn.
    destruct (unique_posts ∅ posts) as [unique|e] eqn:E; cbn.
    + eexists. split; [reflexivity|]. intros entry Hentry.
      destruct (validated_posts_inv _ _ _ Hentry) as (post & Hin & Hv).
      pose proof (unique_posts_inv _ _ _ E) as Hinv. rewrite Forall_forall in Hinv.
      destruct (Hinv post) as [Hp Ht]; [now apply list_elem_of_In|].
      exists post. auto.
    + exists []. split; [reflexivity|]. intros entry [].
  - exists []. split; [reflexivity|]. intros entry [].
Qed.

End BlogLoading.

(** ** The item processor *)

Section ItemProcessor.
Import Paths ZenFolio.
Implicit Types (d item_dict : gmap string pyval) (h : gmap loc (gmap string pyval)).

Lemma resolve_item_paths_lookup d key :
  _resolve_item_paths d !! key =
    (fun value =>
       if bool_decide (key ∈ path_fields) && truthy value
       then match value with VStr s => VStr (_resolve_path s) | _ => value end
       else value) <$> d !! key.
Proof.
  unfold _resolve_item_paths. rewrite map_lookup_imap.
  now destruct (d !! key).
Qed.

Lemma resolve_item_paths_other d key :
  key ∉ path_fields -> _resolve_item_paths d !! key = d !! key.
Proof.
  intros Hk. rewrite resolve_item_paths_lookup.
  rewrite bool_decide_eq_false_2 by exact Hk. now destruct (d !! key).
Qed.

Lemma resolve_item_paths_str d key s :
  key ∈ path_fields -> d !! key = Some (VStr s) ->
  _resolve_item_paths d !! key = Some (VStr (_resolve_path s)).
Proof.
  intros Hk Hs. rewrite resolve_item_paths_lookup, Hs.
  rewrite bool_decide_eq_true_2 by exact Hk. cbn.
  destruct (String.eqb_spec s "") as [->|]; reflexivity.
Qed.

Lemma get_parsers_ok (reg : ParserRegistry) content_type :
  hashable content_type ->
  exists ps, get_parsers_for_content_type reg content_type = Ok ps.
Proof.
  intros [k Hk]. unfold get_parsers_for_content_type.
  destruct (_parsers reg); [now exists []|].
  rewrite (bind_ok _ _ _ Hk). destruct k; eauto.
Qed.

(** With a hashable content type the content processor returns. *)
Lemma process_content_field_ok lib self content content_type :
  hashable content_type ->
  exists html, _process_content_field lib self content content_type = Ok html.
Proof.
  intros Hh. unfold _process_content_field.
  destruct (get_parsers_ok (parser_registry self) content_type Hh) as [ps Hps].
  rewrite (bind_ok _ _ _ Hps).
  destruct (match content_type with
            | VStr ct => first_processor ps ct content _
            | _ => None
            end) as [html|]; [now exists html|].
  destruct (markdown lib _ _) as [html|e]; cbn; eauto.
Qed.

(** *** The loop over the markdown keys *)

Lemma process_markdown_key_other lib self item_type ct skip d key d' k :
  process_markdown_key lib self item_type ct skip d key = Ok d' ->
  k <> key -> d' !! k = d !! k.
Proof.
  unfold process_markdown_key. intros H Hk.
  destruct (get d key) as [| | |value| |]; try (injection H as <-; reflexivity).
  destruct (negb (String.eqb value "")); [|injection H as <-; reflexivity].
  destruct (skip && String.eqb key "content"); [injection H as <-; reflexivity|].
  destruct (String.eqb item_type "service_item" && String.eqb key "description");
    [injection H as <-; reflexivity|].
  destruct (_process_content_field lib self value ct) as [html|e]; [|discriminate].
  cbn in H. injection H as <-. rewrite lookup_insert_ne; [reflexivity | congruence].
Qed.

Lemma process_markdown_key_ok lib self item_type ct skip d key :
  hashable ct ->
  exists d', process_markdown_key lib self item_type ct skip d key = Ok d'.
Proof.
  intros Hct. unfold process_markdown_key.
  destruct (get d key) as [| | |value| |]; eauto.
  destruct (negb (String.eqb value "")); eauto.
  destruct (skip && String.eqb key "content"); eauto.
  destruct (String.eqb item_type "service_item" && String.eqb key "description"); eauto.
  destruct (process_content_field_ok lib self value ct Hct) as [html ->]. cbn. eauto.
Qed.

(** What the loop does to one key depends on the value under that
    key alone. *)
Lemma process_markdown_key_local lib self item_type ct skip d1 d2 key d1' :
  d1 !! key = d2 !! key ->
  process_markdown_key lib self item_type ct skip d1 key = Ok d1' ->
  exists d2', process_markdown_key lib self item_type ct skip d2 key = Ok d2' /\
    d2' !! key = d1' !! key.
Proof.
  unfold process_markdown_key, get. intros Heq H. rewrite <- Heq.
  destruct (default VNone (d1 !! key)) as [| | |value| |];
    try (injection H as <-; exists d2; split; [reflexivity | now symmetry]).
  destruct (negb (String.eqb value ""));
    [|injection H as <-; exists d2; split; [reflexivity | now symmetry]].
  destruct (skip && String.eqb key "content");
    [injection H as <-; exists d2; split; [reflexivity | now symmetry]|].
  destruct (String.eqb item_type "service_item" && String.eqb key "description");
    [injection H as <-; exists d2; split; [reflexivity | now symmetry]|].
  destruct (_process_content_field lib self value ct) as [html|e]; [|discriminate].
  cbn in H. injection H as <-. eexists. split; [reflexivity|].
  now rewrite !lookup_insert_eq.
Qed.

Lemma process_markdown_keys_ok lib self item_type ct skip keys : forall d,
  hashable ct ->
  exists d', process_markdown_keys lib self item_type ct skip keys d = Ok d'.
Proof.
  induction keys as [|key keys IH]; intros d Hct; cbn [process_markdown_keys]; eauto.
  destruct (process_markdown_key_ok lib self item_type ct skip d key Hct) as [d1 E].
  rewrite (bind_ok _ _ _ E). now apply IH.
Qed.

Lemma process_markdown_keys_other lib self item_type ct skip keys : forall d d' k,
  process_markdown_keys lib self item_type ct skip keys d = Ok d' ->
  k ∉ keys -> d' !! k = d !! k.
Proof.
  induction keys as [|key keys IH]; intros d d' k; cbn [process_markdown_keys].
  - now intros [= <-].
  - intros H Hk. apply not_elem_of_cons in Hk as [Hne Hk].
    destruct (process_markdown_key lib self item_type ct skip d key) as [d1|e] eqn:E;
      [|discriminate].
    cbn in H. rewrite (IH _ _ _ H Hk).
    now apply (process_markdown_key_other _ _ _ _ _ _ _ _ _ E).
Qed.

(** After the loop, a key of the list holds what its own turn of the
    loop would have put there. *)
Lemma process_markdown_keys_at lib self item_type ct skip keys : forall d d' key,
  NoDup keys ->
  process_markdown_keys lib self item_type ct skip keys d = Ok d' ->
  key ∈ keys ->
  exists d1, process_markdown_key lib self item_type ct skip d key = Ok d1 /\
    d' !! key = d1 !! key.
Proof.
  induction keys as [|key0 keys IH]; intros d d' key Hnd H Hin.
  - now apply elem_of_nil in Hin.
  - apply NoDup_cons in Hnd as [Hnotin Hnd]. cbn [process_markdown_keys] in H.
    destruct (process_markdown_key lib self item_type ct skip d key0) as [d0|e] eqn:E;
      [|discriminate].
    cbn in H. apply elem_of_cons in Hin as [->|Hin].
    + exists d0. split; [exact E|].
      now apply (process_markdown_keys_other _ _ _ _ _ _ _ _ _ H).
    + destruct (IH _ _ _ Hnd H Hin) as (d1 & E1 & Hd1).
      assert (Hne : key <> key0) by (intros ->; contradiction).
      pose proof (process_markdown_key_other _ _ _ _ _ _ _ _ _ E Hne) as Hsame.
      destruct (process_markdown_key_local _ _ _ _ _ _ _ _ _ Hsame E1) as (d2 & E2 & Hd2).
      exists d2. split; [exact E2|]. congruence.
Qed.

(** *** The loop body *)

Lemma attach_schema_inv item_type seo d d' :
  attach_schema item_type seo d = Ok d' ->
  exists schema,
    d' = <["rendered_schema" := VStr schema]> d /\
    (schema <> "" ->
       exists g, seo = Some g /\
         (item_type = "publication_item" \/ item_type = "project_item")).
Proof.
  unfold attach_schema. destruct seo as [g|].
  - destruct (String.eqb_spec item_type "publication_item") as [->|Hpub].
    + destruct (generate_scholarly_article_schema g _) as [schema|e]; [|discriminate].
      cbn. intros [= <-]. exists schema. rewrite insert_insert_eq. split; [reflexivity|].
      intros _. exists g. auto.
    + destruct (String.eqb_spec item_type "project_item") as [->|Hproj].
      * destruct (generate_software_application_schema g _) as [schema|e]; [|discriminate].
        cbn. intros [= <-]. exists schema. rewrite insert_insert_eq. split; [reflexivity|].
        intros _. exists g. auto.
      * intros [= <-]. exists "". split; [reflexivity | congruence].
  - intros [= <-]. exists "". split; [reflexivity | congruence].
Qed.

Lemma attach_schema_ok item_type seo d :
  schema_total seo -> exists d', attach_schema item_type seo d = Ok d'.
Proof.
  intros Htotal. unfold attach_schema. destruct seo as [g|]; [|eauto].
  destruct (Htotal g eq_refl) as [Hs Hp].
  destruct (String.eqb item_type "publication_item").
  - destruct (Hs (<["rendered_schema" := VStr ""]> d)) as [schema ->]. cbn. eauto.
  - destruct (String.eqb item_type "project_item"); [|eauto].
    destruct (Hp (<["rendered_schema" := VStr ""]> d)) as [schema ->]. cbn. eauto.
Qed.

(** The loop body, step by step. *)
Lemma process_item_inv lib self item_type seo d d' :
  process_item lib self item_type seo d = Ok d' ->
  exists d2 d4 schema,
    process_markdown_keys lib self item_type (content_type_of item_type d)
      (skips_content item_type d) markdown_keys (prepared d) = Ok d2 /\
    let template_type := or_else (get d2 "template_name") (VStr item_type) in
    let d3 := <["template_type" := template_type]> d2 in
    (if truthy template_type
     then exists k html, hash_key template_type = Ok k /\
            render self template_type d3 seo = Ok html /\
            d4 = <["rendered_html" := VStr html]> d3
     else d4 = d3) /\
    d' = <["rendered_schema" := VStr schema]> d4 /\
    (schema <> "" ->
       exists g, seo = Some g /\
         (item_type = "publication_item" \/ item_type = "project_item")).
Proof.
  unfold process_item. fold (prepared d). fold (content_type_of item_type d).
  fold (skips_content item_type d).
  destruct (process_markdown_keys _ _ _ _ _ _ _) as [d2|e] eqn:E2; [|discriminate].
  cbn [mbind result_bind Py.bind].
  set (template_type := or_else (get d2 "template_name") (VStr item_type)).
  set (d3 := <["template_type" := template_type]> d2).
  destruct (truthy template_type) eqn:Ht.
  - unfold render_component.
    destruct (hash_key template_type) as [k|e] eqn:Hk; [|discriminate].
    cbn [mbind result_bind Py.bind].
    destruct (render self template_type d3 seo) as [html|e] eqn:Hr; [|discriminate].
    cbn [mbind result_bind Py.bind]. intros Hs.
    destruct (attach_schema_inv _ _ _ _ Hs) as (schema & -> & Hschema).
    exists d2, (<["rendered_html" := VStr html]> d3), schema.
    split; [reflexivity|]. cbn zeta. fold template_type. rewrite Ht.
    split; [exists k, html; auto|]. auto.
  - cbn [mbind result_bind Py.bind]. intros Hs.
    destruct (attach_schema_inv _ _ _ _ Hs) as (schema & -> & Hschema).
    exists d2, d3, schema. split; [reflexivity|]. cbn zeta. fold template_type.
    rewrite Ht. auto.
Qed.

Ltac closed_membership :=
  apply (bool_decide_unpack _); vm_compute; exact I.

Lemma prepared_other d k :
  k ∉ path_fields -> k <> "content_raw" -> prepared d !! k = d !! k.
Proof.
  intros Hp Hr. unfold prepared. rewrite resolve_item_paths_other by exact Hp.
  destruct (has_key d "content" && negb (has_key d "content_raw")); [|reflexivity].
  now rewrite lookup_insert_ne by congruence.
Qed.

(** The raw content: an existing [content_raw] stays, otherwise the
    content is copied there. *)
Lemma prepared_content_raw d :
  prepared d !! "content_raw" =
    match d !! "content_raw" with
    | Some raw => Some raw
    | None => d !! "content"
    end.
Proof.
  unfold prepared. rewrite resolve_item_paths_other by closed_membership.
  unfold has_key, get.
  destruct (d !! "content_raw") as [raw|] eqn:Eraw.
  - rewrite (bool_decide_eq_true_2 (is_Some (Some raw))) by eauto.
    rewrite andb_false_r. exact Eraw.
  - rewrite (bool_decide_eq_false_2 (is_Some None)) by (intros [? ?]; discriminate).
    destruct (d !! "content") as [c|] eqn:Ec.
    + rewrite bool_decide_eq_true_2 by eauto. cbn. now rewrite lookup_insert_eq.
    + rewrite bool_decide_eq_false_2 by (intros [? ?]; discriminate). cbn. exact Eraw.
Qed.

Lemma prepared_path d k :
  k ∈ path_fields -> prepared d !! k = _resolve_item_paths d !! k.
Proof.
  intros Hk. unfold prepared. rewrite !resolve_item_paths_lookup.
  destruct (has_key d "content" && negb (has_key d "content_raw")); [|reflexivity].
  rewrite lookup_insert_ne; [reflexivity|].
  intros <-. assert ("content_raw" ∉ path_fields) by closed_membership. contradiction.
Qed.

Lemma content_type_of_hashable item_type d :
  hashable (get d "content_type") -> hashable (content_type_of item_type d).
Proof.
  unfold content_type_of, get_or, get.
  rewrite prepared_other by (closed_membership || discriminate).
  destruct (d !! "content_type"); [auto|]. intros _. eexists; reflexivity.
Qed.

(** With hashable fields, a theme that renders every item and schema
    methods that return, the loop body returns. *)
Lemma process_item_ok lib self item_type seo d :
  fields_hashable d -> theme_total self seo -> schema_total seo ->
  exists d', process_item lib self item_type seo d = Ok d'.
Proof.
  intros [Hct Htn] Htheme Hschema. unfold process_item. fold (prepared d).
  fold (content_type_of item_type d). fold (skips_content item_type d).
  destruct (process_markdown_keys_ok lib self item_type (content_type_of item_type d)
              (skips_content item_type d) markdown_keys (prepared d)) as [d2 E2].
  { now apply content_type_of_hashable. }
  rewrite (bind_ok _ _ _ E2).
  assert (Hname : get d2 "template_name" = get d "template_name").
  { unfold get. rewrite (process_markdown_keys_other _ _ _ _ _ _ _ _ _ E2)
      by closed_membership.
    now rewrite prepared_other by (closed_membership || discriminate). }
  set (template_type := or_else (get d2 "template_name") (VStr item_type)).
  assert (Htt : hashable template_type).
  { subst template_type. unfold or_else. rewrite Hname.
    destruct (truthy (get d "template_name")); [exact Htn | eexists; reflexivity]. }
  destruct Htt as [k Hk].
  destruct (truthy template_type).
  - unfold render_component. rewrite (bind_ok _ _ _ Hk).
    destruct (Htheme template_type (<["template_type" := template_type]> d2))
      as [html Hr].
    rewrite Hr. cbn [mbind result_bind Py.bind].
    now apply attach_schema_ok.
  - cbn [mbind result_bind Py.bind]. now apply attach_schema_ok.
Qed.

Lemma markdown_keys_apart k :
  k ∈ markdown_keys ->
  (k ∉ path_fields) /\ k <> "content_raw" /\ k <> "template_type" /\
  k <> "rendered_html" /\ k <> "rendered_schema".
Proof.
  unfold markdown_keys. intros H.
  repeat (apply elem_of_cons in H as [->|H];
          [repeat split; (closed_membership || discriminate)|]).
  now apply elem_of_nil in H.
Qed.

Lemma path_fields_apart k :
  k ∈ path_fields ->
  (k ∉ markdown_keys) /\ k <> "content_raw" /\ k <> "template_type" /\
  k <> "rendered_html" /\ k <> "rendered_schema".
Proof.
  unfold path_fields. intros H.
  repeat (apply elem_of_cons in H as [->|H];
          [repeat split; (closed_membership || discriminate)|]).
  now apply elem_of_nil in H.
Qed.

Lemma written_keys_apart k :
  k ∉ written_keys ->
  (k ∉ path_fields) /\ (k ∉ markdown_keys) /\ k <> "content_raw" /\
  k <> "template_type" /\ k <> "rendered_html" /\ k <> "rendered_schema".
Proof.
  unfold written_keys. rewrite !not_elem_of_app, !not_elem_of_cons. tauto.
Qed.

(** What the loop body leaves in the dictionary. *)
Lemma process_item_facts lib self item_type seo d d' :
  process_item lib self item_type seo d = Ok d' ->
  (forall k, k ∉ written_keys -> d' !! k = d !! k) /\
  d' !! "template_type" = Some (or_else (get d "template_name") (VStr item_type)) /\
  (exists schema,
     d' !! "rendered_schema" = Some (VStr schema) /\
     (schema <> "" ->
        exists g, seo = Some g /\
          (item_type = "publication_item" \/ item_type = "project_item"))) /\
  d' !! "content_raw" =
    match d !! "content_raw" with
    | Some raw => Some raw
    | None => d !! "content"
    end /\
  (forall key, key ∈ markdown_keys ->
     exists d1,
       process_markdown_key lib self item_type (content_type_of item_type d)
         (skips_content item_type d) d key = Ok d1 /\
       d' !! key = d1 !! key) /\
  (forall k, k ∈ path_fields -> d' !! k = _resolve_item_paths d !! k).
Proof.
  intros H. destruct (process_item_inv _ _ _ _ _ _ H)
    as (d2 & d4 & schema & E2 & Hd4 & -> & Hschema).
  cbn zeta in Hd4.
  set (template_type := or_else (get d2 "template_name") (VStr item_type)) in *.
  set (d3 := <["template_type" := template_type]> d2) in *.
  assert (Hfinal : forall k, k <> "template_type" -> k <> "rendered_html" ->
            k <> "rendered_schema" ->
            <["rendered_schema" := VStr schema]> d4 !! k = d2 !! k).
  { intros k H1 H2 H3. rewrite lookup_insert_ne by congruence.
    assert (d4 !! k = d3 !! k) as ->.
    { destruct (truthy template_type); [|now subst d4].
      destruct Hd4 as (k0 & html & _ & _ & ->). now rewrite lookup_insert_ne by congruence. }
    subst d3. now rewrite lookup_insert_ne by congruence. }
  assert (Hkeep : forall k, k ∉ markdown_keys -> d2 !! k = prepared d !! k).
  { intros k Hk. now apply (process_markdown_keys_other _ _ _ _ _ _ _ _ _ E2). }
  assert (Hname : get d2 "template_name" = get d "template_name").
  { unfold get. rewrite Hkeep by closed_membership.
    now rewrite prepared_other by (closed_membership || discriminate). }
  split; [|split; [|split; [|split; [|split]]]].
  - intros k Hk. apply written_keys_apart in Hk as (H1 & H2 & H3 & H4 & H5 & H6).
    rewrite Hfinal, Hkeep by assumption. now apply prepared_other.
  - rewrite lookup_insert_ne by discriminate.
    assert (d4 !! "template_type" = d3 !! "template_type") as ->.
    { destruct (truthy template_type); [|now subst d4].
      destruct Hd4 as (k0 & html & _ & _ & ->). now rewrite lookup_insert_ne by discriminate. }
    subst d3. rewrite lookup_insert_eq. subst template_type. now rewrite Hname.
  - exists schema. split; [apply lookup_insert_eq | exact Hschema].
  - rewrite Hfinal, Hkeep by (closed_membership || discriminate).
    apply prepared_content_raw.
  - intros key Hkey. destruct (markdown_keys_apart key Hkey) as (H1 & H2 & H3 & H4 & H5).
    rewrite Hfinal by assumption.
    assert (Hnd : NoDup markdown_keys) by (apply (bool_decide_unpack _); vm_compute; exact I).
    destruct (process_markdown_keys_at _ _ _ _ _ _ _ _ key Hnd E2 Hkey)
      as (d1 & E1 & Hd1).
    destruct (process_markdown_key_local _ _ _ _ _ (prepared d) d key d1
                (prepared_other d key H1 H2) E1) as (d1' & E1' & Hd1').
    exists d1'. split; [exact E1' | congruence].
  - intros k Hk. destruct (path_fields_apart k Hk) as (H1 & H2 & H3 & H4 & H5).
    rewrite Hfinal, Hkeep by assumption. now apply prepared_path.
Qed.

Lemma process_item_shape lib self item_type seo d d' :
  process_item lib self item_type seo d = Ok d' ->
  processed_shape item_type seo d'.
Proof.
  intros H. destruct (process_item_facts _ _ _ _ _ _ H) as (Hsame & Htt & Hs & _).
  split; [|exact Hs]. rewrite Htt. unfold get.
  now rewrite Hsame by closed_membership.
Qed.

Lemma process_item_hashable lib self item_type seo d d' :
  process_item lib self item_type seo d = Ok d' ->
  fields_hashable d -> fields_hashable d'.
Proof.
  intros H. destruct (process_item_facts _ _ _ _ _ _ H) as (Hsame & _).
  unfold fields_hashable, get. now rewrite !Hsame by closed_membership.
Qed.

(** *** The loop over the items *)

Lemma item_dict_of_spec h it :
  match it with IDict l => l ∈ dom h | _ => True end ->
  let hl := item_dict_of h it in
  hl.1 !!! hl.2 = dict_of h it /\
  hl.2 ∈ dom hl.1 /\
  dom h ⊆ dom hl.1 /\
  (forall l, l ∈ dom h -> hl.1 !!! l = h !!! l) /\
  match it with
  | IDict l => hl.2 = l /\ hl.1 = h
  | _ => hl.2 ∉ dom h
  end.
Proof.
  assert (Halloc : forall d,
            let hl := alloc h d in
            hl.1 !!! hl.2 = d /\ hl.2 ∈ dom hl.1 /\ dom h ⊆ dom hl.1 /\
            (forall l, l ∈ dom h -> hl.1 !!! l = h !!! l) /\ hl.2 ∉ dom h).
  { intros d. unfold alloc. cbn. pose proof (is_fresh (dom h)) as Hfresh.
    split; [apply lookup_total_insert_eq|]. rewrite dom_insert_L.
    split; [apply elem_of_union_l, elem_of_singleton; reflexivity|].
    split; [apply union_subseteq_r|]. split; [|exact Hfresh].
    intros l Hl. apply lookup_total_insert_ne. intros <-. contradiction. }
  destruct it as [l|fields|kvs]; cbn.
  - intros Hin. auto 10.
  - intros _. apply Halloc.
  - intros _. apply Halloc.
Qed.

(** What the call leaves behind when it returns. *)
Lemma process_items_inv lib self item_type seo : forall items h h' out,
  items_exist h items ->
  _process_items lib self h items item_type seo = Ok (h', out) ->
  length out = length items /\
  dom h ⊆ dom h' /\
  (forall l k, l ∈ dom h -> k ∉ written_keys -> (h' !!! l) !! k = (h !!! l) !! k) /\
  (forall l, l ∈ dom h -> processed_shape item_type seo (h !!! l) ->
     processed_shape item_type seo (h' !!! l)) /\
  (forall i l, out !! i = Some l ->
     l ∈ dom h' /\ processed_shape item_type seo (h' !!! l)) /\
  (forall i it l, items !! i = Some it -> out !! i = Some l ->
     (forall l0, it = IDict l0 -> l = l0) /\
     (forall k, k ∉ written_keys -> (h' !!! l) !! k = dict_of h it !! k)).
Proof.
  induction items as [|it rest IH]; intros h h' out Hexist Hrun.
  - cbn in Hrun. injection Hrun as <- <-.
    split; [reflexivity|]. split; [reflexivity|]. split; [auto|]. split; [auto|].
    split; intros i; intros; rewrite lookup_nil in *; discriminate.
  - assert (Hvalid : match it with IDict l => l ∈ dom h | _ => True end).
    { destruct it; [|exact I..]. apply Hexist. now left. }
    destruct (item_dict_of_spec h it Hvalid) as (Hat & Hin & Hdom & Hframe & Hkind).
    cbn [_process_items] in Hrun.
    destruct (item_dict_of h it) as [h0 l] eqn:Hl. cbn [fst snd] in *.
    destruct (process_item lib self item_type seo (h0 !!! l)) as [d'|e] eqn:Ed';
      [|discriminate].
    cbn [mbind result_bind Py.bind] in Hrun.
    pose proof (process_item_facts _ _ _ _ _ _ Ed') as (Hsame & _).
    pose proof (process_item_shape _ _ _ _ _ _ Ed') as Hshape.
    set (h1 := <[l := d']> h0) in *.
    destruct (_process_items lib self h1 rest item_type seo) as [[h2 out2]|e] eqn:E;
      [|discriminate].
    cbn in Hrun. injection Hrun as <- <-.
    assert (Hdom1 : dom h0 ⊆ dom h1)
      by (subst h1; rewrite dom_insert_L; apply union_subseteq_r).
    assert (Hl1 : h1 !!! l = d') by apply lookup_total_insert_eq.
    assert (Hne1 : forall l1, l1 <> l -> h1 !!! l1 = h0 !!! l1).
    { intros l1 Hne. subst h1. now apply lookup_total_insert_ne. }
    assert (Hold : forall l1 k, l1 ∈ dom h -> k ∉ written_keys ->
              (h1 !!! l1) !! k = (h !!! l1) !! k).
    { intros l1 k Hl1' Hk. destruct (decide (l1 = l)) as [->|Hne].
      - rewrite Hl1, Hsame by exact Hk. now rewrite Hframe.
      - rewrite Hne1 by exact Hne. now rewrite Hframe. }
    assert (Hdict : forall it', In it' rest -> forall k, k ∉ written_keys ->
              dict_of h1 it' !! k = dict_of h it' !! k).
    { intros it' Hit' k Hk. destruct it' as [l'| |]; [|reflexivity..].
      cbn. apply Hold; [|exact Hk]. apply Hexist. now right. }
    assert (Hexist1 : items_exist h1 rest).
    { intros l' Hl'. apply Hdom1, Hdom, Hexist. now right. }
    destruct (IH h1 h2 out2 Hexist1 E) as (Hlen & Hdom' & Hkeys & Hpres & Hout & Hord).
    assert (Hl' : l ∈ dom h1) by apply Hdom1, Hin.
    split; [cbn; now rewrite Hlen|].
    split; [etrans; [exact Hdom | etrans; [exact Hdom1 | exact Hdom']]|].
    split; [|split; [|split]].
    + intros l1 k Hl1' Hk. rewrite Hkeys; [|apply Hdom1, Hdom, Hl1' | exact Hk].
      now apply Hold.
    + intros l1 Hl1' Hs. apply Hpres; [apply Hdom1, Hdom, Hl1'|].
      destruct (decide (l1 = l)) as [->|Hne]; [now rewrite Hl1|].
      rewrite Hne1 by exact Hne. now rewrite Hframe.
    + intros [|i] l1; cbn.
      * intros [= <-]. split; [apply Hdom', Hl'|].
        apply Hpres; [exact Hl'|]. now rewrite Hl1.
      * apply Hout.
    + intros [|i] it' l1; cbn.
      * intros [= <-] [= <-]. split.
        -- intros l0 ->. now destruct Hkind as [-> _].
        -- intros k Hk. rewrite Hkeys by assumption.
           rewrite Hl1, Hsame by exact Hk. now rewrite Hat.
      * intros Hit' Hl1'. destruct (Hord i it' l1 Hit' Hl1') as [Hsame' Hkeys'].
        split; [exact Hsame'|]. intros k Hk. rewrite Hkeys' by exact Hk.
        apply Hdict; [|exact Hk]. apply list_elem_of_In.
        now apply list_elem_of_lookup_2 in Hit'.
Qed.

Lemma dict_locs_In (items : list item) (l : loc) :
  In (IDict l) items -> l ∈ dict_locs items.
Proof.
  intros Hin. unfold dict_locs. apply list_elem_of_omap.
  exists (IDict l). split; [now apply list_elem_of_In | reflexivity].
Qed.

(** With distinct records, the records that follow an item are not
    touched by its turn of the loop. *)
Lemma process_items_step h it rest d' :
  items_exist h (it :: rest) -> distinct_records (it :: rest) ->
  let hl := item_dict_of h it in
  items_exist (<[hl.2 := d']> hl.1) rest /\
  distinct_records rest /\
  (forall it', In it' rest -> dict_of (<[hl.2 := d']> hl.1) it' = dict_of h it').
Proof.
  intros Hexist Hnd.
  assert (Hvalid : match it with IDict l => l ∈ dom h | _ => True end).
  { destruct it; [|exact I..]. apply Hexist. now left. }
  destruct (item_dict_of_spec h it Hvalid) as (Hat & Hin & Hdom & Hframe & Hkind).
  destruct (item_dict_of h it) as [h0 l] eqn:Hl. cbn [fst snd] in *.
  assert (Hnd' : distinct_records rest).
  { unfold distinct_records, dict_locs in *. destruct it; cbn in Hnd;
      [now apply NoDup_cons in Hnd as [_ ?] | exact Hnd..]. }
  split; [|split; [exact Hnd'|]].
  - intros l' Hl'. rewrite dom_insert_L. apply elem_of_union_r, Hdom, Hexist. now right.
  - intros [l'| |] Hit'; [|reflexivity..]. cbn.
    assert (Hl' : l' ∈ dom h) by (apply Hexist; now right).
    rewrite lookup_total_insert_ne; [now apply Hframe|].
    intros <-. destruct it as [l0| |].
    + destruct Hkind as [-> _]. unfold distinct_records, dict_locs in Hnd. cbn in Hnd.
      apply NoDup_cons in Hnd as [Hnotin _]. apply Hnotin. now apply dict_locs_In.
    + contradiction.
    + contradiction.
Qed.

(** A list of distinct records is processed exactly when each record
    can be processed on its own. *)
Lemma process_items_returns lib self item_type seo : forall items h,
  items_exist h items -> distinct_records items ->
  (exists h' out, _process_items lib self h items item_type seo = Ok (h', out)) <->
  Forall (fun it => processable lib self item_type seo (dict_of h it)) items.
Proof.
  induction items as [|it rest IH]; intros h Hexist Hnd.
  - split; [constructor | intros _; now exists h, []].
  - assert (Hvalid : match it with IDict l => l ∈ dom h | _ => True end).
    { destruct it; [|exact I..]. apply Hexist. now left. }
    destruct (item_dict_of_spec h it Hvalid) as (Hat & _).
    cbn [_process_items].
    pose proof (fun d' => process_items_step h it rest d' Hexist Hnd) as Hstep.
    destruct (item_dict_of h it) as [h0 l] eqn:Hl. cbn [fst snd] in *.
    split.
    + intros (h' & out & Hrun).
      destruct (process_item lib self item_type seo (h0 !!! l)) as [d'|e] eqn:Ed';
        [|discriminate].
      cbn [mbind result_bind Py.bind] in Hrun.
      destruct (Hstep d') as (Hexist1 & Hnd1 & Hdict).
      destruct (_process_items lib self (<[l := d']> h0) rest item_type seo)
        as [[h2 out2]|e] eqn:E; [|discriminate].
      constructor; [exists d'; now rewrite <- Hat|].
      assert (Hrest : Forall (fun it' => processable lib self item_type seo
                                           (dict_of (<[l := d']> h0) it')) rest).
      { apply (IH _ Hexist1 Hnd1). eauto. }
      rewrite Forall_forall in Hrest |- *. intros it' Hit'.
      rewrite <- (Hdict it') by now apply list_elem_of_In. now apply Hrest.
    + intros Hall. apply Forall_cons in Hall as [[d' Ed'] Hrest].
      rewrite Hat, Ed'. cbn [mbind result_bind Py.bind].
      destruct (Hstep d') as (Hexist1 & Hnd1 & Hdict).
      assert (Hrest1 : Forall (fun it' => processable lib self item_type seo
                                            (dict_of (<[l := d']> h0) it')) rest).
      { rewrite Forall_forall in Hrest |- *. intros it' Hit'.
        rewrite (Hdict it') by now apply list_elem_of_In. now apply Hrest. }
      apply (IH _ Hexist1 Hnd1) in Hrest1 as (h2 & out2 & E).
      rewrite E. cbn. eauto.
Qed.

(** *** Running the loop body twice *)

Lemma process_markdown_key_renders lib self item_type ct skip d key value :
  d !! key = Some (VStr value) -> value <> "" -> renders item_type skip key = true ->
  process_markdown_key lib self item_type ct skip d key =
    (html ← _process_content_field lib self value ct; Ok (<[key := VStr html]> d)).
Proof.
  intros Hv Hne Hr. unfold process_markdown_key, get. rewrite Hv. cbn.
  destruct (String.eqb_spec value "") as [|_]; [contradiction|]. cbn [negb].
  unfold renders in Hr. apply andb_prop in Hr as [H1 H2].
  apply negb_true_iff in H1, H2. now rewrite H1, H2.
Qed.

Lemma process_markdown_key_deferred lib self item_type ct d :
  process_markdown_key lib self item_type ct true d "content" = Ok d.
Proof.
  unfold process_markdown_key. destruct (get d "content"); try reflexivity.
  now destruct (negb (String.eqb s "")).
Qed.

Lemma content_type_of_rerun lib self item_type seo d d' :
  process_item lib self item_type seo d = Ok d' ->
  content_type_of item_type d' = content_type_of item_type d /\
  skips_content item_type d' = skips_content item_type d.
Proof.
  intros H. destruct (process_item_facts _ _ _ _ _ _ H) as (Hsame & _).
  assert (E : content_type_of item_type d' = content_type_of item_type d).
  { unfold content_type_of, get_or.
    rewrite !prepared_other by (closed_membership || discriminate).
    now rewrite Hsame by closed_membership. }
  split; [exact E|]. unfold skips_content. now rewrite E.
Qed.

(** *** The shape of the processed items *)

Lemma hashable_true (v : pyval) :
  match hash_key v with Ok _ => true | Raise _ => false end = true -> hashable v.
Proof. destruct (hash_key v) as [k|] eqn:E; [now exists k | discriminate]. Qed.

Lemma schema_total_none : schema_total None.
Proof. intros seo [=]. Qed.

Lemma schema_total_sample : schema_total (Some Samples.sample_seo).
Proof. intros seo [= <-]. split; intros d; eexists; reflexivity. Qed.

Lemma theme_total_sample seo : theme_total Samples.sample_site seo.
Proof. intros name d. eexists. reflexivity. Qed.

(** C10, as the code has it.  Take a list of items whose
    dictionaries exist.  [_process_items] does not return for every
    such list: an exception of the loop body leaves the call.  When
    it returns, the list it returns has the same length as the input
    and its i-th entry is the i-th item (the same dictionary, or the
    new dictionary made from the i-th object: the fields the
    processor does not write are the item's); every returned item
    carries [template_type], equal to its [template_name] when that
    counts as true and to the item type otherwise, and
    [rendered_schema], a string that can be non-empty only when a
    generator was supplied and the item type is [publication_item] or
    [project_item].  And for a list in which no dictionary occurs
    twice the call returns exactly when the loop body returns on
    every record taken alone. *)
Theorem process_items_shape lib self h items item_type seo
    (Hexist : items_exist h items) :
  (forall h' out,
     _process_items lib self h items item_type seo = Ok (h', out) ->
     length out = length items /\
     (forall i it l, items !! i = Some it -> out !! i = Some l ->
        (forall l0, it = IDict l0 -> l = l0) /\
        (forall k, k ∉ written_keys -> (h' !!! l) !! k = dict_of h it !! k)) /\
     (forall i l, out !! i = Some l -> processed_shape item_type seo (h' !!! l))) /\
  (distinct_records items ->
   ((exists h' out, _process_items lib self h items item_type seo = Ok (h', out)) <->
    Forall (fun it => processable lib self item_type seo (dict_of h it)) items)) /\
  (distinct_records items ->
   Forall (fun it => processable lib self item_type seo (dict_of h it)) items ->
   shape_invariant lib self item_type seo h items).
Proof.
  assert (Hshape : forall h' out,
            _process_items lib self h items item_type seo = Ok (h', out) ->
            length out = length items /\
            (forall i it l, items !! i = Some it -> out !! i = Some l ->
               (forall l0, it = IDict l0 -> l = l0) /\
               (forall k, k ∉ written_keys -> (h' !!! l) !! k = dict_of h it !! k)) /\
            (forall i l, out !! i = Some l -> processed_shape item_type seo (h' !!! l))).
  { intros h' out Hrun.
    destruct (process_items_inv lib self item_type seo items h h' out Hexist Hrun)
      as (Hlen & _ & _ & _ & Hout & Hord).
    split; [exact Hlen|]. split; [exact Hord|].
    intros i l Hl. now destruct (Hout i l Hl). }
  split; [exact Hshape|]. split; [now apply process_items_returns|].
  intros Hnd Hall.
  apply (process_items_returns lib self item_type seo items h Hexist Hnd) in Hall
    as (h' & out & Hrun).
  destruct (Hshape h' out Hrun) as (Hlen & Hord & Hout).
  exists h', out. split; [exact Hrun|]. split; [exact Hlen|]. split; [|exact Hout].
  intros i l0 l Hit Hl. now apply (Hord i (IDict l0) l Hit Hl).
Qed.

Lemma sample_items_processable item_type seo :
  schema_total seo ->
  Forall (fun it => processable Samples.sample_libs Samples.sample_site item_type seo
                      (dict_of Samples.sample_heap it))
    [IDict 0%nat; IObj Samples.sample_news].
Proof.
  intros Hschema.
  repeat constructor;
    (apply process_item_ok;
     [split; apply hashable_true; vm_compute; reflexivity
     | apply theme_total_sample | exact Hschema]).
Qed.

Lemma sample_items_exist :
  items_exist Samples.sample_heap [IDict 0%nat; IObj Samples.sample_news].
Proof.
  intros l [[= <-]|[[=]|[]]]. apply (bool_decide_unpack _). vm_compute. exact I.
Qed.

Lemma sample_items_distinct : distinct_records [IDict 0%nat; IObj Samples.sample_news].
Proof. apply (bool_decide_unpack _). vm_compute. exact I. Qed.

Lemma process_items_shape_witness :
  items_exist Samples.sample_heap [IDict 0%nat; IObj Samples.sample_news] /\
  shape_invariant Samples.sample_libs Samples.sample_site "project_item"
    (Some Samples.sample_seo) Samples.sample_heap [IDict 0%nat; IObj Samples.sample_news].
Proof.
  split; [exact sample_items_exist|].
  destruct (process_items_shape Samples.sample_libs Samples.sample_site
              Samples.sample_heap [IDict 0%nat; IObj Samples.sample_news]
              "project_item" (Some Samples.sample_seo) sample_items_exist)
    as (_ & _ & Hreturns).
  apply Hreturns; [exact sample_items_distinct|].
  apply sample_items_processable, schema_total_sample.
Defined.

(** The two sample items after processing: the template type of the
    project comes from the item type, that of the news entry from its
    [template_name]. *)
Example process_items_sample :
  match _process_items Samples.sample_libs Samples.sample_site Samples.sample_heap
          [IDict 0%nat; IObj Samples.sample_news] "project_item" None with
  | Ok (h', out) =>
      (fun l => (l, get (h' !!! l) "template_type", get (h' !!! l) "image",
                 get (h' !!! l) "content", get (h' !!! l) "rendered_schema")) <$> out
  | Raise _ => []
  end
  = [ (0%nat, VStr "project_item", VStr "static/logo.png", VNone, VStr "");
      (1%nat, VStr "news_item", VNone, VStr "<p>New release</p>", VStr "") ].
Proof. vm_compute. reflexivity. Qed.

(** C10, as it is stated, for every input list: an item whose
    [template_name] is a list cannot be looked up among the
    templates, and the call raises [TypeError] instead of returning a
    list. *)
Lemma process_items_raises :
  _process_items Samples.sample_libs Samples.sample_site ∅
    [IObj Samples.list_template] "news_item" None = Raise TypeError /\
  ~ shape_invariant Samples.sample_libs Samples.sample_site "news_item" None ∅
      [IObj Samples.list_template].
Proof.
  assert (E : _process_items Samples.sample_libs Samples.sample_site ∅
                [IObj Samples.list_template] "news_item" None = Raise TypeError)
    by (vm_compute; reflexivity).
  split; [exact E|]. intros (h' & out & Hrun & _). rewrite E in Hrun. discriminate.
Qed.

(** *** Processing a record again *)


Lemma process_items_obj lib self item_type seo h d d1 :
  process_item lib self item_type seo d = Ok d1 ->
  _process_items lib self h [IObj d] item_type seo
    = Ok (<[fresh (dom h) := d1]> h, [fresh (dom h)]).
Proof.
  intros E. cbn [_process_items item_dict_of alloc].
  rewrite lookup_total_insert_eq, (bind_ok _ _ _ E). cbn.
  now rewrite insert_insert_eq.
Qed.


Lemma process_item_markdown_field lib self item_type seo d d1 key value :
  process_item lib self item_type seo d = Ok d1 ->
  key ∈ markdown_keys -> d !! key = Some (VStr value) -> value <> "" ->
  renders item_type (skips_content item_type d) key = true ->
  exists html,
    _process_content_field lib self value (content_type_of item_type d) = Ok html /\
    d1 !! key = Some (VStr html).
Proof.
  intros E Hkey Hv Hne Hr.
  destruct (process_item_facts _ _ _ _ _ _ E) as (_ & _ & _ & _ & Hmd & _).
  destruct (Hmd key Hkey) as (dk & Ek & ->).
  rewrite (process_markdown_key_renders _ _ _ _ _ _ _ _ Hv Hne Hr) in Ek.
  destruct (_process_content_field lib self value _) as [html|e]; [|discriminate].
  cbn in Ek. injection Ek as <-. exists html. split; [reflexivity|].
  apply lookup_insert_eq.
Qed.

Lemma process_item_deferred lib self item_type seo d d1 :
  process_item lib self item_type seo d = Ok d1 ->
  skips_content item_type d = true -> d1 !! "content" = d !! "content".
Proof.
  intros E Hdefer.
  destruct (process_item_facts _ _ _ _ _ _ E) as (_ & _ & _ & _ & Hmd & _).
  destruct (Hmd "content") as (dk & Ek & ->); [closed_membership|].
  rewrite Hdefer, process_markdown_key_deferred in Ek. now injection Ek as <-.
Qed.



End ItemProcessor.

(** * Part III: further properties

    Properties of the code around the functions studied above: the
    rest of the registry, the loaders, the BibTeX parser that feeds
    the publication pages, academic service, the sitemap, the pages
    of the blog posts and the processing of a record in place. *)

Section RegistryInvariants.

Lemma parser_in_pid (p : ContentParser) (l : list ContentParser) :
  parser_in p l = true <-> pid p ∈ pid <$> l.
Proof.
  unfold parser_in. rewrite existsb_exists. split.
  - intros (q & Hq & E). apply Nat.eqb_eq in E. rewrite <- E.
    apply list_elem_of_fmap. exists q. split; [reflexivity | now apply list_elem_of_In].
  - intros (q & E & Hq)%list_elem_of_fmap. exists q.
    split; [now apply list_elem_of_In | now apply Nat.eqb_eq].
Qed.

Lemma register_parsers (reg : ParserRegistry) (p : ContentParser) :
  _parsers (register reg p) =
    if parser_in p (_parsers reg) then _parsers reg else _parsers reg ++ [p].
Proof. unfold register. now destruct (parser_in p (_parsers reg)). Qed.

Lemma register_known (reg : ParserRegistry) (p : ContentParser) :
  parser_in p (_parsers reg) = true -> register reg p = reg.
Proof. intros H. unfold register. now rewrite H. Qed.

Lemma parser_in_register (reg : ParserRegistry) (p q : ContentParser) :
  parser_in q (_parsers (register reg p)) =
    parser_in q (_parsers reg) || Nat.eqb (pid p) (pid q).
Proof.
  rewrite register_parsers. destruct (parser_in p (_parsers reg)) eqn:E.
  - destruct (Nat.eqb_spec (pid p) (pid q)) as [Heq|_]; [|now rewrite orb_false_r].
    rewrite orb_true_r. apply parser_in_pid. rewrite <- Heq. now apply parser_in_pid.
  - rewrite parser_in_app. cbn. now rewrite orb_false_r.
Qed.

Lemma register_nodup (reg : ParserRegistry) (p : ContentParser) :
  NoDup (pid <$> _parsers reg) -> NoDup (pid <$> _parsers (register reg p)).
Proof.
  intros H. rewrite register_parsers. destruct (parser_in p (_parsers reg)) eqn:E; [exact H|].
  rewrite fmap_app. apply NoDup_app. split; [exact H|]. split; [|apply NoDup_singleton].
  intros x Hx Hp. cbn in Hp. apply list_elem_of_singleton in Hp as ->.
  apply parser_in_pid in Hx. congruence.
Qed.

Lemma foldl_register (ps : list ContentParser) : forall reg,
  NoDup (pid <$> _parsers reg) ->
  NoDup (pid <$> _parsers (foldl register reg ps)) /\
  (forall q, parser_in q (_parsers (foldl register reg ps)) =
             parser_in q (_parsers reg) || parser_in q ps) /\
  exists added, _parsers (foldl register reg ps) = _parsers reg ++ added /\
                sublist added ps.
Proof.
  induction ps as [|p ps IH]; intros reg Hnd; cbn [foldl].
  - split; [exact Hnd|]. split; [intros q; now rewrite orb_false_r|].
    exists []. now rewrite app_nil_r.
  - destruct (IH (register reg p) (register_nodup reg p Hnd)) as (Hnd' & Hin & added & E & Hsub).
    split; [exact Hnd'|]. split.
    + intros q. rewrite Hin, parser_in_register. cbn. rewrite Nat.eqb_sym.
      now rewrite orb_assoc.
    + rewrite E, register_parsers. destruct (parser_in p (_parsers reg)).
      * exists added. split; [reflexivity|]. now apply sublist_cons.
      * exists (p :: added). rewrite <- app_assoc. split; [reflexivity|].
        now apply sublist_skip.
Qed.

Lemma parser_in_same_pid (p q : ContentParser) (l : list ContentParser) :
  pid q = pid p -> parser_in q l = parser_in p l.
Proof. intros E. unfold parser_in. now rewrite E. Qed.

Lemma filter_twice {A} (f g k : A -> bool) (l : list A) :
  (forall x, k x = g x && f x) ->
  List.filter f (List.filter g l) = List.filter k l.
Proof.
  intros Hk. induction l as [|x l IH]; [reflexivity|]. cbn [List.filter].
  rewrite Hk. destruct (g x); cbn [andb List.filter]; [|exact IH].
  destruct (f x); now rewrite IH.
Qed.

(** The parsers of the registry after more registrations: those it
    had, followed by the first registration of every parser it did
    not have. *)
Lemma foldl_register_first (ps : list ContentParser) : forall reg,
  _parsers (foldl register reg ps) =
    _parsers reg ++
    List.filter (fun q => negb (parser_in q (_parsers reg))) (first_registrations ps).
Proof.
  induction ps as [|p ps IH]; intros reg; cbn [foldl first_registrations].
  - cbn. now rewrite app_nil_r.
  - rewrite IH, register_parsers. cbn [List.filter].
    destruct (parser_in p (_parsers reg)) eqn:Hp; cbn [negb].
    + f_equal. symmetry. apply filter_twice. intros q.
      destruct (Nat.eqb_spec (pid q) (pid p)) as [Heq|_]; [|reflexivity].
      cbn. now rewrite (parser_in_same_pid p q _ Heq), Hp.
    + rewrite <- app_assoc. cbn [app]. do 2 f_equal. symmetry.
      apply filter_twice. intros q. rewrite parser_in_app. cbn.
      rewrite orb_false_r, negb_orb, (Nat.eqb_sym (pid p) (pid q)).
      apply andb_comm.
Qed.

(** X1. A registry lists every parser once, at the place of its
    first registration.  Registering a parser the registry knows
    changes nothing, whenever it was registered; the registry built by
    registering [ps] in order holds exactly the first occurrence of
    every parser of [ps], by identity, in the order of [ps], so later
    registrations of a parser neither move nor repeat it. *)
Theorem registry_no_duplicates (ps : list ContentParser) (p : ContentParser) :
  (forall reg, parser_in p (_parsers reg) = true -> register reg p = reg) /\
  (forall reg, register (register reg p) p = register reg p) /\
  _parsers (registry_of ps) = first_registrations ps /\
  (parser_in p ps = true -> registry_of (ps ++ [p]) = registry_of ps) /\
  NoDup (pid <$> _parsers (registry_of ps)) /\
  parser_in p (_parsers (registry_of ps)) = parser_in p ps /\
  sublist (_parsers (registry_of ps)) ps.
Proof.
  assert (Hin : parser_in p (_parsers (registry_of ps)) = parser_in p ps).
  { destruct (foldl_register ps empty_registry) as (_ & Hin & _); [constructor|].
    unfold registry_of. now rewrite Hin. }
  split; [intros reg; apply register_known|]. split; [|split; [|split; [|split; [|split]]]].
  - intros reg. apply register_known. rewrite parser_in_register.
    now rewrite Nat.eqb_refl, orb_true_r.
  - unfold registry_of. rewrite foldl_register_first. cbn.
    induction (first_registrations ps) as [|q l IH]; [reflexivity|].
    cbn. now rewrite IH.
  - intros Hp. unfold registry_of. rewrite foldl_app. cbn [foldl].
    apply register_known. fold (registry_of ps). now rewrite Hin.
  - apply foldl_register. constructor.
  - exact Hin.
  - destruct (foldl_register ps empty_registry) as (_ & _ & added & E & Hsub);
      [constructor|].
    unfold registry_of. now rewrite E.
Qed.

(** A parser registered again after another one stays first. *)
Example registry_first_registration :
  pid <$> _parsers (registry_of [Samples.md_parser; Samples.sniffing_parser;
                                 Samples.md_parser]) = [0%nat; 1%nat].
Proof. reflexivity. Qed.

End RegistryInvariants.

Section HomepageCount.
Import Pages.

Lemma filter_split_perm {A} (f : A -> bool) (l : list A) :
  Permutation (List.filter f l ++ List.filter (fun x => negb (f x)) l) l.
Proof.
  induction l as [|a l IH]; cbn; [constructor|].
  destruct (f a); cbn.
  - now constructor.
  - rewrite <- Permutation_middle. now constructor.
Qed.

Lemma homepage_pubs_take (publications : list (gmap string pyval)) (n : Z) :
  0 <= n ->
  homepage_pubs publications (Some n) =
    take (Z.to_nat n)
      (List.filter is_highlighted publications ++
       List.filter (fun pub => negb (is_highlighted pub)) publications).
Proof.
  intros Hn. unfold homepage_pubs.
  set (highlighted := List.filter is_highlighted publications).
  set (others := List.filter _ publications).
  rewrite (slice_to_nonneg highlighted n Hn), take_app.
  destruct (Z.ltb_spec (Z.of_nat (length (take (Z.to_nat n) highlighted))) n) as [Hlt|Hge].
  - rewrite slice_to_nonneg by lia. do 2 f_equal. rewrite length_take in *. lia.
  - replace (Z.to_nat n - length highlighted)%nat with 0%nat
      by (rewrite length_take in Hge; lia).
    now rewrite take_0, app_nil_r.
Qed.

(** X2. The homepage fills up to the configured count whenever there
    are enough publications: for a count [n >= 0] it shows
    [min n (number of publications)] entries, and these are
    publications of the list, none of them used twice. *)
Theorem homepage_pubs_fill (publications : list (gmap string pyval)) (n : Z)
    (Hn : 0 <= n) :
  length (homepage_pubs publications (Some n)) =
    Nat.min (Z.to_nat n) (length publications) /\
  exists rest, Permutation (homepage_pubs publications (Some n) ++ rest) publications.
Proof.
  rewrite (homepage_pubs_take publications n Hn).
  set (ordered := List.filter is_highlighted publications ++ _).
  assert (Hperm : Permutation ordered publications) by apply filter_split_perm.
  split.
  - rewrite length_take. now rewrite (Permutation_length Hperm).
  - exists (drop (Z.to_nat n) ordered). now rewrite take_drop.
Qed.

Lemma homepage_pubs_fill_witness :
  0 <= 4 /\ length (homepage_pubs Samples.five_pubs (Some 4)) = 4%nat.
Proof.
  split; [lia|]. now destruct (homepage_pubs_fill Samples.five_pubs 4 ltac:(lia)) as [-> _].
Defined.

(** X3. A negative count is taken the way a slice takes it: the
    homepage shows the highlighted publications without the last
    [-n] of them, and no other publication is added. *)
Theorem homepage_pubs_negative (publications : list (gmap string pyval)) (n : Z)
    (Hn : n < 0) :
  let highlighted := List.filter is_highlighted publications in
  homepage_pubs publications (Some n) =
    take (length highlighted - Z.to_nat (- n)) highlighted.
Proof.
  intros highlighted. unfold homepage_pubs. fold highlighted. unfold slice_to.
  destruct (Z.leb_spec 0 n) as [|_]; [lia|].
  destruct (Z.ltb_spec (Z.of_nat (length (take (Z.to_nat (Z.of_nat (length highlighted) + n))
                                           highlighted))) n) as [Hlt|_]; [lia|].
  f_equal. lia.
Qed.

Lemma homepage_pubs_negative_witness :
  -1 < 0 /\
  homepage_pubs Samples.five_pubs (Some (-1)) = [Samples.pub "Factorized networks" 2023 true].
Proof.
  split; [lia|]. rewrite (homepage_pubs_negative Samples.five_pubs (-1) ltac:(lia)).
  vm_compute. reflexivity.
Defined.

End HomepageCount.

Section MixedKeys.
Import Pages.

Lemma as_strings_none (keys : list pyval) :
  Exists (fun key => is_str key = false) keys -> as_strings keys = None.
Proof.
  unfold as_strings. induction 1 as [key keys Hk | key keys _ IH]; cbn.
  - destruct key; try reflexivity. discriminate.
  - destruct key; try reflexivity. cbn in IH. now rewrite IH.
Qed.

Lemma as_numbers_none (keys : list pyval) :
  Exists (fun key => is_str key = true) keys -> as_numbers keys = None.
Proof.
  unfold as_numbers. induction 1 as [key keys Hk | key keys _ IH]; cbn.
  - destruct key; try reflexivity; discriminate.
  - destruct key; try reflexivity; cbn in IH; now rewrite IH.
Qed.

Lemma sorted_keys_mixed (keys : list pyval) :
  Exists (fun key => is_str key = false) keys ->
  Exists (fun key => is_str key = true /\ ~ numeric key) keys ->
  sorted_keys keys = Raise TypeError.
Proof.
  intros Hnum Hstr.
  assert (Hnon : Exists (fun key => ~ numeric key) keys).
  { eapply Exists_impl; [exact Hstr|]. now intros key [_ H]. }
  destruct (map_result_py_int_raise keys Hnon) as (e & E & He).
  assert (Eplain : sorted_plain keys = Raise TypeError).
  { unfold sorted_plain. rewrite (as_strings_none keys Hnum).
    rewrite as_numbers_none; [reflexivity|].
    eapply Exists_impl; [exact Hstr|]. now intros key [H _]. }
  unfold sorted_keys, sorted_by_int. rewrite (bind_raise _ _ _ E). cbn.
  destruct He as [-> | ->]; exact Eplain.
Qed.

(** X4. A grouped list page cannot order group keys of which one is
    a number and another a string that is not a number: [int] rejects
    the string, the plain sort then compares a number with a string,
    and the [TypeError] of that comparison leaves [_build_list_page]. *)
Theorem grouped_page_mixed_keys (group_by : string)
    (items : list (gmap string pyval)) (z : Z) (s : string)
    (Hhash : Forall hashable (group_keys group_by items))
    (Hz : In (VInt z) (group_keys group_by items))
    (Hs : In (VStr s) (group_keys group_by items))
    (Hnon : int_of_str s = None) :
  grouped_page group_by items = Raise TypeError.
Proof.
  destruct (group_items_ok group_by items [] [] Hhash) as (acc & E & Hgroups & Hnames & _).
  { split; [|split]; [reflexivity | constructor | constructor]. }
  cbn [app] in *.
  assert (Hname : forall v k, In v (group_keys group_by items) -> hash_key v = Ok k ->
            exists g, In g acc /\ hash_key g.2.1 = Ok k).
  { intros v k Hv Hk. destruct (group_keys_inv _ _ _ Hv) as (it & Hit & Hget & Ht).
    destruct (group_of_find acc k) as (g & _ & Hg & Hgk).
    - rewrite Hgroups. intros Hnil.
      assert (Hin : In it (List.filter (keyed group_by k) items)).
      { apply filter_In. split; [exact Hit|]. unfold keyed. rewrite Hget, Ht, Hk. cbn.
        now apply bool_decide_eq_true. }
      now rewrite Hnil in Hin.
    - exists g. split; [exact Hg|]. rewrite Forall_forall in Hnames.
      destruct (Hnames g) as [Hh _]; [now apply list_elem_of_In|]. now rewrite Hh, Hgk. }
  unfold grouped_page. rewrite (bind_ok _ _ _ E).
  rewrite (bind_raise _ TypeError); [reflexivity|].
  apply sorted_keys_mixed.
  - destruct (Hname (VInt z) (KInt z) Hz eq_refl) as (g & Hg & Hh).
    apply Exists_exists. exists g.2.1. split.
    + apply (list_elem_of_fmap_2 (fun g => g.2.1)). now apply list_elem_of_In.
    + destruct g.2.1; try reflexivity. discriminate.
  - destruct (Hname (VStr s) (KStr s) Hs eq_refl) as (g & Hg & Hh).
    apply Exists_exists. exists g.2.1. split.
    + apply (list_elem_of_fmap_2 (fun g => g.2.1)). now apply list_elem_of_In.
    + destruct g.2.1 as [| b | z' | s' | |]; try discriminate.
      injection Hh as ->. split; [reflexivity|]. intros [n Hn]. cbn in Hn.
      now rewrite Hnon in Hn.
Qed.

Lemma grouped_page_mixed_keys_witness :
  grouped_page "year"
    [ {[ "title" := VStr "Tensor methods"; "year" := VInt 2023 ]};
      {[ "title" := VStr "Deep priors"; "year" := VStr "in press" ]} ]
  = Raise TypeError.
Proof.
  apply (grouped_page_mixed_keys _ _ 2023 "in press").
  - repeat constructor; apply hashable_true; vm_compute; reflexivity.
  - vm_compute. auto.
  - vm_compute. auto.
  - vm_compute. reflexivity.
Defined.

End MixedKeys.

Section ItemProcessorFrame.
Import Paths ZenFolio.
Implicit Types (d item_dict : gmap string pyval) (h : gmap loc (gmap string pyval)).

Ltac listed := apply (bool_decide_unpack _); vm_compute; exact I.

(** X5. [_resolve_item_paths] keeps the keys of the dictionary and
    touches nothing but the path fields that hold text: every other
    field, and a path field holding [None], a number or a list, is
    left as it was; a text is replaced by its resolved path, so an
    external URL stays; no field is ever set to [None]. *)
Theorem resolve_item_paths_frame d :
  dom (_resolve_item_paths d) = dom d /\
  (forall k, k ∉ path_fields -> _resolve_item_paths d !! k = d !! k) /\
  (forall k v, d !! k = Some v -> is_str v = false ->
     _resolve_item_paths d !! k = Some v) /\
  (forall k s, k ∈ path_fields -> d !! k = Some (VStr s) ->
     _resolve_item_paths d !! k = Some (VStr (_resolve_path s)) /\
     (Utils.is_external_url s = true -> _resolve_item_paths d !! k = Some (VStr s))) /\
  (forall k, _resolve_item_paths d !! k = Some VNone -> d !! k = Some VNone).
Proof.
  split; [|split; [|split; [|split]]].
  - apply set_eq. intros k. rewrite !elem_of_dom, resolve_item_paths_lookup.
    apply fmap_is_Some.
  - intros k. apply resolve_item_paths_other.
  - intros k v Hv Hs. rewrite resolve_item_paths_lookup, Hv. cbn.
    destruct (bool_decide (k ∈ path_fields) && truthy v); [|reflexivity].
    destruct v; try reflexivity. discriminate.
  - intros k s Hk Hs. rewrite (resolve_item_paths_str d k s Hk Hs).
    split; [reflexivity|]. intros Hext. unfold _resolve_path. now rewrite Hext.
  - intros k. rewrite resolve_item_paths_lookup.
    destruct (d !! k) as [v|]; [|discriminate]. cbn.
    destruct (bool_decide (k ∈ path_fields) && truthy v); [|congruence].
    destruct v; congruence.
Qed.

Lemma process_items_frame_aux lib self item_type seo : forall items h h' out,
  _process_items lib self h items item_type seo = Ok (h', out) ->
  dom h ⊆ dom h' /\
  (forall l, l ∈ dom h -> ~ In (IDict l) items -> h' !! l = h !! l) /\
  (forall i it l, items !! i = Some it -> out !! i = Some l ->
     match it with
     | IDict l0 => l = l0
     | _ => l ∉ dom h
     end).
Proof.
  induction items as [|it items IH]; intros h h' out H; cbn [_process_items] in H.
  - injection H as <- <-. split; [reflexivity|]. split; [reflexivity|].
    intros i it l Hit. now rewrite lookup_nil in Hit.
  - destruct (item_dict_of h it) as [h0 l0] eqn:E0.
    destruct (process_item lib self item_type seo (h0 !!! l0)) as [d1|e] eqn:E1;
      [|discriminate].
    cbn in H.
    destruct (_process_items lib self (<[l0 := d1]> h0) items item_type seo)
      as [[h2 out2]|e] eqn:E2; [|discriminate].
    cbn in H. injection H as <- <-.
    destruct (IH _ _ _ E2) as (Hdom & Hframe & Hout).
    assert (Hh0 : dom h ⊆ dom h0 /\
              (forall l, l ∈ dom h -> ~ (it = IDict l) -> l <> l0 /\ h0 !! l = h !! l) /\
              match it with IDict l => l0 = l | _ => l0 ∉ dom h end).
    { destruct it as [l|fields|kvs]; cbn in E0.
      - injection E0 as <- <-. split; [reflexivity|]. split; [|reflexivity].
        intros l' _ Hne. split; [congruence | reflexivity].
      - injection E0 as <- <-. pose proof (is_fresh (dom h)) as Hfresh.
        split; [apply dom_insert_subseteq|]. split; [|exact Hfresh].
        intros l' Hl' _. split; [congruence|]. apply lookup_insert_ne. congruence.
      - injection E0 as <- <-. pose proof (is_fresh (dom h)) as Hfresh.
        split; [apply dom_insert_subseteq|]. split; [|exact Hfresh].
        intros l' Hl' _. split; [congruence|]. apply lookup_insert_ne. congruence. }
    destruct Hh0 as (Hsub0 & Hsame0 & Hl0).
    assert (Hsub1 : dom h ⊆ dom (<[l0 := d1]> h0))
      by (etrans; [exact Hsub0 | apply dom_insert_subseteq]).
    assert (Hin1 : forall l, l ∈ dom h -> l ∈ dom (<[l0 := d1]> h0))
      by (intros l; apply (proj1 (elem_of_subseteq _ _) Hsub1)).
    split; [etrans; [exact Hsub1 | exact Hdom]|]. split.
    + intros l Hl Hnot.
      destruct (Hsame0 l Hl) as [Hne Hsame]; [intros ->; apply Hnot; now left|].
      rewrite Hframe; [|now apply Hin1|intros Hin; apply Hnot; now right].
      rewrite lookup_insert_ne by congruence. exact Hsame.
    + intros [|i] it' l Hit Hl; cbn in Hit, Hl.
      * injection Hit as <-. injection Hl as <-. destruct it; auto.
      * specialize (Hout i it' l Hit Hl). destruct it'; [exact Hout| |];
          intros Hin; apply Hout; now apply Hin1.
Qed.

(** X6. [_process_items] works on the dictionaries of its list and
    on nothing else.  A dictionary that is not in the list is left as
    it was; an entry that is a dictionary comes back as that same
    dictionary, updated in place; an entry that is a typed entity or
    a sequence of pairs comes back as a new dictionary, one that did
    not exist before the call. *)
Theorem process_items_frame lib self item_type seo items h h' out
    (Hrun : _process_items lib self h items item_type seo = Ok (h', out)) :
  (forall l, l ∈ dom h -> ~ In (IDict l) items -> h' !! l = h !! l) /\
  (forall i l0 l, items !! i = Some (IDict l0) -> out !! i = Some l -> l = l0) /\
  (forall i it l, items !! i = Some it -> (forall l0, it <> IDict l0) ->
     out !! i = Some l -> l ∉ dom h).
Proof.
  destruct (process_items_frame_aux _ _ _ _ _ _ _ _ Hrun) as (_ & Hframe & Hout).
  split; [exact Hframe|]. split.
  - intros i l0 l Hit Hl. exact (Hout i _ l Hit Hl).
  - intros i it l Hit Hne Hl. specialize (Hout i it l Hit Hl).
    destruct it; [now destruct (Hne l0) | exact Hout | exact Hout].
Qed.

(** X7. The description of a service item is plain text: with the
    item type [service_item] the loop body never hands [description]
    to a content processor, whatever the content type of the item
    is. *)
Theorem service_description_plain lib self seo d d'
    (Hrun : process_item lib self "service_item" seo d = Ok d') :
  d' !! "description" = d !! "description".
Proof.
  destruct (process_item_facts _ _ _ _ _ _ Hrun) as (_ & _ & _ & _ & Hmd & _).
  destruct (Hmd "description") as (d1 & E & ->); [listed|].
  unfold process_markdown_key in E.
  destruct (get d "description") as [| | |value| |]; try (now injection E as <-).
  destruct (negb (String.eqb value "")); [|now injection E as <-].
  rewrite andb_false_r in E. cbn in E. now injection E as <-.
Qed.

Lemma process_items_frame_witness :
  exists h' out,
    _process_items Samples.sample_libs Samples.sample_site Samples.sample_heap
      [IObj Samples.sample_news] "news_item" None = Ok (h', out) /\
    h' !! 0%nat = Some Samples.sample_project /\
    (forall l, out !! 0%nat = Some l -> l ∉ dom Samples.sample_heap).
Proof.
  destruct (process_item_ok Samples.sample_libs Samples.sample_site "news_item" None
              Samples.sample_news) as [d1 E1].
  { split; apply hashable_true; vm_compute; reflexivity. }
  { apply theme_total_sample. }
  { exact schema_total_none. }
  pose proof (process_items_obj Samples.sample_libs Samples.sample_site "news_item" None
                Samples.sample_heap _ _ E1) as E.
  destruct (process_items_frame _ _ _ _ _ _ _ _ E) as (Hframe & _ & Hnew).
  eexists _, _. split; [exact E|]. split.
  - rewrite Hframe; [reflexivity | apply (bool_decide_unpack _); vm_compute; exact I |].
    intros [H|[]]. discriminate.
  - intros l Hl. apply (Hnew 0%nat (IObj Samples.sample_news) l); [reflexivity | discriminate | exact Hl].
Defined.

Lemma service_description_plain_witness :
  exists d',
    process_item Samples.sample_libs Samples.sample_site "service_item" None Samples.sample_service
      = Ok d' /\
    d' !! "description" = Some (VStr "Area chair, **NeurIPS**").
Proof.
  destruct (process_item_ok Samples.sample_libs Samples.sample_site "service_item" None
              Samples.sample_service) as [d' E].
  { split; apply hashable_true; vm_compute; reflexivity. }
  { apply theme_total_sample. }
  { exact schema_total_none. }
  exists d'. split; [exact E|].
  now rewrite (service_description_plain _ _ _ _ _ E).
Defined.

End ItemProcessorFrame.

Section BlogLoadingEdges.
Import Content.

Lemma flatten_posts_app (l1 l2 : list (gmap string pyval)) :
  Forall (fun raw_post => exists post, flatten_post raw_post = Ok post) l1 ->
  flatten_posts (l1 ++ l2) = flatten_posts l1 ++ flatten_posts l2.
Proof.
  induction 1 as [|raw_post l1 [post Hpost] _ IH]; [reflexivity|].
  cbn. now rewrite Hpost, IH.
Qed.

Lemma safe_parse_blog_posts_eq (ent : Entities) (reg : ParserRegistry)
    (content_dir : path) :
  _safe_parse_blog_posts ent reg content_dir true =
    match unique_posts ∅
            (concat (posts_of_parser (join content_dir "blog") <$>
                       List.filter (produces "blog_post") (_parsers reg))) with
    | Ok unique => Ok (validated_posts ent unique)
    | Raise _ => Ok []
    end.
Proof.
  unfold _safe_parse_blog_posts. cbn [negb]. rewrite all_raw_posts_eq. cbn.
  now destruct (unique_posts ∅ _).
Qed.

(** X8. A blog source that fails costs only its own posts.  When
    [parse_directory] of a parser raises, the blog is loaded as if
    that parser were not registered.  When a post of a parser cannot
    be flattened (its [metadata] is not a dictionary), the posts this
    parser listed before it are kept and the ones after it are
    lost. *)
Theorem blog_parser_failure_isolated (ent : Entities) (reg reg' : ParserRegistry)
    (content_dir : path) (before after : list ContentParser) (p : ContentParser) (e : exn)
    (Hreg : _parsers reg = before ++ p :: after)
    (Hreg' : _parsers reg' = before ++ after)
    (Hfail : parse_directory p (join content_dir "blog") "blog_post" = Raise e) :
  _safe_parse_blog_posts ent reg content_dir true =
    _safe_parse_blog_posts ent reg' content_dir true /\
  (forall q good bad rest e',
     parse_directory q (join content_dir "blog") "blog_post" = Ok (good ++ bad :: rest) ->
     Forall (fun raw_post => exists post, flatten_post raw_post = Ok post) good ->
     flatten_post bad = Raise e' ->
     posts_of_parser (join content_dir "blog") q = flatten_posts good).
Proof.
  split.
  - rewrite !safe_parse_blog_posts_eq, Hreg, Hreg'.
    rewrite !List.filter_app. cbn [List.filter].
    assert (Hnone : posts_of_parser (join content_dir "blog") p = [])
      by (unfold posts_of_parser; now rewrite Hfail).
    destruct (produces "blog_post" p); [|reflexivity].
    now rewrite !fmap_app, fmap_cons, !concat_app, concat_cons, Hnone.
  - intros q good bad rest e' Hq Hgood Hbad. unfold posts_of_parser. rewrite Hq.
    rewrite (flatten_posts_app _ _ Hgood). cbn. rewrite Hbad. apply app_nil_r.
Qed.

Lemma unique_posts_unhashable (posts : list (gmap string pyval)) : forall seen,
  Exists (fun post => truthy (get post "slug") = true /\
                      hash_key (get post "slug") = Raise TypeError) posts ->
  unique_posts seen posts = Raise TypeError.
Proof.
  induction posts as [|post posts IH]; intros seen H; [now inversion H|].
  cbn [unique_posts].
  destruct (truthy (get post "slug")) eqn:Ht.
  - destruct (hash_key (get post "slug")) as [k|e] eqn:Hk.
    + assert (Hrest : Exists (fun post => truthy (get post "slug") = true /\
                        hash_key (get post "slug") = Raise TypeError) posts).
      { inversion H as [? ? [_ Hbad]|]; subst; [congruence | assumption]. }
      cbn. destruct (bool_decide (k ∈ seen)); [now apply IH|].
      now rewrite (bind_raise _ _ _ (IH _ Hrest)).
    + cbn. destruct (get post "slug"); try discriminate; cbn in Hk; congruence.
  - apply IH. inversion H as [? ? [Hbad _]|]; subst; [congruence | assumption].
Qed.

(** X9. One slug that cannot be hashed empties the blog.  When any
    flattened post has a list or a dictionary as its slug, the
    membership test of the deduplication loop raises, the handler
    around the whole loader takes over, and no post is loaded at
    all.  A missing blog directory gives no posts either. *)
Theorem blog_unhashable_slug (ent : Entities) (reg : ParserRegistry)
    (content_dir : path) (post : gmap string pyval)
    (Hpost : In post (concat (posts_of_parser (join content_dir "blog") <$>
                                List.filter (produces "blog_post") (_parsers reg))))
    (Hslug : truthy (get post "slug") = true)
    (Hbad : ~ hashable (get post "slug")) :
  _safe_parse_blog_posts ent reg content_dir true = Ok [] /\
  _safe_parse_blog_posts ent reg content_dir false = Ok [].
Proof.
  split; [|reflexivity].
  rewrite safe_parse_blog_posts_eq, unique_posts_unhashable; [reflexivity|].
  apply Exists_exists. exists post. split; [now apply list_elem_of_In|].
  split; [exact Hslug|].
  destruct (get post "slug"); try reflexivity; exfalso; apply Hbad; eexists; reflexivity.
Qed.

(** X10. Flattening takes [content] and [content_type] from the top
    level of the raw post, never from its metadata: the flattened
    post has the other fields of the metadata, the content of the raw
    post (empty when missing) and its [content_type], which is
    [markdown] when the raw post has none at its top level, also
    when the metadata names another type.  A raw post without
    [metadata] is passed on as it is. *)
Theorem flatten_post_fields (raw_post metadata : gmap string pyval)
    (Hmeta : raw_post !! "metadata" = Some (VDict metadata)) :
  exists post,
    flatten_post raw_post = Ok post /\
    post !! "content" = Some (get_or raw_post "content" (VStr "")) /\
    post !! "content_type" = Some (get_or raw_post "content_type" (VStr "markdown")) /\
    (raw_post !! "content_type" = None -> post !! "content_type" = Some (VStr "markdown")) /\
    (forall k, k <> "content" -> k <> "content_type" -> post !! k = metadata !! k) /\
    (forall other, other !! "metadata" = None -> flatten_post other = Ok other).
Proof.
  eexists. split; [|split; [|split; [|split; [|split]]]].
  - unfold flatten_post, has_key, get. rewrite Hmeta.
    rewrite bool_decide_eq_true_2 by eauto. reflexivity.
  - rewrite lookup_insert_ne by discriminate. apply lookup_insert_eq.
  - apply lookup_insert_eq.
  - intros Hnone. rewrite lookup_insert_eq. unfold get_or. now rewrite Hnone.
  - intros k H1 H2. now rewrite !lookup_insert_ne by congruence.
  - intros other Hnone. unfold flatten_post, has_key. rewrite Hnone.
    rewrite bool_decide_eq_false_2; [reflexivity|]. now intros [? ?].
Qed.

Lemma blog_parser_failure_isolated_witness :
  _safe_parse_blog_posts Samples.lenient
    (registry_of [Samples.failing_source 5; Samples.blog_source 2 Samples.markdown_posts])
    ["content"] true =
  _safe_parse_blog_posts Samples.lenient
    (registry_of [Samples.blog_source 2 Samples.markdown_posts]) ["content"] true.
Proof.
  apply (blog_parser_failure_isolated Samples.lenient
           (registry_of [Samples.failing_source 5; Samples.blog_source 2 Samples.markdown_posts])
           (registry_of [Samples.blog_source 2 Samples.markdown_posts])
           ["content"] [] [Samples.blog_source 2 Samples.markdown_posts]
           (Samples.failing_source 5) OtherError);
    reflexivity.
Defined.

Lemma blog_unhashable_slug_witness :
  _safe_parse_blog_posts Samples.lenient
    (registry_of [Samples.blog_source 6 Samples.list_slug_posts]) ["content"] true = Ok [].
Proof.
  apply (blog_unhashable_slug Samples.lenient
           (registry_of [Samples.blog_source 6 Samples.list_slug_posts]) ["content"]
           {[ "slug" := VList [VStr "b"]; "title" := VStr "Second";
              "content" := VStr "World"; "content_type" := VStr "markdown" ]}).
  - right. left. apply map_eq. intros k. vm_compute. reflexivity.
  - reflexivity.
  - intros [k Hk]. discriminate.
Defined.

Lemma flatten_post_fields_witness :
  exists post,
    flatten_post Samples.notebook_post = Ok post /\
    post !! "content_type" = Some (VStr "markdown").
Proof.
  destruct (flatten_post_fields Samples.notebook_post
              {[ "slug" := VStr "demo"; "title" := VStr "Demo";
                 "content_type" := VStr "notebook" ]})
    as (post & E & _ & _ & Hct & _); [reflexivity|].
  exists post. split; [exact E|]. now apply Hct.
Defined.

End BlogLoadingEdges.

Section BioFromIndex.
Import Content.

(** X11. When [index.md] is parsed, the bio is built from its
    frontmatter with two fields set by the loader: [bio] is the text
    of the file, and [interests] are the interests of the
    configuration, which replace any the frontmatter gives; only a
    configuration without interests keeps those of the frontmatter,
    or an empty list.  When the [Bio] entity rejects these fields the
    result is the empty bio, not the author section of the
    configuration. *)
Theorem bio_from_index (ent : Entities) (reg : ParserRegistry) (config : Config)
    (content_dir : path) (p : ContentParser) (raw metadata : gmap string pyval)
    (a : AuthorConfig)
    (Hparser : get_parser_for_file reg (join content_dir "index.md") = Ok (Some p))
    (Hparse : parse_file p (join content_dir "index.md") = Ok (VDict raw))
    (Hmeta : raw !! "metadata" = Some (VDict metadata))
    (Hauthor : author config = Some a) :
  exists fields,
    _safe_parse_bio_data ent reg config content_dir =
      Ok (match Bio_new ent fields with
          | Ok bio => bio
          | Raise _ => Bio_default
          end) /\
    fields !! "bio" = Some (get_or raw "content" (VStr "")) /\
    fields !! "interests" =
      Some (match author_interests a with
            | Some interests => str_list interests
            | None => get_or metadata "interests" (VList [])
            end) /\
    (forall k, k <> "bio" -> k <> "interests" -> fields !! k = metadata !! k).
Proof.
  assert (Htruthy : truthy (VDict raw) = true).
  { cbn. apply negb_true_iff, bool_decide_eq_false. intros ->.
    now rewrite lookup_empty in Hmeta. }
  set (bio_data := <["bio" := get_or raw "content" (VStr "")]> metadata).
  set (fields :=
         match author_interests a with
         | Some i => <["interests" := str_list i]> bio_data
         | None =>
             if has_key bio_data "interests" then bio_data
             else <["interests" := VList []]> bio_data
         end).
  assert (E : parse_bio_data ent reg config content_dir = Bio_new ent fields).
  { unfold parse_bio_data.
    rewrite (bind_ok _ _ _ Hparser), (bind_ok _ _ _ Hparse), Htruthy.
    assert (Hg : get_or raw "metadata" (VDict ∅) = VDict metadata)
      by (unfold get_or; now rewrite Hmeta).
    cbn. rewrite Hg. cbn. rewrite Hauthor. reflexivity. }
  exists fields. split; [|split; [|split]].
  - unfold _safe_parse_bio_data. rewrite E.
    destruct (Bio_new ent fields) as [bio|e]; [reflexivity | now destruct e].
  - subst fields. destruct (author_interests a).
    + rewrite lookup_insert_ne by discriminate. apply lookup_insert_eq.
    + destruct (has_key bio_data "interests");
        [|rewrite lookup_insert_ne by discriminate]; apply lookup_insert_eq.
  - subst fields. destruct (author_interests a) as [i|]; [apply lookup_insert_eq|].
    unfold has_key, get_or.
    assert (Hb : bio_data !! "interests" = metadata !! "interests")
      by (apply lookup_insert_ne; discriminate).
    rewrite Hb. destruct (metadata !! "interests") as [v|] eqn:Hv.
    + rewrite bool_decide_eq_true_2 by eauto. exact Hb.
    + rewrite bool_decide_eq_false_2 by (now intros [? ?]). apply lookup_insert_eq.
  - intros k Hk1 Hk2. subst fields.
    assert (Hb : bio_data !! k = metadata !! k) by (apply lookup_insert_ne; congruence).
    destruct (author_interests a).
    + now rewrite lookup_insert_ne by congruence.
    + destruct (has_key bio_data "interests"); [exact Hb|].
      now rewrite lookup_insert_ne by congruence.
Qed.

Lemma bio_from_index_witness :
  exists bio,
    _safe_parse_bio_data Samples.lenient (registry_of [Samples.index_parser])
      Samples.sample_config ["content"] = Ok bio /\
    bio !! "bio" = Some (VStr "I study tensor methods.") /\
    bio !! "interests" =
      Some (str_list ["Tensor methods"; "Deep learning"; "Computer vision"; "Robotics"]).
Proof.
  destruct (bio_from_index Samples.lenient (registry_of [Samples.index_parser])
              Samples.sample_config ["content"] Samples.index_parser
              {[ "metadata" := VDict {[ "tagline" := VStr "Tensors everywhere";
                                        "interests" := VList [VStr "Gardening"] ]};
                 "content" := VStr "I study tensor methods." ]}
              {[ "tagline" := VStr "Tensors everywhere";
                 "interests" := VList [VStr "Gardening"] ]}
              Samples.sample_author)
    as (fields & E & Hbio & Hint & _); try reflexivity.
  exists fields. split; [exact E|]. split; [exact Hbio | exact Hint].
Defined.

End BioFromIndex.

Section MetaFallback.
Import Seo.

(** X12. The meta description falls back to the site description:
    for every page type the generator has no sentence for, and for
    the page types [blog_post] and [publication] when no item, or an
    empty one, comes with them. *)
Theorem generate_meta_description_fallback (repr_container : pyval -> string)
    (config : Config) (a : AuthorConfig) (name : string) (page_type : string)
    (Hauthor : author config = Some a) (Hname : author_name a = Some name) :
  (~ In page_type ["homepage"; "publications"; "blog"; "blog_post"; "publication";
                   "projects"; "talks"; "news"] ->
   forall item,
     generate_meta_description repr_container config page_type item
       = Ok (description (site config))) /\
  (page_type = "blog_post" \/ page_type = "publication" ->
   generate_meta_description repr_container config page_type None
     = Ok (description (site config)) /\
   generate_meta_description repr_container config page_type (Some ∅)
     = Ok (description (site config))).
Proof.
  split.
  - intros Hother item. unfold generate_meta_description.
    rewrite Hauthor. cbn. rewrite Hname. cbn.
    repeat match goal with
           | |- context [String.eqb page_type ?s] =>
               destruct (String.eqb_spec page_type s) as [->|_];
               [exfalso; apply Hother; cbn; tauto|]
           end.
    reflexivity.
  - intros [-> | ->]; unfold generate_meta_description;
      rewrite Hauthor; cbn; rewrite Hname; split; reflexivity.
Qed.

Lemma generate_meta_description_fallback_witness :
  generate_meta_description (fun _ => "") Samples.sample_config "contact" None
    = Ok "Personal website of Ada Lovelace".
Proof.
  destruct (generate_meta_description_fallback (fun _ => "") Samples.sample_config
              Samples.sample_author "Ada Lovelace" "contact" eq_refl eq_refl) as [H _].
  apply H. cbn. intros H'. repeat destruct H' as [H'|H']; discriminate || exact H'.
Defined.

End MetaFallback.

Section BibtexEntries.
Import Strings Bibtex.

(** Removing a character leaves none of it and keeps the others. *)
Lemma replace_char_none (c : ascii) (s : string) :
  replace_from 0 (String c "") "" s =
    (fix drop (s : string) : string :=
       match s with
       | EmptyString => EmptyString
       | String a s' => if Ascii.eqb c a then drop s' else String a (drop s')
       end) s.
Proof.
  induction s as [|a s IH]; [reflexivity|].
  cbn [replace_from String.prefix String.length Nat.sub].
  destruct (Ascii.eqb_spec c a) as [->|Hne].
  - destruct (ascii_dec a a) as [_|Hn]; [|now destruct Hn].
    replace (String.prefix "" s) with true by now destruct s.
    cbn. exact IH.
  - destruct (ascii_dec c a) as [Heq|_]; [contradiction|]. now rewrite IH.
Qed.

Lemma has_char_remove (c a : ascii) (s : string) :
  Seo.has_char a (replace (String c "") "" s) =
    if Ascii.eqb a c then false else Seo.has_char a s.
Proof.
  unfold replace. cbn [String.eqb]. rewrite replace_char_none.
  induction s as [|x s IH]; cbn; [now destruct (Ascii.eqb a c)|].
  destruct (Ascii.eqb_spec c x) as [<-|Hne].
  - rewrite IH. destruct (Ascii.eqb_spec a c) as [->|Hac]; [reflexivity|].
    destruct (Ascii.eqb_spec c a) as [->|_]; [contradiction | reflexivity].
  - cbn. rewrite IH. destruct (Ascii.eqb_spec a c) as [->|Hac]; [|reflexivity].
    destruct (Ascii.eqb_spec x c) as [->|_]; [contradiction | reflexivity].
Qed.

(** X13. What [_format_entry] makes of a BibTeX entry.  An entry
    without title or without year is left out.  Otherwise the year
    must read as an integer: the entry then becomes a publication
    whose [year] is that integer, whose [title] has lost every brace,
    and whose [highlight] is a boolean, true exactly when the entry's
    [highlight] field is [true], [yes] or [1] in any mix of cases;
    a year that is no integer makes [_format_entry] raise
    [ValueError]. *)
Theorem format_entry_spec (lib : BibLib) (terms : list string) (e : entry) :
  (e !! "title" = None \/ e !! "year" = None -> _format_entry lib terms e = Ok None) /\
  (forall title year_text,
     e !! "title" = Some title -> e !! "year" = Some year_text ->
     match int_of_str year_text with
     | Some year =>
         exists pub clean_title,
           _format_entry lib terms e = Ok (Some pub) /\
           pub !! "year" = Some (VInt year) /\
           pub !! "title" = Some (VStr clean_title) /\
           Seo.has_char "{" clean_title = false /\
           Seo.has_char "}" clean_title = false /\
           pub !! "highlight" =
             Some (VBool (bool_decide (lower (default "" (e !! "highlight"))
                                         ∈ ["true"; "yes"; "1"])))
     | None => _format_entry lib terms e = Raise ValueError
     end).
Proof.
  split.
  - intros [H|H]; unfold _format_entry; rewrite H; [reflexivity|].
    now destruct (e !! "title").
  - intros title year_text Ht Hy. unfold _format_entry. rewrite Ht, Hy. cbn [py_int].
    destruct (int_of_str year_text) as [year|]; [|reflexivity].
    eexists _, _. split; [reflexivity|]. split; [reflexivity|]. split; [reflexivity|].
    split; [|split; [|reflexivity]].
    + rewrite has_char_remove. cbn [Ascii.eqb Bool.eqb]. apply has_char_remove.
    + apply has_char_remove.
Qed.

Lemma link_label (label : string) (url : option string) :
  sublist (link label url).*1 [label].
Proof. destruct url; cbn; [reflexivity | apply sublist_nil_l]. Qed.

(** X14. The links of a publication come in one fixed order, each
    kind at most once: Paper, PDF, arXiv, Code, Website, Video,
    Slides, Poster, Demo, Supplement.  A DOI wins over a URL for the
    Paper link, [code] over [github] for the Code link, and
    [supplement] over [supplementary]. *)
Theorem extract_links_order (e : entry) :
  sublist (_extract_links e).*1
    ["Paper"; "PDF"; "arXiv"; "Code"; "Website"; "Video"; "Slides"; "Poster"; "Demo";
     "Supplement"] /\
  NoDup (_extract_links e).*1 /\
  (forall doi, e !! "doi" = Some doi ->
     List.filter (fun l => String.eqb l.1 "Paper") (_extract_links e)
       = [("Paper", "https://doi.org/" +:+ doi)]) /\
  (forall code, e !! "code" = Some code ->
     List.filter (fun l => String.eqb l.1 "Code") (_extract_links e) = [("Code", code)]) /\
  (forall supp, e !! "supplement" = Some supp ->
     List.filter (fun l => String.eqb l.1 "Supplement") (_extract_links e)
       = [("Supplement", supp)]).
Proof.
  assert (Hsub : sublist (_extract_links e).*1
            ["Paper"; "PDF"; "arXiv"; "Code"; "Website"; "Video"; "Slides"; "Poster";
             "Demo"; "Supplement"]).
  { unfold _extract_links. rewrite !fmap_app.
    change ["Paper"; "PDF"; "arXiv"; "Code"; "Website"; "Video"; "Slides"; "Poster";
            "Demo"; "Supplement"]
      with (["Paper"] ++ ["PDF"] ++ ["arXiv"] ++ ["Code"] ++ ["Website"] ++ ["Video"] ++
            ["Slides"] ++ ["Poster"] ++ ["Demo"] ++ ["Supplement"])%list.
    repeat apply sublist_app; try apply link_label.
    - destruct (e !! "doi"); [reflexivity | apply link_label].
    - destruct (e !! "code"); [reflexivity | apply link_label].
    - destruct (e !! "supplement"); [reflexivity | apply link_label]. }
  split; [exact Hsub|]. split.
  - eapply sublist_NoDup; [|exact Hsub].
    apply (bool_decide_unpack _). vm_compute. exact I.
  - assert (Hf : forall label label' url,
              label <> label' ->
              List.filter (fun l : string * string => String.eqb l.1 label)
                (link label' url) = []).
    { intros label label' [u|] Hne; [|reflexivity]. cbn.
      destruct (String.eqb_spec label' label); [congruence | reflexivity]. }
    split; [|split].
    + intros doi Hdoi. unfold _extract_links. rewrite Hdoi.
      rewrite !List.filter_app, !Hf by discriminate.
      destruct (e !! "code"), (e !! "supplement"); cbn; rewrite ?Hf by discriminate;
        reflexivity.
    + intros code Hcode. unfold _extract_links. rewrite Hcode.
      rewrite !List.filter_app, !Hf by discriminate.
      destruct (e !! "doi"), (e !! "supplement"); cbn; rewrite ?Hf by discriminate;
        reflexivity.
    + intros supp Hsupp. unfold _extract_links. rewrite Hsupp.
      rewrite !List.filter_app, !Hf by discriminate.
      destruct (e !! "doi"), (e !! "code"); cbn; rewrite ?Hf by discriminate;
        reflexivity.
Qed.

(** X15. The citation shown for a publication does not depend on
    the fields that only serve the website (links, image, abstract,
    highlight): two entries that agree on every other field have the
    same citation text. *)
Theorem raw_bibtex_ignores_website_fields (lib : BibLib) (e e' : entry)
    (Hsame : forall k, k ∉ website_fields -> e !! k = e' !! k) :
  _get_raw_bibtex lib e = _get_raw_bibtex lib e'.
Proof.
  unfold _get_raw_bibtex. do 2 f_equal. unfold clean_entry.
  apply map_eq. intros k. apply option_eq. intros v.
  rewrite !map_lookup_filter_Some. cbn.
  split; intros [Hv Hk]; (split; [|exact Hk]).
  - etrans; [symmetry; exact (Hsame k Hk) | exact Hv].
  - etrans; [exact (Hsame k Hk) | exact Hv].
Qed.

Lemma raw_bibtex_ignores_website_fields_witness :
  _get_raw_bibtex Samples.sample_bib
    (<["pdf" := "papers/networks.pdf"]>
       (Samples.bib_entry "networks" "Factorized networks" "2023")) =
  _get_raw_bibtex Samples.sample_bib (Samples.bib_entry "networks" "Factorized networks" "2023").
Proof.
  apply raw_bibtex_ignores_website_fields. intros k Hk.
  apply lookup_insert_ne. intros <-. apply Hk.
  apply (bool_decide_unpack _). vm_compute. exact I.
Defined.

End BibtexEntries.

Section BibtexFile.
Import Strings Bibtex Publications.

Lemma by_year_total (a b : gmap string pyval) :
  by_year a b = true \/ by_year b a = true.
Proof.
  unfold by_year. destruct (Z.leb_spec (year_key a) (year_key b)); [now left|].
  right. apply Z.leb_le. lia.
Qed.

(** The sort is stable: what it does to the publications of one
    year is nothing. *)
Lemma insert_desc_year (y : Z) (x : gmap string pyval) (l : list (gmap string pyval)) :
  List.filter (fun pub => year_key pub =? y) (insert_desc by_year x l) =
    if year_key x =? y then x :: List.filter (fun pub => year_key pub =? y) l
    else List.filter (fun pub => year_key pub =? y) l.
Proof.
  induction l as [|a l IH]; cbn [insert_desc List.filter]; [reflexivity|].
  unfold by_year at 1. destruct (Z.leb_spec (year_key a) (year_key x)) as [Hle|Hgt].
  - cbn [List.filter]. reflexivity.
  - cbn [List.filter]. rewrite IH.
    destruct (Z.eqb_spec (year_key x) y), (Z.eqb_spec (year_key a) y);
      try reflexivity. lia.
Qed.

Lemma sorted_desc_year (y : Z) (l : list (gmap string pyval)) :
  List.filter (fun pub => year_key pub =? y) (sorted_desc by_year l) =
    List.filter (fun pub => year_key pub =? y) l.
Proof.
  induction l as [|x l IH]; [reflexivity|].
  cbn [sorted_desc List.filter]. now rewrite insert_desc_year, IH.
Qed.

Lemma format_entries_fields (lib : BibLib) (terms : list string) (entries : list entry) :
  forall pubs, format_entries lib terms entries = Ok pubs ->
  Forall (fun pub => exists year b,
            pub !! "year" = Some (VInt year) /\ pub !! "highlight" = Some (VBool b)) pubs /\
  (length pubs <= length entries)%nat.
Proof.
  induction entries as [|e entries IH]; intros pubs H; cbn [format_entries] in H.
  - injection H as <-. split; [constructor | reflexivity].
  - destruct (_format_entry lib terms e) as [pub|err] eqn:E; [|discriminate].
    destruct (format_entries lib terms entries) as [rest|err] eqn:Erest; [|discriminate].
    cbn in H. injection H as <-. destruct (IH rest eq_refl) as [Hall Hlen].
    destruct pub as [p|]; [|split; [exact Hall | cbn; lia]].
    split; [|cbn; lia]. constructor; [|exact Hall].
    unfold _format_entry in E.
    destruct (e !! "title") as [title|]; [|discriminate].
    destruct (e !! "year") as [year_text|]; [|discriminate].
    destruct (py_int (VStr year_text)) as [year|err]; [|discriminate].
    cbn in E. injection E as <-. eexists _, _. split; reflexivity.
Qed.

Lemma parse_file_facts (lib : BibLib) (terms : list string)
    (exists_ : path -> bool) (load : path -> result (list entry))
    (file_path : path) (pubs : list (gmap string pyval)) :
  parse_file lib terms exists_ load file_path = Ok pubs ->
  Sorted (fun a b => year_key b <= year_key a) pubs /\
  Forall (fun pub => exists year b,
            pub !! "year" = Some (VInt year) /\ pub !! "highlight" = Some (VBool b)) pubs.
Proof.
  intros Hrun. unfold parse_file in Hrun. destruct (exists_ file_path); cbn [negb] in Hrun.
  - destruct (load file_path) as [entries|err]; [|discriminate]. cbn in Hrun.
    destruct (format_entries lib terms entries) as [formatted|err] eqn:E; [|discriminate].
    cbn in Hrun. injection Hrun as <-.
    destruct (format_entries_fields _ _ _ _ E) as [Hfields _].
    assert (Hperm : Permutation (sorted_desc by_year formatted) formatted)
      by apply sorted_desc_perm.
    split.
    + pose proof (sorted_desc_sorted by_year by_year_total formatted) as Hs.
      clear -Hs. induction Hs as [|a l _ IH Hhd]; constructor; [exact IH|].
      destruct Hhd as [|b l Hab]; constructor. now apply Z.leb_le.
    + rewrite Forall_forall in Hfields |- *. intros pub Hpub. apply Hfields.
      now rewrite <- Hperm.
  - injection Hrun as <-. split; constructor.
Qed.

(** X16. What [BibtexParser.parse_file] returns is ordered by year,
    newest first, and the order of the file is kept among the
    publications of one year.  It holds the formatted entries and
    nothing else: every publication has an integer [year] and a
    boolean [highlight], and there are no more of them than entries.
    A file that does not exist gives the empty list. *)
Theorem parse_file_sorted (lib : BibLib) (terms : list string)
    (exists_ : path -> bool) (load : path -> result (list entry))
    (file_path : path) (pubs : list (gmap string pyval))
    (Hrun : parse_file lib terms exists_ load file_path = Ok pubs) :
  Sorted (fun a b => year_key b <= year_key a) pubs /\
  Forall (fun pub => exists year b,
            pub !! "year" = Some (VInt year) /\ pub !! "highlight" = Some (VBool b)) pubs /\
  (exists_ file_path = false -> pubs = []) /\
  (exists_ file_path = true ->
   exists entries formatted,
     load file_path = Ok entries /\
     format_entries lib terms entries = Ok formatted /\
     Permutation pubs formatted /\
     (length pubs <= length entries)%nat /\
     forall year,
       List.filter (fun pub => year_key pub =? year) pubs =
       List.filter (fun pub => year_key pub =? year) formatted).
Proof.
  destruct (parse_file_facts _ _ _ _ _ _ Hrun) as [Hsorted Hfields].
  split; [exact Hsorted|]. split; [exact Hfields|].
  unfold parse_file in Hrun. destruct (exists_ file_path); cbn [negb] in Hrun.
  - split; [discriminate|]. intros _.
    destruct (load file_path) as [entries|err]; [|discriminate]. cbn in Hrun.
    destruct (format_entries lib terms entries) as [formatted|err] eqn:E; [|discriminate].
    cbn in Hrun. injection Hrun as <-.
    destruct (format_entries_fields _ _ _ _ E) as [_ Hlen].
    assert (Hperm : Permutation (sorted_desc by_year formatted) formatted)
      by apply sorted_desc_perm.
    exists entries, formatted. split; [reflexivity|]. split; [exact E|].
    split; [exact Hperm|]. split.
    + now rewrite (Permutation_length Hperm).
    + intros year. apply sorted_desc_year.
  - injection Hrun as <-. split; [reflexivity | discriminate].
Qed.

Lemma format_entries_bad_year (lib : BibLib) (terms : list string)
    (entries : list entry) :
  Exists (fun e => exists title year_text,
            e !! "title" = Some title /\ e !! "year" = Some year_text /\
            int_of_str year_text = None) entries ->
  format_entries lib terms entries = Raise ValueError.
Proof.
  induction entries as [|e entries IH]; intros H; [now inversion H|].
  cbn [format_entries].
  destruct (_format_entry lib terms e) as [pub|err] eqn:E.
  - assert (Hrest : Exists (fun e => exists title year_text,
                        e !! "title" = Some title /\ e !! "year" = Some year_text /\
                        int_of_str year_text = None) entries).
    { inversion H as [? ? (title & year_text & Ht & Hy & Hbad)|]; subst; [|assumption].
      unfold _format_entry in E. rewrite Ht, Hy in E. cbn in E.
      now rewrite Hbad in E. }
    cbn. now rewrite (IH Hrest).
  - unfold _format_entry in E.
    destruct (e !! "title") as [title|]; [|discriminate].
    destruct (e !! "year") as [year_text|]; [|discriminate].
    cbn in E. destruct (int_of_str year_text); [discriminate|].
    now injection E as <-.
Qed.

(** X17. [_safe_parse_publications] never lets an exception out,
    and answers every failure with an empty publication list: a
    missing [bib_path] setting, a missing file, a file the library
    cannot read, and also a single entry whose year is not an
    integer, which costs all the publications of the file. *)
Theorem safe_parse_publications_failures (lib : BibLib)
    (exists_ : path -> bool) (load : path -> result (list entry))
    (content_dir : path) (bib_path : string)
    (highlight_author : option (string + list string)) :
  let bibtex_file_path :=
    if startswith bib_path "/" then [bib_path] else join content_dir bib_path in
  let run := _safe_parse_publications lib exists_ load content_dir (Some bib_path)
               (Some highlight_author) in
  (exists pubs, run = Ok pubs) /\
  _safe_parse_publications lib exists_ load content_dir None (Some highlight_author)
    = Ok [] /\
  (exists_ bibtex_file_path = false -> run = Ok []) /\
  (forall err, load bibtex_file_path = Raise err -> run = Ok []) /\
  (forall entries e title year_text,
     exists_ bibtex_file_path = true -> load bibtex_file_path = Ok entries ->
     In e entries -> e !! "title" = Some title -> e !! "year" = Some year_text ->
     int_of_str year_text = None ->
     run = Ok []) /\
  (forall pubs,
     parse_file lib (all_highlight_terms highlight_author) exists_ load bibtex_file_path
       = Ok pubs ->
     run = Ok pubs).
Proof.
  intros bibtex_file_path run.
  assert (E : run =
            try_except
              (if negb (exists_ bibtex_file_path) then Ok []
               else parse_file lib (all_highlight_terms highlight_author)
                      exists_ load bibtex_file_path)
              (fun _ => Ok [])) by reflexivity.
  split; [|split; [reflexivity|split; [|split; [|split]]]].
  - rewrite E. destruct (negb (exists_ bibtex_file_path)); [now eexists|].
    destruct (parse_file _ _ _ _ _); cbn; now eexists.
  - intros Hno. rewrite E, Hno. reflexivity.
  - intros err Herr. rewrite E. destruct (exists_ bibtex_file_path) eqn:Hex; [|reflexivity].
    unfold parse_file. rewrite Hex. cbn [negb]. now rewrite (bind_raise _ _ _ Herr).
  - intros entries e title year_text Hex Hload He Ht Hy Hbad. rewrite E, Hex. cbn [negb].
    unfold parse_file. rewrite Hex. cbn [negb]. rewrite (bind_ok _ _ _ Hload).
    rewrite (bind_raise _ ValueError); [reflexivity|].
    apply format_entries_bad_year. apply Exists_exists. exists e.
    split; [now apply list_elem_of_In|]. eauto.
  - intros pubs Hp. rewrite E. destruct (exists_ bibtex_file_path) eqn:Hex; cbn [negb].
    + now rewrite Hp.
    + unfold parse_file in Hp. rewrite Hex in Hp. cbn in Hp. now injection Hp as <-.
Qed.

Lemma lower_char_idem (c : ascii) : lower_char (lower_char c) = lower_char c.
Proof.
  destruct c as [[] [] [] [] [] [] [] []]; vm_compute; reflexivity.
Qed.

Lemma lower_idem (s : string) : lower (lower s) = lower s.
Proof.
  induction s as [|c s IH]; [reflexivity|]. cbn. now rewrite lower_char_idem, IH.
Qed.

(** X18. Author highlighting looks at letters, not at their case,
    and an empty term highlights nobody.  The terms kept by the
    parser are never empty; whether an author is highlighted does not
    change when terms and name are put in lower case; with no terms
    the authors are joined by commas as they are. *)
Theorem highlight_authors_spec (highlight_author : option (string + list string))
    (terms authors : list string) (author : string) :
  Forall (fun term => term <> "") (all_highlight_terms highlight_author) /\
  should_highlight terms author =
    should_highlight (lower <$> List.filter (fun term => negb (String.eqb term "")) terms)
      (lower author) /\
  should_highlight ("" :: terms) author = should_highlight terms author /\
  _highlight_authors [] authors = String.concat ", " authors.
Proof.
  split; [|split; [|split]].
  - destruct highlight_author as [[term|l]|]; cbn.
    + destruct (String.eqb_spec term ""); repeat constructor; assumption.
    + apply Forall_forall. intros term Hterm%list_elem_of_In%filter_In.
      destruct Hterm as [_ Hne]. now destruct (String.eqb_spec term "").
    + constructor.
  - unfold should_highlight. induction terms as [|term terms IH]; [reflexivity|].
    cbn [existsb List.filter]. rewrite IH.
    destruct (String.eqb_spec term "") as [->|Hne]; cbn [negb andb orb]; [reflexivity|].
    cbn [fmap list_fmap existsb]. rewrite !lower_idem.
    destruct (String.eqb_spec (lower term) "") as [Hl|_]; [|reflexivity].
    destruct term; [contradiction | discriminate].
  - reflexivity.
  - unfold _highlight_authors. f_equal. induction authors as [|a authors IH]; [reflexivity|].
    rewrite fmap_cons. now f_equal.
Qed.

Lemma sample_publications :
  exists pubs,
    parse_file Samples.sample_bib ["lovelace"] (fun _ => true) Samples.sample_bib_file
      ["content"; "publications.bib"] = Ok pubs.
Proof.
  assert (H : match parse_file Samples.sample_bib ["lovelace"] (fun _ => true) Samples.sample_bib_file
                      ["content"; "publications.bib"] with
              | Ok _ => true
              | Raise _ => false
              end = true) by (vm_compute; reflexivity).
  destruct (parse_file _ _ _ _ _) as [pubs|e]; [now exists pubs | discriminate].
Qed.

Lemma parse_file_sorted_witness :
  exists pubs,
    parse_file Samples.sample_bib ["lovelace"] (fun _ => true) Samples.sample_bib_file
      ["content"; "publications.bib"] = Ok pubs /\
    Sorted (fun a b => year_key b <= year_key a) pubs.
Proof.
  destruct sample_publications as [pubs E]. exists pubs. split; [exact E|].
  now destruct (parse_file_sorted _ _ _ _ _ _ E) as [H _].
Defined.

End BibtexFile.

Section PublicationsPage.
Import Strings Bibtex Pages.

Lemma Sorted_strict (l : list Z) :
  Sorted (fun a b => b <= a) l -> NoDup l -> Sorted (fun a b => b < a) l.
Proof.
  induction 1 as [|a l _ IH Hhd]; intros Hnd; constructor.
  - apply IH. now apply NoDup_cons in Hnd.
  - destruct Hhd as [|b l Hab]; constructor.
    apply NoDup_cons in Hnd as [Ha _].
    assert (a <> b) by (intros ->; apply Ha; left). lia.
Qed.

(** In a list in descending order of keys, taking the elements of
    the higher keys and then those of the lower keys is taking both
    at once. *)
Lemma filter_runs {A} (key : A -> Z) (P Q : A -> bool) (l : list A) :
  Sorted (fun a b => key b <= key a) l ->
  (forall a b, P a = true -> Q b = true -> key b < key a) ->
  List.filter (fun a => P a || Q a) l = List.filter P l ++ List.filter Q l.
Proof.
  intros Hs Hpq. apply Sorted_StronglySorted in Hs; [|intros a b c; lia].
  induction Hs as [|a l _ IH Hall]; [reflexivity|]. cbn [List.filter].
  destruct (P a) eqn:Hp; cbn [orb].
  - destruct (Q a) eqn:Hq; [specialize (Hpq a a Hp Hq); lia|].
    cbn. now rewrite IH.
  - destruct (Q a) eqn:Hq; [|exact IH].
    assert (Hnone : List.filter P l = []).
    { destruct (List.filter P l) as [|b rest] eqn:E; [reflexivity|].
      assert (Hb : In b (List.filter P l)) by (rewrite E; now left).
      apply filter_In in Hb as [Hb Hpb]. rewrite Forall_forall in Hall.
      specialize (Hall b (proj2 (list_elem_of_In _ _) Hb)).
      specialize (Hpq b a Hpb Hq). lia. }
    rewrite IH, Hnone. reflexivity.
Qed.

Lemma concat_runs {A} (key : A -> Z) (l : list A) (ks : list Z) :
  Sorted (fun a b => key b <= key a) l ->
  Sorted (fun a b => b < a) ks ->
  concat ((fun k => List.filter (fun a => key a =? k) l) <$> ks) =
    List.filter (fun a => existsb (Z.eqb (key a)) ks) l.
Proof.
  intros Hl Hks. apply Sorted_StronglySorted in Hks; [|intros a b c; lia].
  induction Hks as [|k ks _ IH Hall].
  - cbn. induction l as [|a l IHl]; [reflexivity|]. cbn. apply IHl.
    now inversion Hl.
  - rewrite fmap_cons, concat_cons, IH. cbn [existsb]. symmetry.
    apply (filter_runs key); [exact Hl|].
    intros a b Ha Hb. apply Z.eqb_eq in Ha. apply existsb_exists in Hb as (k' & Hk' & Hb).
    apply Z.eqb_eq in Hb. rewrite Forall_forall in Hall.
    specialize (Hall k' (proj2 (list_elem_of_In _ _) Hk')). lia.
Qed.

Lemma year_group (pub : gmap string pyval) (year : Z) :
  (exists z b, pub !! "year" = Some (VInt z) /\ pub !! "highlight" = Some (VBool b)) ->
  year <> 0 ->
  in_group "year" (VInt year) pub = (year_key pub =? year).
Proof.
  intros (z & b & Hz & _) Hy. unfold in_group, keyed, year_key, get. cbn. rewrite Hz. cbn.
  destruct (Z.eqb_spec z year) as [->|Hne].
  - destruct (Z.eqb_spec year 0); [contradiction|]. cbn.
    now rewrite bool_decide_eq_true_2.
  - rewrite bool_decide_eq_false_2 by congruence. apply andb_false_r.
Qed.

(** X19. The publications page shows the list of the BibTeX parser
    cut into years.  Grouping what [parse_file] returned by [year]
    succeeds; the groups are the years that occur, the year 0
    excepted, in strictly descending order; each group holds the
    publications of its year; and reading the groups one after the
    other gives the parser's list back, without the publications of
    year 0, which the page leaves out. *)
Theorem publications_page_groups (lib : BibLib) (terms : list string)
    (exists_ : path -> bool) (load : path -> result (list entry))
    (file_path : path) (pubs : list (gmap string pyval))
    (Hrun : parse_file lib terms exists_ load file_path = Ok pubs) :
  exists years : list Z,
    grouped_page "year" pubs =
      Ok ((fun year => (VInt year, List.filter (fun pub => year_key pub =? year) pubs))
            <$> years) /\
    Sorted (fun a b => b < a) years /\
    (forall year, In year years <->
                  year <> 0 /\ exists pub, In pub pubs /\ year_key pub = year) /\
    concat ((fun year => List.filter (fun pub => year_key pub =? year) pubs) <$> years) =
      List.filter (fun pub => negb (year_key pub =? 0)) pubs.
Proof.
  destruct (parse_file_facts _ _ _ _ _ _ Hrun) as [Hsorted Hfields].
  rewrite Forall_forall in Hfields.
  assert (Hfield : forall pub, In pub pubs ->
            exists z b, pub !! "year" = Some (VInt z) /\ pub !! "highlight" = Some (VBool b)).
  { intros pub Hpub. now apply Hfields, list_elem_of_In. }
  assert (Hkeys : forall v, In v (group_keys "year" pubs) ->
            exists z pub, v = VInt z /\ z <> 0 /\ In pub pubs /\ year_key pub = z).
  { intros v Hv. destruct (group_keys_inv _ _ _ Hv) as (pub & Hpub & Hget & Ht).
    destruct (Hfield pub Hpub) as (z & b & Hz & _).
    unfold get in Hget. rewrite Hz in Hget. cbn in Hget. subst v.
    exists z, pub. split; [reflexivity|]. split.
    - cbn in Ht. now destruct (Z.eqb_spec z 0).
    - split; [exact Hpub|]. unfold year_key. now rewrite Hz. }
  destruct (grouped_page_general "year" pubs
              (fun out => Sorted (fun a b => int_value b <= int_value a) out))
    as (names & E & Hord & Hsub & Hcov & Hnd).
  { apply Forall_forall. intros v Hv%list_elem_of_In.
    destruct (Hkeys v Hv) as (z & _ & -> & _). now exists (KInt z). }
  { intros keys Hin _. apply sorted_keys_numeric. apply Forall_forall.
    intros v Hv%list_elem_of_In. destruct (Hkeys v (Hin v Hv)) as (z & _ & -> & _).
    now exists z. }
  assert (Hnames : names = VInt <$> (int_value <$> names)).
  { clear -Hsub Hkeys. induction names as [|v names IH]; [reflexivity|].
    destruct (Hkeys v) as (z & _ & -> & _); [apply Hsub; now left|].
    cbn. f_equal. apply IH. intros w Hw. apply Hsub. now right. }
  set (years := int_value <$> names) in *.
  assert (Hyears : forall year, In year years <->
            year <> 0 /\ exists pub, In pub pubs /\ year_key pub = year).
  { intros year. split.
    - intros Hy. assert (Hv : In (VInt year) names).
      { rewrite Hnames. apply list_elem_of_In, list_elem_of_fmap_2.
        now apply list_elem_of_In. }
      destruct (Hkeys _ (Hsub _ Hv)) as (z & pub & [= ->] & Hz & Hpub & Hk). eauto.
    - intros (Hy & pub & Hpub & Hk).
      destruct (Hfield pub Hpub) as (z & b & Hz & Hb).
      assert (z = year) as -> by (unfold year_key in Hk; now rewrite Hz in Hk).
      destruct (Hcov pub Hpub) as (v & Hv & Hg).
      { unfold get. rewrite Hz. cbn. now destruct (Z.eqb_spec year 0). }
      destruct (Hkeys v (Hsub v Hv)) as (z' & _ & -> & Hz' & _).
      rewrite (year_group pub z') in Hg by eauto.
      apply Z.eqb_eq in Hg. unfold year_key in Hg. rewrite Hz in Hg. subst z'.
      unfold years. apply list_elem_of_In.
      apply (list_elem_of_fmap_2' int_value names (VInt year));
        [now apply list_elem_of_In | reflexivity]. }
  assert (Hstrict : Sorted (fun a b => b < a) years).
  { apply Sorted_strict.
    - clear -Hord. unfold years. induction Hord as [|v l _ IH Hhd]; constructor; [exact IH|].
      destruct Hhd; constructor. assumption.
    - rewrite Hnames in Hnd. rewrite <- list_fmap_compose in Hnd.
      apply (NoDup_fmap_1 (fun year => hash_key (VInt year))) in Hnd. exact Hnd. }
  exists years. split; [|split; [exact Hstrict|split; [exact Hyears|]]].
  - rewrite E. f_equal. rewrite Hnames at 1. rewrite <- list_fmap_compose.
    apply list_fmap_ext. intros i year Hi. cbn. f_equal.
    apply filter_ext_in. intros pub Hpub. apply year_group; [now apply Hfield|].
    apply Hyears, list_elem_of_In, (list_elem_of_lookup_2 _ i). exact Hi.
  - rewrite (concat_runs year_key pubs years Hsorted Hstrict).
    apply filter_ext_in. intros pub Hpub.
    destruct (Z.eqb_spec (year_key pub) 0) as [H0|Hne]; cbn.
    + apply not_true_is_false. intros (k & Hk & Heq)%existsb_exists.
      apply Z.eqb_eq in Heq. apply Hyears in Hk as [Hk _]. congruence.
    + apply existsb_exists. exists (year_key pub). split; [|apply Z.eqb_refl].
      apply Hyears. eauto.
Qed.

Lemma publications_page_groups_witness :
  exists pubs years,
    parse_file Samples.sample_bib ["lovelace"] (fun _ => true) Samples.sample_bib_file
      ["content"; "publications.bib"] = Ok pubs /\
    grouped_page "year" pubs =
      Ok ((fun year => (VInt year, List.filter (fun pub => year_key pub =? year) pubs))
            <$> years) /\
    Sorted (fun a b => b < a) years.
Proof.
  destruct sample_publications as [pubs E].
  destruct (publications_page_groups _ _ _ _ _ _ E) as (years & Hg & Hs & _).
  exists pubs, years. auto.
Defined.

(** The sample file on the publications page: the years in order,
    each with the titles of its publications; the undated entry is
    not shown. *)
Example publications_page_sample :
  match parse_file Samples.sample_bib ["lovelace"] (fun _ => true) Samples.sample_bib_file
          ["content"; "publications.bib"] with
  | Ok pubs =>
      match grouped_page "year" pubs with
      | Ok groups =>
          (fun g : pyval * list (gmap string pyval) =>
             (g.1, (fun pub => get pub "title") <$> g.2)) <$> groups
      | Raise _ => []
      end
  | Raise _ => []
  end
  = [ (VInt 2023, [VStr "Tensor methods"; VStr "Factorized networks"]);
      (VInt 2021, [VStr "Facial affect"]);
      (VInt 2019, [VStr "Robust regression"]) ].
Proof. vm_compute. reflexivity. Qed.

End PublicationsPage.

Section ExtensionIndex.
Import DefaultParsers.

Lemma add_extension_key (p : ContentParser) (m : gmap string (list ContentParser))
    (ext e : string) :
  is_Some (add_extension p m ext !! e) <-> e = ext \/ is_Some (m !! e).
Proof.
  unfold add_extension.
  set (m1 := if bool_decide (is_Some (m !! ext)) then m else <[ext:=[]]> m).
  assert (H1 : is_Some (m1 !! e) <-> e = ext \/ is_Some (m !! e)).
  { subst m1. case_bool_decide as Hs.
    - split; [now right|]. intros [->|H]; assumption.
    - rewrite lookup_insert_is_Some. split.
      + intros [->|[_ H]]; [now left | now right].
      + intros [->|H]; [now left|]. destruct (decide (ext = e)); [now left | now right]. }
  destruct (parser_in p (default [] (m1 !! ext))); [exact H1|].
  rewrite lookup_insert_is_Some, H1. split.
  - intros [->|[_ H]]; [now left | exact H].
  - intros H. destruct (decide (ext = e)); [now left | now right].
Qed.

Lemma fold_add_extension_key (p : ContentParser) (exts : list string) :
  forall (m : gmap string (list ContentParser)) (e : string),
  is_Some (foldl (add_extension p) m exts !! e) <-> e ∈ exts \/ is_Some (m !! e).
Proof.
  induction exts as [|x exts IH]; intros m e; cbn [foldl].
  - split; [now right|]. intros [H|H]; [now apply not_elem_of_nil in H | exact H].
  - rewrite IH, add_extension_key, elem_of_cons. tauto.
Qed.

Lemma extension_keys (ps : list ContentParser) : forall reg,
  (forall e, is_Some (_extension_map reg !! e) <->
             exists p, In p (_parsers reg) /\ e ∈ supported_extensions p) ->
  forall e, is_Some (_extension_map (foldl register reg ps) !! e) <->
            exists p, In p (_parsers (foldl register reg ps)) /\ e ∈ supported_extensions p.
Proof.
  induction ps as [|p ps IH]; intros reg Hreg; [exact Hreg|].
  cbn [foldl]. apply IH. intros e. unfold register.
  destruct (parser_in p (_parsers reg)); [apply Hreg|]. cbn.
  rewrite fold_add_extension_key, Hreg. split.
  - intros [He|(q & Hq & He)].
    + exists p. split; [apply in_or_app; right; now left | exact He].
    + exists q. split; [apply in_or_app; now left | exact He].
  - intros (q & Hq & He). apply in_app_or in Hq as [Hq|[<-|[]]]; [right; eauto | now left].
Qed.

(** X20. The extension index of the registry agrees with its list of
    parsers.  After any sequence of registrations, the index lists
    under every extension the registered parsers that declare it, in
    registration order; the supported extensions are the extensions
    some registered parser declares; and with the three default
    parsers these are the four markdown extensions, [.ipynb], [.bib]
    and [.bibtex]. *)
Theorem extension_index_spec (ps : list ContentParser) (e : string) :
  entry (_extension_map (registry_of ps)) e =
    List.filter (declares e) (_parsers (registry_of ps)) /\
  (e ∈ get_supported_extensions (registry_of ps) <->
   exists p, In p (_parsers (registry_of ps)) /\ e ∈ supported_extensions p) /\
  (forall dedent markdown fs,
     e ∈ get_supported_extensions (parser_registry dedent markdown fs) <->
     e ∈ [".md"; ".markdown"; ".mdown"; ".mkd"; ".ipynb"; ".bib"; ".bibtex"]).
Proof.
  assert (Hkeys : forall ps e,
            e ∈ get_supported_extensions (registry_of ps) <->
            exists p, In p (_parsers (registry_of ps)) /\ e ∈ supported_extensions p).
  { intros ps' e'. unfold get_supported_extensions. rewrite elem_of_dom.
    apply extension_keys. intros x. cbn. rewrite lookup_empty. split.
    - intros [? ?]. discriminate.
    - intros (? & [] & _). }
  split; [apply index_ok_registry_of|]. split; [apply Hkeys|].
  intros dedent markdown fs.
  change (parser_registry dedent markdown fs)
    with (registry_of [MarkdownParser dedent markdown fs; JupyterParser fs; BibtexParser fs]).
  rewrite Hkeys.
  change (_parsers (registry_of
            [MarkdownParser dedent markdown fs; JupyterParser fs; BibtexParser fs]))
    with [MarkdownParser dedent markdown fs; JupyterParser fs; BibtexParser fs].
  split.
  - intros (p & [<-|[<-|[<-|[]]]] & He); cbn in He;
      unfold markdown_extensions_supported, bibtex_extensions in He;
      rewrite !elem_of_cons in *; tauto.
  - intros He. rewrite !elem_of_cons in He.
    destruct He as [->|[->|[->|[->|[->|[->|[->|He]]]]]]].
    1-4: exists (MarkdownParser dedent markdown fs).
    5: exists (JupyterParser fs).
    6-7: exists (BibtexParser fs).
    8: now apply not_elem_of_nil in He.
    all: split; [cbn; tauto | apply (bool_decide_unpack _); vm_compute; exact I].
Qed.

(** X21. With the default parsers, a file that is not a notebook is
    given to a parser by its extension alone, whatever its case:
    the markdown parser takes [.md], [.markdown], [.mdown] and
    [.mkd], the BibTeX parser [.bib] and [.bibtex], and no parser
    takes any other file.  Only a file ending in [.ipynb] is opened:
    it goes to the notebook parser when it reads as a JSON object
    holding [cells], and to no parser when it reads as other JSON or
    as no JSON at all; when it cannot be opened or read, the
    exception leaves the lookup. *)
Theorem default_parser_for_file (dedent : string -> string)
    (markdown : string -> list string -> result string) (fs : Files) (file_path : path) :
  let reg := parser_registry dedent markdown fs in
  let extension := lower (suffix file_path) in
  get_parser_for_file reg file_path =
    if bool_decide (extension ∈ markdown_extensions_supported)
    then Ok (Some (MarkdownParser dedent markdown fs))
    else if String.eqb extension ".ipynb"
    then match notebook_json fs file_path with
         | Ok (JObject keys) =>
             if bool_decide ("cells" ∈ keys) then Ok (Some (JupyterParser fs)) else Ok None
         | Ok JOther => Ok None
         | Raise e =>
             match e with
             | JSONDecodeError | UnicodeDecodeError | KeyError => Ok None
             | _ => Raise e
             end
         end
    else if bool_decide (extension ∈ bibtex_extensions)
    then Ok (Some (BibtexParser fs))
    else Ok None.
Proof.
  intros reg extension.
  rewrite get_parser_for_file_index
    by (change reg with (registry_of [MarkdownParser dedent markdown fs; JupyterParser fs;
                                       BibtexParser fs]); apply index_ok_registry_of).
  change (_parsers reg)
    with [MarkdownParser dedent markdown fs; JupyterParser fs; BibtexParser fs].
  fold extension.
  set (md := MarkdownParser dedent markdown fs).
  set (nb := JupyterParser fs).
  set (bib := BibtexParser fs).
  assert (Hc_md : can_parse md file_path =
                  Ok (bool_decide (extension ∈ markdown_extensions_supported)))
    by reflexivity.
  assert (Hc_nb : can_parse nb file_path =
                  if negb (String.eqb extension ".ipynb") then Ok false
                  else
                    try_except
                      (data ← notebook_json fs file_path;
                       Ok (match data with
                           | JObject keys => bool_decide ("cells" ∈ keys)
                           | JOther => false
                           end))
                      (fun e =>
                         match e with
                         | JSONDecodeError | UnicodeDecodeError | KeyError => Ok false
                         | _ => Raise e
                         end)) by reflexivity.
  assert (Hc_bib : can_parse bib file_path =
                   Ok (bool_decide (extension ∈ bibtex_extensions))) by reflexivity.
  assert (Hd_md : declares extension md =
                  bool_decide (extension ∈ markdown_extensions_supported)) by reflexivity.
  assert (Hd_nb : declares extension nb = bool_decide (extension ∈ [".ipynb"]))
    by reflexivity.
  assert (Hd_bib : declares extension bib = bool_decide (extension ∈ bibtex_extensions))
    by reflexivity.
  cbn [List.filter]. rewrite Hd_md, Hd_nb, Hd_bib.
  destruct (decide (extension ∈ markdown_extensions_supported)) as [Hmd|Hmd].
  - rewrite !(bool_decide_eq_true_2 _ Hmd). cbn [first_can_parse].
    now rewrite Hc_md, (bool_decide_eq_true_2 _ Hmd).
  - rewrite !(bool_decide_eq_false_2 _ Hmd).
    destruct (String.eqb_spec extension ".ipynb") as [Hnb|Hnb].
    + assert (Hbib : extension ∉ bibtex_extensions).
      { rewrite Hnb. apply (bool_decide_unpack _). vm_compute. exact I. }
      rewrite (bool_decide_eq_true_2 (extension ∈ [".ipynb"]))
        by (apply list_elem_of_singleton; exact Hnb).
      rewrite !(bool_decide_eq_false_2 _ Hbib). cbn [first_can_parse].
      rewrite Hc_md, Hc_nb, Hc_bib, (bool_decide_eq_false_2 _ Hmd),
        (bool_decide_eq_false_2 _ Hbib).
      destruct (String.eqb_spec extension ".ipynb") as [_|Hne]; [|contradiction].
      cbn [negb].
      destruct (notebook_json fs file_path) as [[keys|]|e]; cbn.
      * now destruct (bool_decide ("cells" ∈ keys)).
      * reflexivity.
      * now destruct e.
    + rewrite (bool_decide_eq_false_2 (extension ∈ [".ipynb"]))
        by (rewrite list_elem_of_singleton; exact Hnb).
      destruct (decide (extension ∈ bibtex_extensions)) as [Hbib|Hbib].
      * rewrite !(bool_decide_eq_true_2 _ Hbib). cbn [first_can_parse].
        now rewrite Hc_bib, (bool_decide_eq_true_2 _ Hbib).
      * rewrite !(bool_decide_eq_false_2 _ Hbib). cbn [first_can_parse].
        rewrite Hc_md, Hc_nb, Hc_bib, (bool_decide_eq_false_2 _ Hmd),
          (bool_decide_eq_false_2 _ Hbib).
        destruct (String.eqb_spec extension ".ipynb") as [He|_]; [contradiction|].
        reflexivity.
Qed.

(** A notebook that is missing, with the default parsers, and one
    that is there. *)
Example default_parser_for_notebook :
  get_parser_for_file Samples.no_notebooks_registry
    ["content"; "blog"; "draft.ipynb"] = Raise FileNotFoundError /\
  (from_option pid 99%nat <$>
     get_parser_for_file
       (parser_registry (fun s => s) (fun s _ => Ok s) Samples.sample_files)
       ["content"; "blog"; "Demo.IPYNB"]) = Ok 1%nat.
Proof. split; vm_compute; reflexivity. Qed.

End ExtensionIndex.

Section DefaultProcessing.
Import DefaultParsers ZenFolio.

(** X22. What the content processor does with the default parsers.
    Content of type [notebook] is returned as it is: it is HTML
    already, and markdown never sees it.  Content of every other
    type, whether a parser is registered for it or not, is dedented,
    stripped and given to markdown with the configured extensions;
    when markdown raises, the content comes back unchanged. *)
Theorem default_content_processing (lib : Libs) (self : Generator) (fs : Files)
    (content content_type : string)
    (Hreg : parser_registry self =
            DefaultParsers.parser_registry (dedent lib) (markdown lib) fs) :
  _process_content_field lib self content (VStr content_type) =
    Ok (if String.eqb content_type "notebook" then content
        else match markdown lib (strip (dedent lib content))
                     (markdown_extensions (site (config self))) with
             | Ok html => html
             | Raise _ => content
             end).
Proof.
  unfold _process_content_field. rewrite Hreg.
  set (md := MarkdownParser (dedent lib) (markdown lib) fs).
  set (nb := JupyterParser fs).
  set (bib := BibtexParser fs).
  set (extensions := markdown_extensions (site (config self))).
  change (get_parsers_for_content_type
            (DefaultParsers.parser_registry (dedent lib) (markdown lib) fs)
            (VStr content_type))
    with (Ok (List.filter (produces content_type) [md; nb; bib])
            : result (list ContentParser)).
  cbn [mbind result_bind Py.bind].
  assert (Hmd : get_content_processor md content_type =
                Some (process_markdown (dedent lib) (markdown lib))) by reflexivity.
  assert (Hnb : get_content_processor nb content_type =
                if String.eqb content_type "notebook"
                then Some (fun content _ => Ok content) else None) by reflexivity.
  assert (Hbib : get_content_processor bib content_type = None) by reflexivity.
  assert (Pmd : produces content_type md =
                bool_decide (content_type ∈ markdown_content_types)) by reflexivity.
  assert (Pnb : produces content_type nb =
                bool_decide (content_type ∈ ["blog_post"; "page"; "notebook"]))
    by reflexivity.
  cbn [List.filter]. rewrite Pmd, Pnb.
  destruct (String.eqb_spec content_type "notebook") as [->|Hne].
  - rewrite (bool_decide_eq_false_2 ("notebook" ∈ markdown_content_types))
      by (apply (bool_decide_unpack _); vm_compute; exact I).
    rewrite (bool_decide_eq_true_2 ("notebook" ∈ ["blog_post"; "page"; "notebook"]))
      by (apply (bool_decide_unpack _); vm_compute; exact I).
    cbn [first_processor]. rewrite Hnb. reflexivity.
  - assert (Hrest : forall ps,
              first_processor
                ((if bool_decide (content_type ∈ ["blog_post"; "page"; "notebook"])
                  then nb :: ps else ps)) content_type content extensions =
              first_processor ps content_type content extensions).
    { intros ps.
      destruct (bool_decide (content_type ∈ ["blog_post"; "page"; "notebook"]));
        [|reflexivity].
      cbn [first_processor]. now rewrite Hnb. }
    assert (Hlast : first_processor
                      (if produces content_type bib then [bib] else [])
                      content_type content extensions = None).
    { destruct (produces content_type bib); [|reflexivity].
      cbn [first_processor]. now rewrite Hbib. }
    unfold process_markdown in Hmd.
    destruct (bool_decide (content_type ∈ markdown_content_types)).
    + cbn [first_processor]. rewrite Hmd.
      destruct (markdown lib (strip (dedent lib content)) extensions) as [html|e] eqn:E;
        [reflexivity|].
      rewrite Hrest, Hlast. reflexivity.
    + rewrite Hrest, Hlast. cbv beta iota.
      now destruct (markdown lib (strip (dedent lib content)) extensions).
Qed.

Lemma default_content_processing_witness :
  _process_content_field Samples.sample_libs Samples.default_site "<div>cells</div>" (VStr "notebook")
    = Ok "<div>cells</div>" /\
  _process_content_field Samples.sample_libs Samples.default_site "  Hello  " (VStr "markdown")
    = Ok "<p>Hello</p>".
Proof.
  split.
  - now rewrite (default_content_processing Samples.sample_libs Samples.default_site Samples.sample_files
                   "<div>cells</div>" "notebook" eq_refl).
  - now rewrite (default_content_processing Samples.sample_libs Samples.default_site Samples.sample_files
                   "  Hello  " "markdown" eq_refl).
Defined.

End DefaultProcessing.

Section SitemapPages.
Import Sitemap.

Lemma path_of_entry (filename today : string) :
  path_of (sitemap_entry filename today) = filename.
Proof. unfold path_of, sitemap_entry. now rewrite lookup_insert_eq. Qed.

Lemma any_path_ok (filename : string) (seo_pages : list (gmap string string)) :
  Forall (fun page => is_Some (page !! "path")) seo_pages ->
  any_path filename seo_pages = Ok (bool_decide (filename ∈ path_of <$> seo_pages)).
Proof.
  induction 1 as [|page pages [p Hp] _ IH]; cbn [any_path].
  - now rewrite bool_decide_eq_false_2 by apply not_elem_of_nil.
  - assert (Hpo : path_of page = p) by (unfold path_of; now rewrite Hp).
    rewrite Hp, fmap_cons.
    destruct (String.eqb_spec p filename) as [->|Hne].
    + rewrite bool_decide_eq_true_2; [reflexivity|]. apply elem_of_cons. now left.
    + rewrite IH. apply f_equal, bool_decide_ext. rewrite elem_of_cons, Hpo.
      split; [now right|]. intros [->|H]; [contradiction | exact H].
Qed.

Lemma first_date_app_known (pre : list (string * string)) (call : string * string)
    (filename : string) :
  filename ∈ pre.*1 -> first_date (pre ++ [call]) filename = first_date pre filename.
Proof.
  unfold first_date. induction pre as [|[f t] pre IH]; intros Hin.
  - now apply not_elem_of_nil in Hin.
  - cbn. destruct (String.eqb_spec f filename) as [->|Hne]; [reflexivity|].
    apply IH. cbn in Hin. apply elem_of_cons in Hin as [->|Hin]; [contradiction | exact Hin].
Qed.

Lemma first_date_app_new (pre : list (string * string)) (filename today : string) :
  filename ∉ pre.*1 -> first_date (pre ++ [(filename, today)]) filename = today.
Proof.
  unfold first_date. induction pre as [|[f t] pre IH]; intros Hout.
  - cbn. now rewrite String.eqb_refl.
  - cbn. destruct (String.eqb_spec f filename) as [->|Hne].
    + exfalso. apply Hout. cbn. apply elem_of_cons. now left.
    + apply IH. intros Hin. apply Hout. cbn. apply elem_of_cons. now right.
Qed.

Lemma track_pages_inv (calls : list (string * string)) :
  forall (seo_pages : list (gmap string string)) (pre : list (string * string)),
  NoDup (path_of <$> seo_pages) ->
  (forall f, f ∈ path_of <$> seo_pages <-> f ∈ pre.*1) ->
  Forall (fun page => page = sitemap_entry (path_of page) (first_date pre (path_of page)))
    seo_pages ->
  exists pages,
    track_pages seo_pages calls = Ok pages /\
    NoDup (path_of <$> pages) /\
    (forall f, f ∈ path_of <$> pages <-> f ∈ (pre ++ calls).*1) /\
    Forall (fun page =>
              page = sitemap_entry (path_of page) (first_date (pre ++ calls) (path_of page)))
      pages.
Proof.
  induction calls as [|[filename today] calls IH]; intros seo_pages pre Hnd Hpaths Hall.
  - exists seo_pages. rewrite app_nil_r. auto.
  - cbn [track_pages]. unfold track_page.
    rewrite any_path_ok.
    2:{ eapply Forall_impl; [exact Hall|]. intros page ->. unfold sitemap_entry.
        rewrite lookup_insert_eq. eauto. }
    cbn.
    replace (pre ++ (filename, today) :: calls) with ((pre ++ [(filename, today)]) ++ calls)
      by now rewrite <- app_assoc.
    assert (Hold : forall page, page ∈ seo_pages ->
              first_date (pre ++ [(filename, today)]) (path_of page) =
              first_date pre (path_of page)).
    { intros page Hpage. apply first_date_app_known, Hpaths.
      now apply list_elem_of_fmap_2. }
    case_bool_decide as Hknown.
    + apply IH; [exact Hnd| |].
      * intros f. rewrite Hpaths, fmap_app, elem_of_app. cbn.
        rewrite list_elem_of_singleton. split; [now left|].
        intros [H| ->]; [exact H | now apply Hpaths].
      * rewrite Forall_forall in Hall |- *. intros page Hpage.
        rewrite (Hold page Hpage). now apply Hall.
    + apply IH.
      * rewrite fmap_app. apply NoDup_app. split; [exact Hnd|]. split.
        -- intros f Hf Hf'. cbn in Hf'. rewrite path_of_entry in Hf'.
           apply list_elem_of_singleton in Hf' as ->. contradiction.
        -- apply NoDup_singleton.
      * intros f. rewrite !fmap_app, !elem_of_app, Hpaths. cbn.
        now rewrite path_of_entry.
      * apply Forall_app. split.
        -- rewrite Forall_forall in Hall |- *. intros page Hpage.
           rewrite (Hold page Hpage). now apply Hall.
        -- constructor; [|constructor]. rewrite path_of_entry.
           rewrite first_date_app_new; [reflexivity|].
           intros Hin. apply Hknown, Hpaths, Hin.
Qed.

(** X23. The sitemap lists every page once.  Whatever pages are
    written during a build, and however often one of them is written
    again, the pages tracked for the sitemap hold each file name
    exactly once.  The entry of a file is the one made when it was
    first written: it carries that date, priority 1.0 and weekly
    changes for [index.html], priority 0.8 for the publication and
    project pages and 0.6 for every other page, with monthly
    changes. *)
Theorem sitemap_pages_distinct (calls : list (string * string)) :
  exists pages,
    track_pages [] calls = Ok pages /\
    NoDup (path_of <$> pages) /\
    (forall filename, filename ∈ path_of <$> pages <-> filename ∈ calls.*1) /\
    Forall (fun page =>
              page = sitemap_entry (path_of page) (first_date calls (path_of page))) pages.
Proof.
  destruct (track_pages_inv calls [] []) as (pages & E & Hnd & Hpaths & Hall).
  - constructor.
  - intros f. reflexivity.
  - constructor.
  - exists pages. auto.
Qed.

End SitemapPages.

Section ServiceItems.
Import Paths ZenFolio Service.
Implicit Types (d : gmap string pyval) (h : gmap loc (gmap string pyval)).

Lemma select_inv (keep : pyval -> bool) (items : list item) : forall kept,
  select keep items = Ok kept ->
  kept = List.filter (selected keep) items /\
  Forall (fun it => exists fields category,
            it = IObj fields /\ fields !! "category" = Some category) items.
Proof.
  induction items as [|it items IH]; intros kept H; cbn [select] in H.
  - injection H as <-. split; [reflexivity | constructor].
  - destruct (category_of it) as [category|e] eqn:Ec; [|discriminate]. cbn in H.
    destruct (select keep items) as [rest|e] eqn:Er; [|discriminate]. cbn in H.
    injection H as <-. destruct (IH rest eq_refl) as [-> Hall].
    split.
    + assert (Hs : selected keep it = keep category)
        by (unfold selected; now rewrite Ec).
      cbn [List.filter]. now rewrite Hs.
    + constructor; [|exact Hall]. destruct it as [l|fields|kvs]; try discriminate.
      cbn in Ec. destruct (fields !! "category") as [c|] eqn:Hc; [|discriminate]. eauto.
Qed.

Lemma filter_length_split {A} (f : A -> bool) (l : list A) :
  (length (List.filter f l) + length (List.filter (fun x => negb (f x)) l) = length l)%nat.
Proof.
  induction l as [|a l IH]; [reflexivity|]. cbn. destruct (f a); cbn; lia.
Qed.

(** Processing typed entities: every entity gets a dictionary of its
    own, which holds what the loop body makes of its fields, and no
    dictionary that existed before is touched. *)
Lemma process_items_objects lib self item_type seo : forall items h h' out,
  Forall (fun it => exists fields, it = IObj fields) items ->
  _process_items lib self h items item_type seo = Ok (h', out) ->
  dom h ⊆ dom h' /\
  (forall l, l ∈ dom h -> h' !! l = h !! l) /\
  Forall2 (fun it l =>
             (l ∉ dom h) /\
             exists fields d', it = IObj fields /\
               process_item lib self item_type seo fields = Ok d' /\
               h' !! l = Some d') items out.
Proof.
  induction items as [|it items IH]; intros h h' out Hobj H; cbn [_process_items] in H.
  - injection H as <- <-. split; [reflexivity|]. split; [reflexivity | constructor].
  - inversion Hobj as [|? ? [fields ->] Hrest]; subst.
    cbn [item_dict_of alloc] in H. rewrite lookup_total_insert_eq in H.
    destruct (process_item lib self item_type seo fields) as [d1|e] eqn:E1; [|discriminate].
    cbn in H. rewrite insert_insert_eq in H.
    destruct (_process_items lib self (<[fresh (dom h) := d1]> h) items item_type seo)
      as [[h2 out2]|e] eqn:E2; [|discriminate].
    cbn in H. injection H as <- <-.
    destruct (IH _ _ _ Hrest E2) as (Hdom & Hframe & Hout).
    pose proof (is_fresh (dom h)) as Hfresh.
    assert (Hsub : dom h ⊆ dom (<[fresh (dom h) := d1]> h)) by apply dom_insert_subseteq.
    assert (Hin : forall l, l ∈ dom h -> l ∈ dom (<[fresh (dom h) := d1]> h))
      by (intros l; apply (proj1 (elem_of_subseteq _ _) Hsub)).
    split; [etrans; [exact Hsub | exact Hdom]|]. split.
    + intros l Hl. rewrite Hframe by now apply Hin.
      apply lookup_insert_ne. intros <-. contradiction.
    + constructor.
      * split; [exact Hfresh|]. exists fields, d1. split; [reflexivity|].
        split; [exact E1|]. rewrite Hframe.
        -- apply lookup_insert_eq.
        -- rewrite dom_insert. apply elem_of_union_l, elem_of_singleton. reflexivity.
      * eapply Forall2_impl; [exact Hout|]. cbn. intros it l (Hl & Hrest').
        split; [|exact Hrest']. intros Hl'. apply Hl. now apply Hin.
Qed.

Lemma add_review_titles (title : string) (l : loc) (groups : list (string * list loc)) :
  forall t, t ∈ (add_review title l groups).*1 <-> t = title \/ t ∈ groups.*1.
Proof.
  induction groups as [|[t0 ls] groups IH]; intros t; cbn.
  - rewrite list_elem_of_singleton. split; [now left|]. intros [H|H]; [exact H|].
    now apply not_elem_of_nil in H.
  - destruct (String.eqb_spec t0 title) as [->|Hne]; cbn.
    + rewrite elem_of_cons. tauto.
    + rewrite !elem_of_cons, IH. tauto.
Qed.

Lemma add_review_ok title_case h groups done title l :
  review_groups_ok title_case h groups done ->
  category_title title_case (h !!! l) = Ok title ->
  review_groups_ok title_case h (add_review title l groups) (done ++ [l]).
Proof.
  intros (Hnd & Hperm & Hall) Ht. revert done Hperm.
  induction groups as [|[t0 ls] groups IH]; intros done Hperm; cbn in *.
  - apply Permutation_nil in Hperm as ->. split; [apply NoDup_singleton|].
    split; [reflexivity|]. repeat constructor; [discriminate | exact Ht].
  - apply NoDup_cons in Hnd as [Hout Hnd]. inversion Hall as [|? ? [Hne Hls] Hrest]; subst.
    destruct (String.eqb_spec t0 title) as [->|Hdiff]; cbn.
    + split; [apply NoDup_cons; auto|]. split.
      * rewrite <- Hperm, fmap_cons, concat_cons. cbn [snd]. rewrite <- !app_assoc.
        apply Permutation_app_head, Permutation_app_comm.
      * constructor; [|exact Hrest]. cbn in *. split; [intros Heq; symmetry in Heq; exact (app_cons_not_nil _ _ _ Heq)|].
        apply Forall_app. split; [exact Hls | repeat constructor; exact Ht].
    + destruct (IH Hnd Hrest (concat groups.*2) (Permutation_refl _))
        as (Hnd' & Hperm' & Hall').
      split; [|split].
      * rewrite fmap_cons. apply NoDup_cons. split; [|exact Hnd']. cbn [fst].
        rewrite add_review_titles. intros [Heq|H]; [congruence | contradiction].
      * rewrite ?fmap_cons, ?concat_cons. cbn [snd].
        rewrite Hperm', <- Hperm, app_assoc. reflexivity.
      * constructor; [split; assumption | exact Hall'].
Qed.

Lemma group_reviews_ok title_case h (items : list loc) : forall groups done out,
  review_groups_ok title_case h groups done ->
  group_reviews title_case h items groups = Ok out ->
  review_groups_ok title_case h out (done ++ items).
Proof.
  induction items as [|l items IH]; intros groups done out Hok H; cbn [group_reviews] in H.
  - injection H as <-. now rewrite app_nil_r.
  - destruct (category_title title_case (h !!! l)) as [title|e] eqn:Et; [|discriminate].
    cbn in H. replace (done ++ l :: items) with ((done ++ [l]) ++ items)
      by now rewrite <- app_assoc.
    eapply IH; [|exact H]. now apply add_review_ok.
Qed.

(** X24. [_process_service_items] sorts every service item into
    exactly one place.  When it returns, the leadership items and the
    review groups together hold as many dictionaries as there were
    items; the leadership items are those of category [leadership],
    and no review item is; no two groups share a title; no group is
    empty; and every item of a group has the category its group is
    named after: [Conference] for [conference], the title-cased
    category otherwise. *)
Theorem process_service_items_partition (title_case : string -> string) (lib : Libs)
    (self : Generator) h (items : list item) (seo : option SEOGenerator)
    h' (leadership : list loc) (review_groups : list (string * list loc))
    (Hrun : _process_service_items title_case lib self h items seo
              = Ok (h', (leadership, review_groups))) :
  (length leadership + length (concat review_groups.*2) = length items)%nat /\
  NoDup review_groups.*1 /\
  Forall (fun g => g.2 <> [] /\
            Forall (fun l => category_title title_case (h' !!! l) = Ok g.1 /\
                             (h' !!! l) !! "category" <> Some (VStr "leadership")) g.2)
    review_groups /\
  Forall (fun l => (h' !!! l) !! "category" = Some (VStr "leadership")) leadership.
Proof.
  unfold _process_service_items in Hrun.
  destruct (select is_leadership items) as [leaders|e] eqn:Es1; [|discriminate].
  cbn in Hrun.
  destruct (_process_items lib self h leaders "service_item" seo)
    as [[h1 out1]|e] eqn:E1; [|discriminate].
  cbn in Hrun.
  destruct (select (fun category => negb (is_leadership category)) items)
    as [others|e] eqn:Es2; [|discriminate].
  cbn in Hrun.
  destruct (_process_items lib self h1 others "service_item" seo)
    as [[h2 out2]|e] eqn:E2; [|discriminate].
  cbn in Hrun.
  destruct (group_reviews title_case h2 out2 []) as [groups|e] eqn:Eg; [|discriminate].
  cbn in Hrun. injection Hrun as <- <- <-.
  destruct (select_inv _ _ _ Es1) as [-> Hitems].
  destruct (select_inv _ _ _ Es2) as [-> _].
  assert (Hobj : forall f, Forall (fun it => exists fields, it = IObj fields)
                             (List.filter f items)).
  { intros f. apply Forall_forall. intros it Hit%list_elem_of_In%filter_In.
    destruct Hit as [Hit _]. rewrite Forall_forall in Hitems.
    destruct (Hitems it) as (fields & _ & -> & _); [now apply list_elem_of_In|]. eauto. }
  destruct (process_items_objects _ _ _ _ _ _ _ _ (Hobj _) E1) as (Hdom1 & _ & Hout1).
  destruct (process_items_objects _ _ _ _ _ _ _ _ (Hobj _) E2) as (_ & Hframe2 & Hout2).
  destruct (group_reviews_ok title_case h2 out2 [] [] groups) as (Hnd & Hperm & Hall);
    [split; [constructor | split; [reflexivity | constructor]] | exact Eg |].
  cbn [app] in Hperm.
  assert (Hcat : forall lib0 self0 seo0 fields d',
            process_item lib0 self0 "service_item" seo0 fields = Ok d' ->
            d' !! "category" = fields !! "category").
  { intros lib0 self0 seo0 fields d' Hp.
    destruct (process_item_facts _ _ _ _ _ _ Hp) as (Hsame & _). apply Hsame.
    apply (bool_decide_unpack _). vm_compute. exact I. }
  split; [|split; [exact Hnd|split]].
  - rewrite (Permutation_length Hperm).
    rewrite <- (Forall2_length _ _ _ Hout1), <- (Forall2_length _ _ _ Hout2).
    assert (Hext : List.filter (selected (fun category => negb (is_leadership category)))
                     items =
                   List.filter (fun it => negb (selected is_leadership it)) items).
    { apply filter_ext_in. intros it Hit. rewrite Forall_forall in Hitems.
      destruct (Hitems it) as (fields & c & -> & Hc); [now apply list_elem_of_In|].
      unfold selected. cbn. now rewrite Hc. }
    rewrite Hext. apply filter_length_split.
  - assert (Hreview : forall l, l ∈ out2 ->
              (h2 !!! l) !! "category" <> Some (VStr "leadership")).
    { intros l Hl. apply list_elem_of_lookup in Hl as [i Hi].
      destruct (Forall2_lookup_r _ _ _ _ _ Hout2 Hi) as (it & Hit & _ & fields & d' & -> & Hp & Hd').
      rewrite lookup_total_alt, Hd'. cbn. rewrite (Hcat _ _ _ _ _ Hp).
      apply list_elem_of_lookup_2, list_elem_of_In, filter_In in Hit as [_ Hsel].
      unfold selected in Hsel. cbn in Hsel.
      destruct (fields !! "category") as [c|]; [|discriminate]. cbn in Hsel.
      intros [= ->]. discriminate. }
    rewrite Forall_forall in Hall |- *. intros g Hg.
    destruct (Hall g Hg) as [Hne Hls]. split; [exact Hne|].
    rewrite Forall_forall in Hls |- *. intros l Hl. split; [now apply Hls|].
    apply Hreview. rewrite <- Hperm. apply list_elem_of_In, in_concat.
    exists g.2. split; [|now apply list_elem_of_In].
    apply list_elem_of_In. now apply list_elem_of_fmap_2.
  - apply Forall_forall. intros l Hl. apply list_elem_of_lookup in Hl as [i Hi].
    destruct (Forall2_lookup_r _ _ _ _ _ Hout1 Hi)
      as (it & Hit & _ & fields & d' & -> & Hp & Hd').
    assert (Hl1 : l ∈ dom h1) by (apply elem_of_dom; eauto).
    rewrite lookup_total_alt, (Hframe2 l Hl1), Hd'. cbn. rewrite (Hcat _ _ _ _ _ Hp).
    apply list_elem_of_lookup_2, list_elem_of_In, filter_In in Hit as [_ Hsel].
    unfold selected in Hsel. cbn in Hsel.
    destruct (fields !! "category") as [c|]; [|discriminate]. cbn in Hsel.
    unfold is_leadership, eq_str in Hsel. destruct c; try discriminate.
    now apply String.eqb_eq in Hsel as ->.
Qed.

Lemma process_service_items_partition_witness :
  exists h' leadership review_groups,
    _process_service_items Samples.capitalize Samples.sample_libs Samples.sample_site ∅ Samples.sample_services None
      = Ok (h', (leadership, review_groups)) /\
    (length leadership + length (concat review_groups.*2) = 3)%nat.
Proof.
  assert (H : match _process_service_items Samples.capitalize Samples.sample_libs Samples.sample_site ∅
                      Samples.sample_services None with
              | Ok _ => true
              | Raise _ => false
              end = true) by (vm_compute; reflexivity).
  destruct (_process_service_items Samples.capitalize Samples.sample_libs Samples.sample_site ∅ Samples.sample_services None)
    as [[h' [leadership review_groups]]|e] eqn:E; [|discriminate].
  exists h', leadership, review_groups. split; [reflexivity|].
  now destruct (process_service_items_partition _ _ _ _ _ _ _ _ _ E) as [Hcount _].
Defined.

(** The three sample entries: one leadership item, and the groups
    [Conference] and [Journal]. *)
Example process_service_items_sample :
  match _process_service_items Samples.capitalize Samples.sample_libs Samples.sample_site ∅ Samples.sample_services None with
  | Ok (_, (leadership, review_groups)) => (length leadership, review_groups.*1)
  | Raise _ => (0%nat, [])
  end = (1%nat, ["Conference"; "Journal"]).
Proof. vm_compute. reflexivity. Qed.

End ServiceItems.

Section StaticPlaceholders.
Import Strings Urls BlogPages ZenFolio.

Lemma append_assoc (s t u : string) : (s +:+ t) +:+ u = s +:+ (t +:+ u).
Proof.
  induction s as [|a s IH]; [reflexivity|].
  exact (f_equal (String a) IH).
Qed.

Lemma contains_tail (x : string) (a : ascii) (s : string) :
  contains x (String a s) = false -> contains x s = false.
Proof. cbn [contains]. now intros [_ H]%orb_false_elim. Qed.

Lemma contains_suffix (x p r : string) :
  contains x (p +:+ r) = false -> contains x r = false.
Proof.
  induction p as [|a p IH]; intros H; [exact H|].
  apply IH. now apply contains_tail in H.
Qed.

Lemma contains_prefix (x s : string) :
  String.prefix x s = true -> contains x s = true.
Proof. intros H. destruct s; cbn [contains]; now rewrite H. Qed.

Lemma until_quote_spec (s : string) :
  s = (until_quote s).1 +:+ (until_quote s).2.
Proof.
  induction s as [|c s IH]; [reflexivity|]. cbn [until_quote].
  destruct (Ascii.eqb c (ascii_of_nat 34)); [reflexivity|].
  cbv zeta. cbn [fst snd].
  change (String c s = String c ((until_quote s).1 +:+ (until_quote s).2)).
  now f_equal.
Qed.

Lemma until_quote_rest (s : string) :
  match (until_quote s).2 with
  | EmptyString => True
  | String q _ => q = ascii_of_nat 34
  end.
Proof.
  induction s as [|c s IH]; [exact I|]. cbn [until_quote].
  destruct (Ascii.eqb_spec c (ascii_of_nat 34)) as [->|_]; [reflexivity | exact IH].
Qed.

Lemma sub_src_skip (f : string -> string) (p r : string) :
  sub_src f (String.length p) (p +:+ r) = sub_src f 0 r.
Proof. induction p as [|a p IH]; [reflexivity | exact IH]. Qed.

Lemma src_match_inv (s g : string) :
  src_match s = Some g ->
  exists rest, s = "src=" +:+ dq +:+ g +:+ dq +:+ rest.
Proof.
  unfold src_match. set (opening := "src=" +:+ dq).
  destruct (String.prefix opening s) eqn:Hp; [|discriminate].
  destruct (startswith_inv s opening Hp) as [t ->].
  rewrite length_append.
  replace (String.length opening + String.length t - String.length opening)%nat
    with (String.length t) by lia.
  rewrite substring_skip. pose proof (until_quote_spec t) as Ht.
  destruct (until_quote t) as [g' after] eqn:Eu. cbn [fst snd] in *.
  destruct g' as [|a g']; [discriminate|]. destruct after as [|q after]; [discriminate|].
  intros [= <-].
  assert (Hq : q = ascii_of_nat 34).
  { pose proof (until_quote_rest t) as Hr. rewrite Eu in Hr. exact Hr. }
  subst q. exists after. rewrite Ht. subst opening. unfold dq.
  now rewrite ?append_assoc.
Qed.

Lemma sub_src_plain (lib : UrlLib) (base_url : string) : forall n s,
  (String.length s <= n)%nat ->
  contains ("src=" +:+ dq +:+ "images/") s = false ->
  sub_src (replace_relative_images lib base_url) 0 s = s.
Proof.
  induction n as [|n IH]; intros s Hlen Hplain.
  - destruct s; [reflexivity | cbn in Hlen; lia].
  - destruct s as [|c s']; [reflexivity|]. cbn [sub_src].
    destruct (src_match (String c s')) as [g|] eqn:Em.
    + destruct (src_match_inv _ _ Em) as [rest Hs].
      assert (Himg : startswith g "images/" = false).
      { destruct (startswith g "images/") eqn:Hg; [|reflexivity].
        destruct (startswith_inv _ _ Hg) as [t ->].
        rewrite <- Hplain. symmetry. apply contains_prefix. rewrite Hs.
        rewrite ?append_assoc.
        change (String.prefix ("src=" +:+ dq +:+ "images/")
                  (("src=" +:+ dq +:+ "images/") +:+ (t +:+ dq +:+ rest)) = true).
        apply (startswith_append ("src=" +:+ dq +:+ "images/")). }
      unfold replace_relative_images at 1. rewrite Himg, andb_false_r.
      assert (Hs' : s' = ("rc=" +:+ dq +:+ g +:+ dq) +:+ rest).
      { rewrite !append_assoc.
        change (String c s' = String "s" ("rc=" +:+ dq +:+ g +:+ dq +:+ rest)) in Hs.
        now injection Hs as _ ->. }
      rewrite Hs' at 1.
      replace (String.length g + 5)%nat with (String.length ("rc=" +:+ dq +:+ g +:+ dq)).
      2:{ unfold dq. rewrite !length_append. cbn. lia. }
      rewrite sub_src_skip, IH.
      * rewrite Hs. now rewrite ?append_assoc.
      * rewrite Hs' in Hlen. cbn in Hlen. rewrite length_append in Hlen. lia.
      * apply contains_tail in Hplain. rewrite Hs' in Hplain.
        now apply contains_suffix in Hplain.
    + f_equal. apply IH; [cbn in Hlen; lia|]. now apply contains_tail in Hplain.
Qed.

(** X25. [_process_static_placeholders] changes nothing but the
    placeholder and the relative image sources: a text that holds no
    [{static}] and no image source beginning with [images/] comes
    back as it is, whatever the base URL; so image sources that are
    external, absolute or already under [static/] are never
    rewritten. *)
Theorem static_placeholders_plain (lib : UrlLib) (content base_url : string)
    (Hstatic : contains "{static}" content = false)
    (Himages : contains ("src=" +:+ dq +:+ "images/") content = false) :
  _process_static_placeholders lib content base_url = content.
Proof.
  unfold _process_static_placeholders. rewrite Hstatic.
  now apply (sub_src_plain lib base_url (String.length content)).
Qed.

Lemma static_placeholders_plain_witness :
  _process_static_placeholders Samples.sample_urls
    ("<img src=" +:+ dq +:+ "https://example.org/a.png" +:+ dq +:+ ">") "../"
  = "<img src=" +:+ dq +:+ "https://example.org/a.png" +:+ dq +:+ ">".
Proof. apply static_placeholders_plain; vm_compute; reflexivity. Defined.

(** A relative image and a placeholder on a nested page. *)
Example static_placeholders_sample :
  _process_static_placeholders Samples.sample_urls
    ("<img src=" +:+ dq +:+ "images/plot.png" +:+ dq +:+ "> {static}/cv.pdf") "../"
  = "<img src=" +:+ dq +:+ "../static/images/plot.png" +:+ dq +:+ "> ../static/cv.pdf".
Proof. vm_compute. reflexivity. Qed.

(** X26. The page of a blog post is rendered from the raw content.
    The content shown on the page is computed from [content_raw] and
    [content_type] alone, and the item processor changes neither: so
    it is the same whether or not the post went through the item
    processor before, for the blog list or the homepage. *)
Theorem blog_post_content_from_raw (lib : Libs) (urls : UrlLib) (self : Generator)
    (base_url item_type : string) (seo : option SEOGenerator)
    (d d1 : gmap string pyval) (content_raw : string)
    (Hraw : d !! "content_raw" = Some (VStr content_raw))
    (Hrun : process_item lib self item_type seo d = Ok d1) :
  blog_post_content lib urls self base_url d1 =
    blog_post_content lib urls self base_url d /\
  blog_post_content lib urls self base_url d =
    (content ← _process_content_field lib self content_raw
                 (get_or d "content_type" (VStr "blog_post"));
     Ok (_process_static_placeholders urls content (_build_relative_url urls base_url 1))).
Proof.
  destruct (process_item_facts _ _ _ _ _ _ Hrun) as (Hsame & _ & _ & Hraw1 & _).
  rewrite Hraw in Hraw1.
  assert (Hct : d1 !! "content_type" = d !! "content_type").
  { apply Hsame. apply (bool_decide_unpack _). vm_compute. exact I. }
  unfold blog_post_content, get_or. rewrite Hraw, Hraw1, Hct. split; reflexivity.
Qed.

Lemma blog_post_content_from_raw_witness :
  exists d1,
    process_item Samples.sample_libs Samples.sample_site "blog_post_item" None
      Samples.sample_post = Ok d1 /\
    blog_post_content Samples.sample_libs Samples.sample_urls Samples.sample_site "" d1 =
    blog_post_content Samples.sample_libs Samples.sample_urls Samples.sample_site ""
      Samples.sample_post.
Proof.
  destruct (process_item_ok Samples.sample_libs Samples.sample_site "blog_post_item" None
              Samples.sample_post) as [d1 E].
  { split; apply hashable_true; vm_compute; reflexivity. }
  { apply theme_total_sample. }
  { exact schema_total_none. }
  exists d1. split; [exact E|].
  now destruct (blog_post_content_from_raw Samples.sample_libs Samples.sample_urls
                  Samples.sample_site "" "blog_post_item" None Samples.sample_post d1
                  "# Tensor methods" eq_refl E) as [H _].
Defined.

End StaticPlaceholders.

Section ReprocessingInPlace.
Import Paths ZenFolio.

Ltac member := apply (bool_decide_unpack _); vm_compute; exact I.

(** X27. A dictionary processed again in place starts from what the
    first run left.  When the loop body returns on a record [d] and
    again on its result, the second run finds [content_raw] and keeps
    it, and it leaves the deferred content of a blog post and every
    field the processor does not write as they were; but it resolves
    the path fields again, from the resolved paths, and it hands
    every markdown field it renders to the content processor again,
    as the HTML the first run made. *)
Theorem reprocessing_in_place lib self item_type seo
    (d d1 d2 : gmap string pyval)
    (Hfirst : process_item lib self item_type seo d = Ok d1)
    (Hsecond : process_item lib self item_type seo d1 = Ok d2) :
  d2 !! "content_raw" = d1 !! "content_raw" /\
  (forall k, k ∉ written_keys -> d2 !! k = d !! k) /\
  (skips_content item_type d = true -> d2 !! "content" = d !! "content") /\
  (forall k s, k ∈ path_fields -> d !! k = Some (VStr s) ->
     d1 !! k = Some (VStr (_resolve_path s)) /\
     d2 !! k = Some (VStr (_resolve_path (_resolve_path s)))) /\
  (forall key value,
     key ∈ markdown_keys -> d !! key = Some (VStr value) -> value <> "" ->
     renders item_type (skips_content item_type d) key = true ->
     exists html,
       _process_content_field lib self value (content_type_of item_type d) = Ok html /\
       d1 !! key = Some (VStr html) /\
       (html <> "" ->
          exists html',
            _process_content_field lib self html (content_type_of item_type d)
              = Ok html' /\
            d2 !! key = Some (VStr html'))).
Proof.
  destruct (process_item_facts _ _ _ _ _ _ Hfirst)
    as (Hsame1 & _ & _ & Hraw1 & Hmd1 & Hpath1).
  destruct (process_item_facts _ _ _ _ _ _ Hsecond)
    as (Hsame2 & _ & _ & Hraw2 & Hmd2 & Hpath2).
  destruct (content_type_of_rerun _ _ _ _ _ _ Hfirst) as [Hct Hskip].
  split; [|split; [|split; [|split]]].
  - rewrite Hraw2. destruct (d1 !! "content_raw") as [raw|] eqn:Eraw; [reflexivity|].
    destruct (d !! "content_raw"); [discriminate|].
    destruct (Hmd1 "content") as (dk & Ek & ->); [member|].
    unfold process_markdown_key, get in Ek. rewrite <- Hraw1 in Ek. cbn in Ek.
    injection Ek as <-. now symmetry.
  - intros k Hk. now rewrite Hsame2, Hsame1.
  - intros Hdefer.
    rewrite <- (process_item_deferred _ _ _ _ _ _ Hfirst Hdefer).
    apply (process_item_deferred _ _ _ _ _ _ Hsecond). now rewrite Hskip.
  - intros k s Hk Hs.
    assert (H1 : d1 !! k = Some (VStr (_resolve_path s))).
    { rewrite Hpath1 by exact Hk. now apply resolve_item_paths_str. }
    split; [exact H1|]. rewrite Hpath2 by exact Hk.
    now apply resolve_item_paths_str.
  - intros key value Hkey Hv Hne Hr.
    destruct (process_item_markdown_field _ _ _ _ _ _ _ _ Hfirst Hkey Hv Hne Hr)
      as (html & Ehtml & Hd1).
    exists html. split; [exact Ehtml|]. split; [exact Hd1|]. intros Hne'.
    rewrite <- Hct. rewrite <- Hskip in Hr.
    destruct (process_item_markdown_field _ _ _ _ _ _ _ _ Hsecond Hkey Hd1 Hne' Hr)
      as (html' & Ehtml' & Hd2).
    exists html'. auto.
Qed.

(** The sample project keeps its image under [static/static/]: the
    first run leaves [static/logo.png] in the field, the second run
    [logo.png]. *)
Lemma reprocessing_in_place_witness :
  exists d1 d2,
    process_item Samples.sample_libs Samples.sample_site "project_item" None
      Samples.sample_project = Ok d1 /\
    process_item Samples.sample_libs Samples.sample_site "project_item" None d1 = Ok d2 /\
    d1 !! "image" = Some (VStr "static/logo.png") /\
    d2 !! "image" = Some (VStr "logo.png").
Proof.
  destruct (process_item_ok Samples.sample_libs Samples.sample_site "project_item" None
              Samples.sample_project) as [d1 E1].
  { split; apply hashable_true; vm_compute; reflexivity. }
  { apply theme_total_sample. }
  { exact schema_total_none. }
  destruct (process_item_ok Samples.sample_libs Samples.sample_site "project_item" None d1)
    as [d2 E2].
  { now apply (process_item_hashable _ _ _ _ _ _ E1);
      split; apply hashable_true; vm_compute; reflexivity. }
  { apply theme_total_sample. }
  { exact schema_total_none. }
  exists d1, d2. split; [exact E1|]. split; [exact E2|].
  destruct (reprocessing_in_place _ _ _ _ _ _ _ E1 E2) as (_ & _ & _ & Hpath & _).
  destruct (Hpath "image" "static/static/logo.png") as [H1 H2]; [member | reflexivity |].
  split; [exact H1 | exact H2].
Defined.

End ReprocessingInPlace.
